(** * meca3-solar-system: render-space transform and adaptive scaling

    A shallow embedding of [src/common/update.ts] and the properties its
    specification states about it.

    Numbers.  A JavaScript [number] is modelled by [JS.number]: an exact
    rational, or one of the three special values [NaN], [+Infinity],
    [-Infinity].  Rounding of IEEE doubles and the sign of zero are outside
    the model; every arithmetic operation below is the exact operation on
    rationals, extended to the special values the way ECMAScript does.

    Built-ins.  Two built-ins decide what [makeUnit] and [makeTime] return
    and cannot be taken exactly: [Math.log10], whose result is a double
    near the logarithm, and [toFixed], which prints a quotient that has been
    rounded to a double.  [makeUnitWith] and [makeTimeWith] are the two
    functions over these built-ins; [makeUnit] and [makeTime] are their
    instances at the exact logarithm and the exact two-decimal rounding.

    Inputs.  The simulated state (positions, trajectories), the settings
    and the camera hold finite numbers, modelled by rationals; what the
    update functions compute from them and write into the scene is a
    [JS.number], since a division can leave the rationals.

    Exceptions.  Reading a property of [undefined] raises a [TypeError];
    a function that mutates its arguments ends in an [Outcome] that holds
    the store as the function left it, whether it returned or threw. *)

From Stdlib Require Import ZArith QArith Qround Qpower Qabs Qfield.
From Stdlib Require Import String Ascii DecimalString Decimal.
From Stdlib Require Import Lia.
From stdpp Require Import base list.

Local Open Scope Z_scope.
Local Open Scope Q_scope.

(* ===================================================================== *)
(** ** JavaScript numbers *)
(* ===================================================================== *)

Module JS.

Inductive number : Type :=
| NaN
| NegInfinity
| PosInfinity
| Num (q : Q).

(** [Infinity] carrying the sign of a rational; [NaN] for a zero. *)
Definition signedInfinity (c : comparison) : number :=
  match c with
  | Gt => PosInfinity
  | Lt => NegInfinity
  | Eq => NaN
  end.

(** Unary minus. *)
Definition neg (a : number) : number :=
  match a with
  | NaN => NaN
  | NegInfinity => PosInfinity
  | PosInfinity => NegInfinity
  | Num q => Num (- q)
  end.

(** [a + b]. *)
Definition add (a b : number) : number :=
  match a, b with
  | NaN, _ | _, NaN => NaN
  | PosInfinity, NegInfinity | NegInfinity, PosInfinity => NaN
  | PosInfinity, _ | _, PosInfinity => PosInfinity
  | NegInfinity, _ | _, NegInfinity => NegInfinity
  | Num p, Num q => Num (p + q)
  end.

(** [a - b]. *)
Definition sub (a b : number) : number := add a (neg b).

(** The sign of a number as a comparison with zero; [None] for [NaN]. *)
Definition sign (a : number) : option comparison :=
  match a with
  | NaN => None
  | NegInfinity => Some Lt
  | PosInfinity => Some Gt
  | Num q => Some (q ?= 0)
  end.

Definition mulSign (c d : comparison) : comparison :=
  match c, d with
  | Eq, _ | _, Eq => Eq
  | Gt, Gt | Lt, Lt => Gt
  | _, _ => Lt
  end.

(** [a * b]: zero times infinity is [NaN]. *)
Definition mul (a b : number) : number :=
  match a, b with
  | Num p, Num q => Num (p * q)
  | _, _ =>
      match sign a, sign b with
      | Some c, Some d => signedInfinity (mulSign c d)
      | _, _ => NaN
      end
  end.

(** [a / b]: a finite number over zero is an infinity of its sign, zero
    over zero and infinity over infinity are [NaN]. *)
Definition div (a b : number) : number :=
  match a, b with
  | NaN, _ | _, NaN => NaN
  | Num p, Num q =>
      if Qeq_bool q 0 then signedInfinity (p ?= 0) else Num (p / q)
  | Num _, _ => Num 0
  | _, Num q =>
      match sign a with
      | Some c => signedInfinity (if Qle_bool 0 q then c else CompOpp c)
      | None => NaN
      end
  | _, _ => NaN
  end.

(** [a >= b], [a <= b], [a < b]: false as soon as one side is [NaN]. *)
Definition le (a b : number) : bool :=
  match a, b with
  | NaN, _ | _, NaN => false
  | NegInfinity, _ => true
  | _, PosInfinity => true
  | Num p, Num q => Qle_bool p q
  | _, _ => false
  end.

Definition ge (a b : number) : bool := le b a.

Definition lt (a b : number) : bool :=
  match a, b with
  | NaN, _ | _, NaN => false
  | _, _ => negb (le b a)
  end.

(** [a !== b] on numbers: [NaN] differs from everything, itself included. *)
Definition strictNe (a b : number) : bool :=
  match a, b with
  | NaN, _ | _, NaN => true
  | NegInfinity, NegInfinity | PosInfinity, PosInfinity => false
  | Num p, Num q => negb (Qeq_bool p q)
  | _, _ => true
  end.

(** [Math.floor]. *)
Definition floor (a : number) : number :=
  match a with
  | Num q => Num (inject_Z (Qfloor q))
  | _ => a
  end.

(** Rounding towards zero, as the quotient inside [%] does. *)
Definition Qtrunc (q : Q) : Z :=
  if Qle_bool 0 q then Qfloor q else Qceiling q.

(** [a % b]: the remainder has the sign of the dividend. *)
Definition rem (a b : number) : number :=
  match a, b with
  | Num p, Num q =>
      if Qeq_bool q 0 then NaN else Num (p - q * inject_Z (Qtrunc (p / q)))
  | Num p, (NegInfinity | PosInfinity) => Num p
  | _, _ => NaN
  end.

(** Least [j >= k] with [n < d * 10^(j+1)], searched upwards. *)
Fixpoint log10_up (fuel : nat) (n d k : Z) : Z :=
  match fuel with
  | O => k
  | S fuel' =>
      if (n <? d * 10 ^ (k + 1))%Z then k else log10_up fuel' n d (k + 1)%Z
  end.

(** Opposite of the least [j >= k] with [d <= n * 10^j]. *)
Fixpoint log10_down (fuel : nat) (n d k : Z) : Z :=
  match fuel with
  | O => (- k)%Z
  | S fuel' =>
      if (d <=? n * 10 ^ k)%Z then (- k)%Z else log10_down fuel' n d (k + 1)%Z
  end.

(** The integer [e] with [10^e <= q < 10^(e+1)], for a positive [q]. *)
Definition ilog10 (q : Q) : Z :=
  let n := Qnum q in
  let d := Zpos (Qden q) in
  if (d <=? n)%Z
  then log10_up (S (Z.to_nat (Z.log2 n))) n d 0
  else log10_down (S (Z.to_nat (Z.log2 d))) n d 1.

(** The floor of the decimal logarithm, exactly: the logarithm itself is
    irrational in general, its floor is not.  The logarithm is [-Infinity]
    at zero and [NaN] on negative numbers, as [Math.log10] is.

    This is [Math.floor(Math.log10(a))] wherever [Math.log10] does not
    round across a whole number.  It does just below a power of ten: the
    double it returns at 999.9999999999999 is 3, so the exponent the code
    computes there is 3 and the exact one is 2.  What is proved for every
    exponent the code may compute is stated on [makeUnitWith]. *)
Definition floor_log10 (a : number) : number :=
  match a with
  | NaN | NegInfinity => NaN
  | PosInfinity => PosInfinity
  | Num q =>
      match q ?= 0 with
      | Gt => Num (inject_Z (ilog10 q))
      | Eq => NegInfinity
      | Lt => NaN
      end
  end.

(** Whether a number is integer valued. *)
Definition isInteger (q : Q) : bool := Qeq_bool q (inject_Z (Qfloor q)).

(** [Math.pow(10, a)] at an integer-valued, infinite or [NaN] exponent,
    which is all [makeUnit] passes to it. *)
Definition pow10 (a : number) : number :=
  match a with
  | NaN => NaN
  | NegInfinity => Num 0
  | PosInfinity => PosInfinity
  | Num q => Num (10 ^ Qfloor q)
  end.

(** Representation-independent equality of numbers: the same special value,
    or equal rationals. *)
Definition equiv (a b : number) : Prop :=
  match a, b with
  | NaN, NaN | NegInfinity, NegInfinity | PosInfinity, PosInfinity => True
  | Num p, Num q => p == q
  | _, _ => False
  end.

End JS.

Abbreviation number := JS.number.
Abbreviation Num := JS.Num.
Infix "=n=" := JS.equiv (at level 70, no associativity).

(* ===================================================================== *)
(** ** Constants ([./constants], not part of the sources at hand) *)
(* ===================================================================== *)

(** The numeric enum [Duration]: seconds per year, month, day, hour and
    minute.  Its values are not in the sources; the functions below take
    them as a parameter. *)
Record Durations : Type := {
  Year : Q;
  Month : Q;
  Day : Q;
  Hour : Q;
  Minutes : Q
}.

(** Modelled from the spec: the enum [UnitPrefix] of [./constants].  The
    code names [UnitPrefix.None], [UnitPrefix.Giga] and [UnitPrefix.Nano];
    the spec describes the table as holding an SI prefix for every multiple
    of 3 from the negative to the positive collapse bound, that is from
    10^-24 to 10^24. *)
Module UnitPrefix.
Inductive t : Type :=
| Yotta | Zetta | Exa | Peta | Tera | Giga | Mega | Kilo
| None
| Milli | Micro | Nano | Pico | Femto | Atto | Zepto | Yocto.

(** The SI symbol a prefix prints as ([u] stands for the micro sign). *)
Definition symbol (p : t) : string :=
  match p with
  | Yotta => "Y" | Zetta => "Z" | Exa => "E" | Peta => "P" | Tera => "T"
  | Giga => "G" | Mega => "M" | Kilo => "k"
  | None => EmptyString
  | Milli => "m" | Micro => "u" | Nano => "n" | Pico => "p"
  | Femto => "f" | Atto => "a" | Zepto => "z" | Yocto => "y"
  end.
End UnitPrefix.

(** Modelled from the spec: the table [UNIT_MAP] of [./constants], "a fixed
    table spanning every multiple of 3 from the negative collapse bound to
    the positive collapse bound".  A key that is absent looks up to
    [undefined], here [None]. *)
Definition UNIT_MAP (e : Z) : option UnitPrefix.t :=
  match e with
  | 24 => Some UnitPrefix.Yotta
  | 21 => Some UnitPrefix.Zetta
  | 18 => Some UnitPrefix.Exa
  | 15 => Some UnitPrefix.Peta
  | 12 => Some UnitPrefix.Tera
  | 9 => Some UnitPrefix.Giga
  | 6 => Some UnitPrefix.Mega
  | 3 => Some UnitPrefix.Kilo
  | 0 => Some UnitPrefix.None
  | -3 => Some UnitPrefix.Milli
  | -6 => Some UnitPrefix.Micro
  | -9 => Some UnitPrefix.Nano
  | -12 => Some UnitPrefix.Pico
  | -15 => Some UnitPrefix.Femto
  | -18 => Some UnitPrefix.Atto
  | -21 => Some UnitPrefix.Zepto
  | -24 => Some UnitPrefix.Yocto
  | _ => None
  end%Z.

(** [UNIT_MAP[k]] for a number [k]: only an integer-valued key can name an
    entry. *)
Definition lookupUnit (k : number) : option UnitPrefix.t :=
  match k with
  | Num q => if JS.isInteger q then UNIT_MAP (Qfloor q) else None
  | _ => None
  end.

(* ===================================================================== *)
(** ** The magnitude formatter [makeUnit] *)
(* ===================================================================== *)

(** The object [{ value, unit }]; [unit = None] is [undefined]. *)
Record Scaled : Type := {
  value : number;
  unit : option UnitPrefix.t
}.

Section MakeUnit.

(** [x => Math.floor(Math.log10(x))].  [Math.log10] is implementation
    approximated; the function is taken as it comes. *)
Variable floorLog10 : number -> number.

Definition makeUnitWith (si : number) : Scaled :=
  let exp := floorLog10 si in
  if JS.lt exp (Num 3) && JS.ge exp (Num 0) then
    {| value := si; unit := Some UnitPrefix.None |}
  else if JS.ge exp (Num 24) then
    {| value := JS.div si (Num 1000000000); unit := Some UnitPrefix.Giga |}
  else if JS.le exp (Num (-24)) then
    {| value := JS.div si (Num (1 # 1000000000));
       unit := Some UnitPrefix.Nano |}
  else
    let rem := JS.rem exp (Num 3) in
    let exp3 :=
      JS.add (JS.sub exp rem)
             (if JS.lt exp (Num 0) && JS.strictNe rem (Num 0)
              then Num (-3) else Num 0) in
    {| value := JS.mul si (JS.pow10 (JS.neg exp3)); unit := lookupUnit exp3 |}.

End MakeUnit.

(** [makeUnit] with the exact exponent: what the code returns wherever
    [Math.log10] does not round across a whole number. *)
Definition makeUnit (si : number) : Scaled := makeUnitWith JS.floor_log10 si.

(* ===================================================================== *)
(** ** Printing numbers *)
(* ===================================================================== *)

Local Open Scope string_scope.

(** The decimal digits of an integer. *)
Definition digits (z : Z) : string := NilZero.string_of_int (Z.to_int z).

(** A number interpolated in a template literal.  Only integer-valued
    numbers (results of [Math.floor]) and the special values are printed
    this way by the code modelled here; integers print as their digits. *)
Definition toString (a : number) : string :=
  match a with
  | JS.NaN => "NaN"
  | JS.PosInfinity => "Infinity"
  | JS.NegInfinity => "-Infinity"
  | Num q => digits (Qfloor q)
  end.

(** [a.toFixed(2)] of a number taken exactly: the nearest multiple of
    1/100, the larger one on a tie, printed with two decimals.

    This is what the built-in prints for a double of magnitude below 1e21.
    From 1e21 on the built-in prints in exponent notation, and a quotient
    reaches it rounded to a double, which can fall on the other side of a
    tie (1.005 is not a double).  What is proved for every duration is
    stated on [makeTimeWith], which takes the printing as it comes. *)
Definition toFixed2 (a : number) : string :=
  match a with
  | JS.NaN => "NaN"
  | JS.PosInfinity => "Infinity"
  | JS.NegInfinity => "-Infinity"
  | Num q =>
      let n := Qfloor (Qabs q * 100 + (1 # 2)) in
      let cents := (n mod 100)%Z in
      (if Qlt_le_dec q 0 then "-" else EmptyString)
        ++ digits (n / 100) ++ "."
        ++ (if (cents <? 10)%Z then "0" else EmptyString) ++ digits cents
  end.

(** A [unit] field interpolated in a template literal. *)
Definition unitToString (u : option UnitPrefix.t) : string :=
  match u with
  | Some p => UnitPrefix.symbol p
  | None => "undefined"
  end.

(* ===================================================================== *)
(** ** The duration humanizer [makeTime] *)
(* ===================================================================== *)

Section MakeTime.

(** [x => Math.floor(Math.log10(x))] and [x => x.toFixed(2)], taken as they
    come. *)
Variable floorLog10 : number -> number.
Variable toFixed : number -> string.

Variable Duration : Durations.

Definition makeTimeWith (secs : number) : string :=
  let years := JS.div secs (Num (Year Duration)) in
  let months := JS.div secs (Num (Month Duration)) in
  let days := JS.div secs (Num (Day Duration)) in
  let hours := JS.div secs (Num (Hour Duration)) in
  let minutes := JS.div secs (Num (Minutes Duration)) in
  if JS.ge years (Num 1) then
    toFixed years ++ " years"
  else if JS.ge months (Num 1) then
    toFixed months ++ " m "
      ++ toString (JS.floor (JS.rem months (Num 30))) ++ " d"
  else if JS.ge days (Num 1) then
    toString (JS.floor days) ++ " d "
      ++ toString (JS.floor (JS.rem hours (Num 24))) ++ " h"
  else if JS.ge hours (Num 1) then
    toString (JS.floor hours) ++ " h "
      ++ toString (JS.floor (JS.rem minutes (Num 60))) ++ " m"
  else if JS.ge minutes (Num 1) then
    toString (JS.floor minutes) ++ " m "
      ++ toString (JS.floor (JS.rem secs (Num 60))) ++ " s"
  else
    let r := makeUnitWith floorLog10 secs in
    toFixed (value r) ++ " " ++ unitToString (unit r) ++ "s".

End MakeTime.

(** [makeTime] with the exact exponent and the exact two-decimal
    rounding: what the code returns wherever [Math.log10] does not round
    across a whole number and the number printed is a double below
    1e21. *)
Definition makeTime (Duration : Durations) (secs : number) : string :=
  makeTimeWith JS.floor_log10 toFixed2 Duration secs.

(** Modelled from the spec: the values of the enum [Duration], with the
    30-day month the spec names and a 365-day year. *)
Definition calendar : Durations :=
  {| Year := 31536000; Month := 2592000; Day := 86400;
     Hour := 3600; Minutes := 60 |}.

(* ===================================================================== *)
(** ** Vectors and scene objects *)
(* ===================================================================== *)

(** The simulation library: positions and sampled trajectories of the
    bodies.  Coordinates of the simulated state are finite. *)
Module Meca3.

Record Vector3 : Type := { x : Q; y : Q; z : Q }.

(** A trajectory, read through [get(k)]: the sample at logical index [k],
    index 0 being the oldest one kept; [None] is [undefined]. *)
Abbreviation Trajectory := (list Vector3).

Definition get (t : Trajectory) (k : nat) : option Vector3 := t !! k.

(** A [Point]; the [Barycenter] is read through the same three fields. *)
Record Point : Type := {
  id : string;
  position : Vector3;
  trajectory : Trajectory
}.

End Meca3.

Abbreviation Point := Meca3.Point.
Abbreviation Barycenter := Meca3.Point.
Abbreviation Trajectory := Meca3.Trajectory.

(** The rendering library: mutable vectors, quaternions and objects. *)
Module THREE.

Record Vector3 : Type := { x : number; y : number; z : number }.

Definition zero : Vector3 := {| x := Num 0; y := Num 0; z := Num 0 |}.

(** [v.set(...p.xyz)]: the three coordinates of a simulation vector. *)
Definition set (p : Meca3.Vector3) : Vector3 :=
  {| x := Num (Meca3.x p); y := Num (Meca3.y p); z := Num (Meca3.z p) |}.

Definition sub (a b : Vector3) : Vector3 :=
  {| x := JS.sub (x a) (x b); y := JS.sub (y a) (y b);
     z := JS.sub (z a) (z b) |}.

Definition subVectors (a b : Vector3) : Vector3 := sub a b.

Definition multiplyScalar (a : Vector3) (s : number) : Vector3 :=
  {| x := JS.mul (x a) s; y := JS.mul (y a) s; z := JS.mul (z a) s |}.

Definition negate (a : Vector3) : Vector3 :=
  {| x := JS.neg (x a); y := JS.neg (y a); z := JS.neg (z a) |}.

Record Quaternion : Type := {
  qx : number; qy : number; qz : number; qw : number
}.

(** An [Object3D]: the fields the update functions can reach. *)
Record Object3D : Type := {
  position : Vector3;
  quaternion : Quaternion;
  scale : Vector3
}.

(** A [Mesh] of the overlay: the vertices of its geometry and its
    position. *)
Record Mesh : Type := {
  geometry : list Vector3;
  meshPosition : Vector3
}.

(** The camera: its vertical extent and zoom, finite numbers. *)
Record OrthographicCamera : Type := {
  top : Q;
  bottom : Q;
  zoom : Q
}.

(** A [Matrix4], read through [elements[i]] (column-major order). *)
Definition Matrix4 : Type := nat -> number.

(** [m.makeScale(sx, sy, sz)]: the diagonal holds [sx], [sy], [sz] and 1,
    every other element is 0. *)
Definition makeScale (sx sy sz : number) : Matrix4 :=
  fun i =>
    match i with
    | 0%nat => sx
    | 5%nat => sy
    | 10%nat => sz
    | 15%nat => Num 1
    | _ => Num 0
    end.

(** [v.applyMatrix4(m)], with its perspective divide. *)
Definition applyMatrix4 (v : Vector3) (e : Matrix4) : Vector3 :=
  let w :=
    JS.div (Num 1)
      (JS.add (JS.add (JS.add (JS.mul (e 3%nat) (x v)) (JS.mul (e 7%nat) (y v)))
                      (JS.mul (e 11%nat) (z v)))
              (e 15%nat)) in
  {| x := JS.mul
            (JS.add (JS.add (JS.add (JS.mul (e 0%nat) (x v))
                                    (JS.mul (e 4%nat) (y v)))
                            (JS.mul (e 8%nat) (z v)))
                    (e 12%nat)) w;
     y := JS.mul
            (JS.add (JS.add (JS.add (JS.mul (e 1%nat) (x v))
                                    (JS.mul (e 5%nat) (y v)))
                            (JS.mul (e 9%nat) (z v)))
                    (e 13%nat)) w;
     z := JS.mul
            (JS.add (JS.add (JS.add (JS.mul (e 2%nat) (x v))
                                    (JS.mul (e 6%nat) (y v)))
                            (JS.mul (e 10%nat) (z v)))
                    (e 14%nat)) w |}.

(** [geometry.scale(sx, sy, sz)] on the vertices: the scaling matrix
    applied to each of them. *)
Definition scaleGeometry (sx sy sz : number) (vertices : list Vector3)
    : list Vector3 :=
  List.map (fun v => applyMatrix4 v (makeScale sx sy sz)) vertices.

(** Coordinatewise [=n=]. *)
Definition equiv (a b : Vector3) : Prop :=
  x a =n= x b /\ y a =n= y b /\ z a =n= z b.

End THREE.

Abbreviation Object3D := THREE.Object3D.
Infix "=v=" := THREE.equiv (at level 70, no associativity).

(* ===================================================================== *)
(** ** Settings and frames ([./settings], not part of the sources) *)
(* ===================================================================== *)

(** The type [Frame]: [null], the string ["barycenter"], or the index of a
    body in the list of points. *)
Inductive Frame : Type :=
| Fixed
| Barycentric
| BodyRelative (index : nat).

Record Settings : Type := {
  frame : Frame;
  scale : Q;
  speed : Q;
  samples : Q
}.

(* ===================================================================== *)
(** ** Exceptions and loops *)
(* ===================================================================== *)

(** A value, or the [TypeError] raised by reading a property of
    [undefined]. *)
Inductive result (A : Type) : Type :=
| Ok (a : A)
| TypeError.
Arguments Ok {A} a.
Arguments TypeError {A}.

(** The way a statement that mutates a store [S] ends: normally, or by a
    [TypeError]; either way the store is as the statement left it. *)
Inductive Outcome (St : Type) : Type :=
| Returns (s : St)
| Throws (s : St).
Arguments Returns {St} s.
Arguments Throws {St} s.

(** [xs.forEach((x, i) => body)], started at index [i]; an exception ends
    the loop. *)
Fixpoint forEach {A St : Type} (body : A -> nat -> St -> Outcome St)
    (xs : list A) (i : nat) (s : St) : Outcome St :=
  match xs with
  | [] => Returns s
  | x :: rest =>
      match body x i s with
      | Returns s' => forEach body rest (S i) s'
      | Throws s' => Throws s'
      end
  end.

(* ===================================================================== *)
(** ** The reference frame resolver *)
(* ===================================================================== *)

Definition framePosition (frame : Frame) (points : list Point)
    (barycenter : Barycenter) : result THREE.Vector3 :=
  match frame with
  | Fixed => Ok THREE.zero
  | Barycentric => Ok (THREE.set (Meca3.position barycenter))
  | BodyRelative i =>
      match points !! i with
      | Some p => Ok (THREE.set (Meca3.position p))
      | None => TypeError
      end
  end.

(** The basis trajectory; [Ok None] is [null]. *)
Definition frameTrajectory (frame : Frame) (points : list Point)
    (barycenter : Barycenter) : result (option Trajectory) :=
  match frame with
  | Fixed => Ok None
  | Barycentric => Ok (Some (Meca3.trajectory barycenter))
  | BodyRelative i =>
      match points !! i with
      | Some p => Ok (Some (Meca3.trajectory p))
      | None => TypeError
      end
  end.

Definition frameLabel (frame : Frame) (points : list Point) : result string :=
  match frame with
  | Fixed => Ok "fixed"
  | Barycentric => Ok "barycenter"
  | BodyRelative i =>
      match points !! i with
      | Some p => Ok (Meca3.id p)
      | None => TypeError
      end
  end.

(* ===================================================================== *)
(** ** The body position projector *)
(* ===================================================================== *)

(** [target.set(...p.xyz).sub(frame).multiplyScalar(scale)]. *)
Definition project (p : Meca3.Vector3) (basis : THREE.Vector3) (s : Q)
    : THREE.Vector3 :=
  THREE.multiplyScalar (THREE.sub (THREE.set p) basis) (Num s).

Definition setPosition (o : Object3D) (v : THREE.Vector3) : Object3D :=
  {| THREE.position := v;
     THREE.quaternion := THREE.quaternion o;
     THREE.scale := THREE.scale o |}.

Definition updateLightObject (idx : nat) (points : list Point)
    (barycenter : Barycenter) (object : Object3D) (settings : Settings)
    : Outcome Object3D :=
  match framePosition (frame settings) points barycenter with
  | TypeError => Throws object
  | Ok basis =>
      match points !! idx with
      | None => Throws object
      | Some point =>
          Returns (setPosition object
                     (project (Meca3.position point) basis (scale settings)))
      end
  end.

Definition updateSpheresObject (points : list Point) (barycenter : Barycenter)
    (spheres : list Object3D) (settings : Settings)
    : Outcome (list Object3D) :=
  match framePosition (frame settings) points barycenter with
  | TypeError => Throws spheres
  | Ok basis =>
      forEach
        (fun (point : Point) (idx : nat) (spheres : list Object3D) =>
           match spheres !! idx with
           | None => Throws spheres
           | Some sphere =>
               Returns
                 (<[idx := setPosition sphere
                             (project (Meca3.position point) basis
                                (scale settings))]> spheres)
           end)
        (barycenter :: points) 0%nat spheres
  end.

(* ===================================================================== *)
(** ** The trajectory ribbon updater *)
(* ===================================================================== *)

Section Ribbon.

(** [Vector3.normalize] and [Quaternion.setFromUnitVectors] of the
    rendering library.  Both take square roots, which the rational model
    does not represent; they are parameters of the ribbon updater. *)
Variable normalize : THREE.Vector3 -> THREE.Vector3.
Variable setFromUnitVectors :
  THREE.Vector3 -> THREE.Vector3 -> THREE.Quaternion.

Definition upVector : THREE.Vector3 :=
  {| THREE.x := Num 0; THREE.y := Num 1; THREE.z := Num 0 |}.

(** The direction a marker faces, from the position of the marker before
    it. *)
Definition facing (here previous : THREE.Vector3) : THREE.Vector3 :=
  normalize (THREE.negate (THREE.subVectors here previous)).

(** The callback of [line.forEach], for the marker [vertex] at [vIdx]. *)
Definition updateVertex (frame : option Trajectory) (trajectory : Trajectory)
    (settings : Settings) (vertex : Object3D) (vIdx : nat)
    (line : list Object3D) : Outcome (list Object3D) :=
  let previousVertex :=
    match vIdx with
    | O => Ok THREE.zero
    | S j =>
        match line !! j with
        | Some previousLine => Ok (THREE.position previousLine)
        | None => TypeError
        end
    end in
  match previousVertex with
  | TypeError => Throws line
  | Ok previousVertex =>
      let position := Meca3.get trajectory vIdx in
      let pos :=
        match frame with
        | None => Ok THREE.zero
        | Some f =>
            match Meca3.get f vIdx with
            | Some v => Ok (THREE.set v)
            | None => TypeError
            end
        end in
      match pos, position with
      | Ok pos, Some position =>
          let here := project position pos (scale settings) in
          let direction := facing here previousVertex in
          Returns
            (<[vIdx := {| THREE.position := here;
                          THREE.quaternion :=
                            setFromUnitVectors upVector direction;
                          THREE.scale := THREE.scale vertex |}]> line)
      | _, _ => Throws line
      end
  end.

(** The callback of the outer loop, for the entity [point] at [idx]. *)
Definition updateLine (frame : option Trajectory) (settings : Settings)
    (point : Point) (idx : nat) (lines : list (list Object3D))
    : Outcome (list (list Object3D)) :=
  match lines !! idx with
  | None => Throws lines
  | Some line =>
      match forEach (updateVertex frame (Meca3.trajectory point) settings)
                    line 0%nat line with
      | Returns line' => Returns (<[idx := line']> lines)
      | Throws line' => Throws (<[idx := line']> lines)
      end
  end.

Definition updateLinesObject (points : list Point) (barycenter : Barycenter)
    (lines : list (list Object3D)) (settings : Settings)
    : Outcome (list (list Object3D)) :=
  match frameTrajectory (frame settings) points barycenter with
  | TypeError => Throws lines
  | Ok frame =>
      forEach (updateLine frame settings) (barycenter :: points) 0%nat lines
  end.

End Ribbon.

(* ===================================================================== *)
(** ** The camera-relative overlay scaler *)
(* ===================================================================== *)

(** [mesh.geometry.scale(t, t, t); mesh.position.multiplyScalar(t)]: the
    geometry goes through the scaling matrix, the position is multiplied
    coordinate by coordinate. *)
Definition scaleMesh (transfer : number) (mesh : THREE.Mesh) : THREE.Mesh :=
  {| THREE.geometry :=
       THREE.scaleGeometry transfer transfer transfer (THREE.geometry mesh);
     THREE.meshPosition :=
       THREE.multiplyScalar (THREE.meshPosition mesh) transfer |}.

Definition currentScale (camera : THREE.OrthographicCamera) : number :=
  JS.div (JS.div (JS.sub (Num (THREE.top camera)) (Num (THREE.bottom camera)))
                 (Num (THREE.zoom camera)))
         (Num 800).

(** The meshes as the call leaves them, and the value it returns. *)
Definition updateAxesMesh (camera : THREE.OrthographicCamera)
    (frame : list THREE.Mesh) (scaleF : number)
    : list THREE.Mesh * number :=
  let scale := currentScale camera in
  let transfer := JS.div scale scaleF in
  (List.map (scaleMesh transfer) frame, scale).

(* ===================================================================== *)
(** ** Advancing the simulation *)
(* ===================================================================== *)

Record Timer : Type := { dt : number }.

(** A [Solver]: its timer, and whatever else it holds. *)
Record Solver (X : Type) : Type := { timer : Timer; inner : X }.
Arguments timer {X} s.
Arguments inner {X} s.

Definition setDt {X : Type} (solver : Solver X) (d : number) : Solver X :=
  {| timer := {| dt := d |}; inner := inner solver |}.

(** What [updateSimulation] can mutate. *)
Record World (X : Type) : Type := {
  worldPoints : list Point;
  worldBarycenter : Barycenter;
  worldSolver : Solver X
}.
Arguments worldPoints {X} w.
Arguments worldBarycenter {X} w.
Arguments worldSolver {X} w.

Section Simulation.

(** The integrator and the two [update] methods belong to the simulation
    library; they are parameters here.  [advance solver duration] gives the
    solver after the call and the array [states] it returns, reduced to the
    [state] field of each element. *)
Variables X State : Type.
Variable advance : Solver X -> number -> Solver X * list State.
Variable pointUpdate : Point -> State -> Point.
Variable barycenterUpdate : Barycenter -> list Point -> Barycenter.

Definition updateSimulation (w : World X) (settings : Settings)
    : Outcome (World X) :=
  let solver :=
    setDt (worldSolver w)
          (JS.div (Num (speed settings)) (Num (samples settings))) in
  let (solver', states) := advance solver (Num (speed settings)) in
  match
    forEach
      (fun (point : Point) (idx : nat) (points : list Point) =>
         match states !! idx with
         | None => Throws points
         | Some st => Returns (<[idx := pointUpdate point st]> points)
         end)
      (worldPoints w) 0%nat (worldPoints w)
  with
  | Throws points' =>
      Throws {| worldPoints := points';
                worldBarycenter := worldBarycenter w;
                worldSolver := solver' |}
  | Returns points' =>
      Returns {| worldPoints := points';
                 worldBarycenter :=
                   barycenterUpdate (worldBarycenter w) points';
                 worldSolver := solver' |}
  end.

End Simulation.

(* ===================================================================== *)
(** ** Vocabulary of the specification *)
(* ===================================================================== *)

(** A prefix is the largest (smallest) supported one when it sits in
    [UNIT_MAP] at the greatest (least) exponent that has an entry. *)
Definition largestSupported (p : UnitPrefix.t) : Prop :=
  exists e : Z,
    UNIT_MAP e = Some p
    /\ forall (e' : Z) (p' : UnitPrefix.t), UNIT_MAP e' = Some p' -> (e' <= e)%Z.

Definition smallestSupported (p : UnitPrefix.t) : Prop :=
  exists e : Z,
    UNIT_MAP e = Some p
    /\ forall (e' : Z) (p' : UnitPrefix.t), UNIT_MAP e' = Some p' -> (e <= e')%Z.

(** [makeUnit] after the exponent has been computed. *)
Definition makeUnitAt (si : number) (e : Z) : Scaled :=
  let exp := Num (inject_Z e) in
  if JS.lt exp (Num 3) && JS.ge exp (Num 0) then
    {| value := si; unit := Some UnitPrefix.None |}
  else if JS.ge exp (Num 24) then
    {| value := JS.div si (Num 1000000000); unit := Some UnitPrefix.Giga |}
  else if JS.le exp (Num (-24)) then
    {| value := JS.div si (Num (1 # 1000000000));
       unit := Some UnitPrefix.Nano |}
  else
    let rem := JS.rem exp (Num 3) in
    let exp3 :=
      JS.add (JS.sub exp rem)
             (if JS.lt exp (Num 0) && JS.strictNe rem (Num 0)
              then Num (-3) else Num 0) in
    {| value := JS.mul si (JS.pow10 (JS.neg exp3)); unit := lookupUnit exp3 |}.

(** The number of spaces of a string.  A two-part duration, a value and a
    unit followed by a remainder and its unit, has three. *)
Fixpoint spaces (s : string) : nat :=
  match s with
  | EmptyString => 0%nat
  | String c rest => ((if Ascii.eqb c " " then 1 else 0) + spaces rest)%nat
  end.

Definition twoPart (s : string) : Prop := spaces s = 3%nat.

(** What is left of [s] seconds after the whole multiples of [coarse],
    counted in whole multiples of [fine]. *)
Definition remainderIn (s coarse fine : Q) : Z :=
  Qfloor ((s - inject_Z (Qfloor (s / coarse)) * coarse) / fine).

(** The [Duration] constants form a calendar: 60-second minutes, 60-minute
    hours, 24-hour days, and months and years in ascending order above
    them. *)
Definition isCalendar (D : Durations) : Prop :=
  Minutes D == 60 /\ Hour D == 60 * Minutes D /\ Day D == 24 * Hour D
  /\ Day D < Month D /\ Month D < Year D.

(** The basis subtracted from sample [k]: the zero vector in the fixed
    frame, the frame's own sample [k] otherwise. *)
Definition basisAt (frame : option Trajectory) (k : nat)
    : option THREE.Vector3 :=
  match frame with
  | None => Some THREE.zero
  | Some f => THREE.set <$> Meca3.get f k
  end.

(** The position of the marker before marker [k] on a line, the world
    origin for the first marker. *)
Definition previousPosition (line : list Object3D) (k : nat) : THREE.Vector3 :=
  match k with
  | O => THREE.zero
  | S j => from_option THREE.position THREE.zero (line !! j)
  end.

(** One line of markers per entity, one marker per sample of the entity's
    trajectory, and a frame trajectory that has a sample wherever an
    entity has one (they are sampled in lockstep). *)
Definition ribbonReady (frame : option Trajectory) (entities : list Point)
    (lines : list (list Object3D)) : Prop :=
  length lines = length entities
  /\ (forall (e : nat) (entity : Point) (line : list Object3D),
        entities !! e = Some entity -> lines !! e = Some line ->
        length line = length (Meca3.trajectory entity))
  /\ (forall f : Trajectory,
        frame = Some f ->
        forall (e : nat) (entity : Point),
          entities !! e = Some entity ->
          (length (Meca3.trajectory entity) <= length f)%nat).

(** The marker the ribbon updater leaves at index [k] of a line that ends
    as [line']: the projected sample, the rotation of the up axis onto the
    facing direction, and the marker's own scale. *)
Definition markerAt (normalize : THREE.Vector3 -> THREE.Vector3)
    (setFromUnitVectors : THREE.Vector3 -> THREE.Vector3 -> THREE.Quaternion)
    (settings : Settings) (line' : list Object3D) (k : nat)
    (vertex : Object3D) (sample : Meca3.Vector3) (basis : THREE.Vector3)
    : Object3D :=
  {| THREE.position := project sample basis (scale settings);
     THREE.quaternion :=
       setFromUnitVectors upVector
         (facing normalize (project sample basis (scale settings))
                 (previousPosition line' k));
     THREE.scale := THREE.scale vertex |}.

(** The factor [transfer] of a second call of [updateAxesMesh] with the
    same camera, fed the value the first call returned. *)
Definition secondTransfer (camera : THREE.OrthographicCamera)
    (frame : list THREE.Mesh) (scaleF : number) : number :=
  JS.div (currentScale camera) (snd (updateAxesMesh camera frame scaleF)).

(** A vector whose three coordinates are finite numbers, and a mesh whose
    vertices are such vectors. *)
Definition finiteVector (v : THREE.Vector3) : Prop :=
  exists a b c : Q,
    v = {| THREE.x := Num a; THREE.y := Num b; THREE.z := Num c |}.

Definition finiteGeometry (mesh : THREE.Mesh) : Prop :=
  Forall finiteVector (THREE.geometry mesh).

(** Meshes with the same vertices and position, up to [=v=]. *)
Definition meshEquiv (m m' : THREE.Mesh) : Prop :=
  Forall2 THREE.equiv (THREE.geometry m) (THREE.geometry m')
  /\ THREE.meshPosition m =v= THREE.meshPosition m'.

(** *** A small scene *)

Definition vec (a b c : Q) : Meca3.Vector3 :=
  {| Meca3.x := a; Meca3.y := b; Meca3.z := c |}.

Definition demoBarycenter : Barycenter :=
  {| Meca3.id := "barycenter"; Meca3.position := vec 1 0 0;
     Meca3.trajectory := [vec 0 0 0; vec 1 0 0] |}.

Definition demoSun : Point :=
  {| Meca3.id := "Sun"; Meca3.position := vec 0 0 0;
     Meca3.trajectory := [vec 0 0 0; vec 0 0 0] |}.

Definition demoEarth : Point :=
  {| Meca3.id := "Earth"; Meca3.position := vec 3 0 0;
     Meca3.trajectory := [vec 1 2 0; vec 3 0 0] |}.

Definition demoPoints : list Point := [demoSun; demoEarth].

Definition identityQuaternion : THREE.Quaternion :=
  {| THREE.qx := Num 0; THREE.qy := Num 0; THREE.qz := Num 0;
     THREE.qw := Num 1 |}.

Definition demoMarker : Object3D :=
  {| THREE.position :=
       {| THREE.x := Num 7; THREE.y := Num 7; THREE.z := Num 7 |};
     THREE.quaternion := identityQuaternion;
     THREE.scale :=
       {| THREE.x := Num 1; THREE.y := Num 1; THREE.z := Num 1 |} |}.

Definition demoLines : list (list Object3D) :=
  [[demoMarker; demoMarker]; [demoMarker; demoMarker];
   [demoMarker; demoMarker]].

Definition demoSettings (f : Frame) : Settings :=
  {| frame := f; scale := 2; speed := 43800; samples := 8192 |}.

Definition demoCamera : THREE.OrthographicCamera :=
  {| THREE.top := 400; THREE.bottom := -400; THREE.zoom := 2 |}.

(** An overlay of two meshes: an axis with two vertices, away from the
    origin, and a single point at the origin. *)
Definition demoAxes : list THREE.Mesh :=
  [ {| THREE.geometry :=
         [ {| THREE.x := Num 0; THREE.y := Num 0; THREE.z := Num 0 |};
           {| THREE.x := Num 100; THREE.y := Num (-3); THREE.z := Num 0 |} ];
       THREE.meshPosition :=
         {| THREE.x := Num 5; THREE.y := Num 0; THREE.z := Num (-2) |} |};
    {| THREE.geometry :=
         [ {| THREE.x := Num 1; THREE.y := Num 1; THREE.z := Num 1 |} ];
       THREE.meshPosition := THREE.zero |} ].

(** [n] calls of [updateAxesMesh] in a row with the same camera, each fed
    the meshes and the scale the call before it left, as successive frames
    do with [zoomScale]. *)
Fixpoint feedAxes (camera : THREE.OrthographicCamera) (n : nat)
    (frame : list THREE.Mesh) (scaleF : number) : list THREE.Mesh * number :=
  match n with
  | O => (frame, scaleF)
  | S n' =>
      let (frame', scale) := updateAxesMesh camera frame scaleF in
      feedAxes camera n' frame' scale
  end.

(* ===================================================================== *)
(** ** Creating the meshes ([src/init.ts]) *)
(* ===================================================================== *)

Module Init.

(** The fields of a [Body] the mesh constructors read. *)
Record Body : Type := {
  radius : Q;
  color : string;
  trajectoryLength : Q
}.

(** The geometry a constructor call describes. *)
Inductive Geometry : Type :=
| BoxGeometry (width height : Q)
| SphereGeometry (radius : Q) (widthSegments heightSegments : Z)
| LineGeometry (vertices : list THREE.Vector3).

(** A [Mesh] or a [Line]: its geometry and the colour of its material. *)
Record Mesh : Type := {
  geometry : Geometry;
  material : string
}.

(** A value, or the [RangeError] of [new Array(n)] for an [n] that is not
    an array length. *)
Inductive created (A : Type) : Type :=
| Created (a : A)
| RangeError.
Arguments Created {A} a.
Arguments RangeError {A}.

(** An array length: an integer from 0 to 2^32 - 1. *)
Definition isArrayLength (n : Q) : bool :=
  JS.isInteger n && Qle_bool 0 n && Qle_bool n 4294967295.

Definition initBarycenterMesh (point : Body) : Mesh :=
  {| geometry := BoxGeometry (radius point) (radius point);
     material := color point |}.

Definition initSphereMesh (point : Body) : Mesh :=
  {| geometry := SphereGeometry (radius point) 16 32;
     material := color point |}.

Definition initLineMesh (point : Body) : created Mesh :=
  if isArrayLength (trajectoryLength point) then
    Created
      {| geometry :=
           LineGeometry
             (List.map (fun _ : Datatypes.unit => THREE.zero)
                (List.repeat tt (Z.to_nat (Qfloor (trajectoryLength point)))));
         material := color point |}
  else RangeError.

(** [points.map(f)] for a callback that may throw. *)
Fixpoint mapCreated {A B : Type} (f : A -> created B) (xs : list A)
    : created (list B) :=
  match xs with
  | [] => Created []
  | x :: rest =>
      match f x with
      | RangeError => RangeError
      | Created y =>
          match mapCreated f rest with
          | RangeError => RangeError
          | Created ys => Created (y :: ys)
          end
      end
  end.

Record BodiesMesh : Type := {
  spheres : list Mesh;
  lines : list Mesh
}.

Definition initBodiesMesh (points : list Body) : created BodiesMesh :=
  let spheres := List.map initSphereMesh points in
  match mapCreated initLineMesh points with
  | RangeError => RangeError
  | Created lines => Created {| spheres := spheres; lines := lines |}
  end.

End Init.

(* ===================================================================== *)
(** ** The gravitational field ([gravitationalAcceleration]) *)
(* ===================================================================== *)

Module Gravity.

(** The fields of a [Point] the field reads. *)
Record Body : Type := {
  id : string;
  mass : Q;
  position : Meca3.Vector3
}.

(** A vector of the simulation library after arithmetic: its coordinates
    are JavaScript numbers. *)
Record Vector3 : Type := { x : number; y : number; z : number }.

Definition zeros : Vector3 := {| x := Num 0; y := Num 0; z := Num 0 |}.

Definition GRAVITATIONAL_CONSTANT : Q := - (667408 # 10000000000000000).

Section Field.

(** [a.dist(b)], the Euclidean distance of the simulation library; it
    takes a square root and is a parameter. *)
Variable dist : Meca3.Vector3 -> Meca3.Vector3 -> number.

(** The value of the vector the function returns. *)
Definition gravitationalAcceleration (p point : Body) : Vector3 :=
  if String.eqb (id point) (id p) then zeros
  else
    let d := dist (position point) (position p) in
    let dist3 := JS.mul (JS.mul d d) d in
    let k := JS.div (Num (GRAVITATIONAL_CONSTANT * mass point)) dist3 in
    {| x := JS.mul (JS.sub (Num (Meca3.x (position p)))
                           (Num (Meca3.x (position point)))) k;
       y := JS.mul (JS.sub (Num (Meca3.y (position p)))
                           (Num (Meca3.y (position point)))) k;
       z := JS.mul (JS.sub (Num (Meca3.z (position p)))
                           (Num (Meca3.z (position point)))) k |}.

End Field.

End Gravity.

(* ===================================================================== *)
(** ** The telemetry formatter ([updateSettingsDom]) *)
(* ===================================================================== *)

(** The [innerText] of the seven elements of a [SettingsDom]. *)
Record SettingsDom : Type := {
  domFrame : string;
  domSamples : string;
  domDt : string;
  domDelta : string;
  domMomentum : string;
  domElapsed : string;
  domScale : string
}.

Section Telemetry.

(** [x => Math.floor(Math.log10(x))], [a.toFixed(d)] and
    [a.toPrecision(p)], built-ins taken as they come, and
    [barycenter.momentum.mag] of the simulation library. *)
Variable floorLog10 : number -> number.
Variable toFixed : number -> Z -> string.
Variable Duration : Durations.
Variable toPrecision : number -> Z -> string.
Variable momentumMag : Barycenter -> number.

(** [timer.t1] is passed beside the timer, whose record holds [dt]
    only. *)
Definition updateSettingsDom (dom : SettingsDom) (settings : Settings)
    (points : list Point) (barycenter : Barycenter) (timer : Timer)
    (t1 : number) : Outcome SettingsDom :=
  match frameLabel (frame settings) points with
  | TypeError => Throws dom
  | Ok label =>
      let twoDecimals := fun x => toFixed x 2%Z in
      let r :=
        makeUnitWith floorLog10 (JS.div (Num 200) (Num (scale settings))) in
      Returns
        {| domFrame := label;
           domSamples := toFixed (Num (samples settings)) 0%Z;
           domDt := makeTimeWith floorLog10 twoDecimals Duration (dt timer);
           domDelta :=
             makeTimeWith floorLog10 twoDecimals Duration
               (Num (speed settings));
           domMomentum := toPrecision (momentumMag barycenter) 5%Z;
           domElapsed := makeTimeWith floorLog10 twoDecimals Duration t1;
           domScale :=
             toPrecision (value r) 4%Z ++ " " ++ unitToString (unit r)
               ++ "m" |}
  end.

End Telemetry.

(* ===================================================================== *)
(** ** One animation frame ([animate]) *)
(* ===================================================================== *)

(** The frame function of the entry point, in the version that calls the
    functions of [src/common/update.ts]:

      updateSimulation(points, barycenter, solver, settings);
      updateLightObject(0, points, barycenter, light, settings);
      updateLinesObject(points, barycenter, lines, settings);
      updateSpheresObject(points, barycenter, spheres, settings, camera);
      updateSettingsDom(dom, settings, points, barycenter, solver.timer);
      zoomScale = updateAxesMesh(camera, axes, zoomScale);
      controls.update();
      ... render ...
      requestAnimationFrame(animate);

    What a frame can mutate: the simulation, the scene objects, the
    telemetry, the overlay with its scale, the camera and the settings. *)
Record Scene (X : Type) : Type := {
  sceneWorld : World X;
  sceneLight : Object3D;
  sceneLines : list (list Object3D);
  sceneSpheres : list Object3D;
  sceneDom : SettingsDom;
  sceneAxes : list THREE.Mesh;
  zoomScale : number;
  sceneCamera : THREE.OrthographicCamera;
  sceneSettings : Settings
}.
Arguments sceneWorld {X} s.
Arguments sceneLight {X} s.
Arguments sceneLines {X} s.
Arguments sceneSpheres {X} s.
Arguments sceneDom {X} s.
Arguments sceneAxes {X} s.
Arguments zoomScale {X} s.
Arguments sceneCamera {X} s.
Arguments sceneSettings {X} s.

(** A statement on a part of the store, followed by the rest of the
    function; an exception ends the function with the part as the
    statement left it. *)
Definition andThen {A St : Type} (o : Outcome A) (put : A -> St)
    (rest : A -> Outcome St) : Outcome St :=
  match o with
  | Returns a => rest a
  | Throws a => Throws (put a)
  end.

Section Animate.

Variables X State : Type.
Variable advance : Solver X -> number -> Solver X * list State.
Variable pointUpdate : Point -> State -> Point.
Variable barycenterUpdate : Barycenter -> list Point -> Barycenter.
Variable normalize : THREE.Vector3 -> THREE.Vector3.
Variable setFromUnitVectors :
  THREE.Vector3 -> THREE.Vector3 -> THREE.Quaternion.
Variable floorLog10 : number -> number.
Variable toFixed : number -> Z -> string.
Variable Duration : Durations.
Variable toPrecision : number -> Z -> string.
Variable momentumMag : Barycenter -> number.

(** [solver.timer.t1], and [controls.update()], which holds the bodies,
    the settings and the camera and may change any part of the scene.  The
    statistics panel and the renderer read the scene and write nothing of
    it. *)
Variable t1 : Solver X -> number.
Variable controlsUpdate : Scene X -> Scene X.

Definition animate (s : Scene X) : Outcome (Scene X) :=
  let settings := sceneSettings s in
  let camera := sceneCamera s in
  let put w l ls sp d ax z c st :=
    {| sceneWorld := w; sceneLight := l; sceneLines := ls;
       sceneSpheres := sp; sceneDom := d; sceneAxes := ax;
       zoomScale := z; sceneCamera := c; sceneSettings := st |} in
  andThen
    (updateSimulation X State advance pointUpdate barycenterUpdate
       (sceneWorld s) settings)
    (fun w => put w (sceneLight s) (sceneLines s) (sceneSpheres s)
                (sceneDom s) (sceneAxes s) (zoomScale s) camera settings)
    (fun w =>
  let points := worldPoints w in
  let barycenter := worldBarycenter w in
  andThen
    (updateLightObject 0 points barycenter (sceneLight s) settings)
    (fun l => put w l (sceneLines s) (sceneSpheres s) (sceneDom s)
                (sceneAxes s) (zoomScale s) camera settings)
    (fun l =>
  andThen
    (updateLinesObject normalize setFromUnitVectors points barycenter
       (sceneLines s) settings)
    (fun ls => put w l ls (sceneSpheres s) (sceneDom s) (sceneAxes s)
                 (zoomScale s) camera settings)
    (fun ls =>
  andThen
    (updateSpheresObject points barycenter (sceneSpheres s) settings)
    (fun sp => put w l ls sp (sceneDom s) (sceneAxes s) (zoomScale s)
                 camera settings)
    (fun sp =>
  andThen
    (updateSettingsDom floorLog10 toFixed Duration toPrecision momentumMag
       (sceneDom s) settings points barycenter (timer (worldSolver w))
       (t1 (worldSolver w)))
    (fun d => put w l ls sp d (sceneAxes s) (zoomScale s) camera settings)
    (fun d =>
  let (axes, scale) := updateAxesMesh camera (sceneAxes s) (zoomScale s) in
  Returns (controlsUpdate (put w l ls sp d axes scale camera settings))))))).

(** [n] frames: a frame that returns has requested the next one, a frame
    that throws has not. *)
Fixpoint frames (n : nat) (s : Scene X) : Outcome (Scene X) :=
  match n with
  | O => Returns s
  | S n' =>
      match animate s with
      | Returns s' => frames n' s'
      | Throws s' => Throws s'
      end
  end.

End Animate.

(** *** The small scene, continued *)

Definition demoSpheres : list Object3D :=
  [demoMarker; demoMarker; demoMarker].

Definition demoDom : SettingsDom :=
  {| domFrame := "-"; domSamples := "-"; domDt := "-"; domDelta := "-";
     domMomentum := "-"; domElapsed := "-"; domScale := "-" |}.

(** A solver that returns the given states and is otherwise left alone. *)
Definition demoAdvance (states : list Meca3.Vector3)
    (solver : Solver Datatypes.unit) (duration : number)
    : Solver Datatypes.unit * list Meca3.Vector3 :=
  (solver, states).

Definition demoPointUpdate (point : Point) (st : Meca3.Vector3) : Point :=
  {| Meca3.id := Meca3.id point; Meca3.position := st;
     Meca3.trajectory := Meca3.trajectory point |}.

Definition demoBarycenterUpdate (barycenter : Barycenter)
    (points : list Point) : Barycenter :=
  {| Meca3.id := Meca3.id barycenter;
     Meca3.position :=
       from_option Meca3.position (Meca3.position barycenter)
                   (points !! 0%nat);
     Meca3.trajectory := Meca3.trajectory barycenter |}.

Definition demoWorld : World Datatypes.unit :=
  {| worldPoints := demoPoints; worldBarycenter := demoBarycenter;
     worldSolver := {| timer := {| dt := Num 1 |}; inner := tt |} |}.

Definition demoScene (f : Frame) : Scene Datatypes.unit :=
  {| sceneWorld := demoWorld; sceneLight := demoMarker;
     sceneLines := demoLines; sceneSpheres := demoSpheres;
     sceneDom := demoDom; sceneAxes := []; zoomScale := Num 1;
     sceneCamera := demoCamera; sceneSettings := demoSettings f |}.

Definition demoBody (name : string) (a : Q) : Gravity.Body :=
  {| Gravity.id := name; Gravity.mass := 3; Gravity.position := vec a 0 0 |}.

(* ===================================================================== *)
(** * Properties *)
(* ===================================================================== *)

(** ** The reference frame resolver *)

(** C5: for any bodies and barycenter, the resolver gives the zero vector
    and [null] for the fixed frame, the barycenter's position and
    trajectory for the barycentric frame, and body [i]'s position and
    trajectory for the frame relative to a body [i] of the list; the label
    is ["fixed"], ["barycenter"] or the id of body [i]. *)
Theorem frame_resolver (points : list Point) (barycenter : Barycenter) :
  (framePosition Fixed points barycenter = Ok THREE.zero
   /\ frameTrajectory Fixed points barycenter = Ok None
   /\ frameLabel Fixed points = Ok "fixed")
  /\ (framePosition Barycentric points barycenter
        = Ok (THREE.set (Meca3.position barycenter))
      /\ frameTrajectory Barycentric points barycenter
           = Ok (Some (Meca3.trajectory barycenter))
      /\ frameLabel Barycentric points = Ok "barycenter")
  /\ (forall (i : nat) (body : Point),
        points !! i = Some body ->
        framePosition (BodyRelative i) points barycenter
          = Ok (THREE.set (Meca3.position body))
        /\ frameTrajectory (BodyRelative i) points barycenter
             = Ok (Some (Meca3.trajectory body))
        /\ frameLabel (BodyRelative i) points = Ok (Meca3.id body)).
Proof.
  repeat split; simpl; try reflexivity; rewrite H; reflexivity.
Qed.

(** ** The body position projector *)

Lemma project_self (p : Meca3.Vector3) (s : Q) :
  project p (THREE.set p) s =v= THREE.zero.
Proof.
  unfold project, THREE.equiv; simpl; repeat split; ring.
Qed.

(** A loop whose callback rewrites the store entry at its own index, and
    throws when there is none, rewrites one entry per element when the
    store is long enough. *)
Lemma forEach_entrywise {A B : Type} (f : A -> B -> B) (xs : list A) :
  forall (i : nat) (s : list B),
    (i + length xs <= length s)%nat ->
    exists s' : list B,
      forEach (fun (x : A) (idx : nat) (s : list B) =>
                 match s !! idx with
                 | None => Throws s
                 | Some b => Returns (<[idx := f x b]> s)
                 end) xs i s = Returns s'
      /\ length s' = length s
      /\ (forall (k : nat) (x : A),
            xs !! k = Some x -> s' !! (i + k)%nat = f x <$> s !! (i + k)%nat)
      /\ (forall j : nat,
            (j < i \/ i + length xs <= j)%nat -> s' !! j = s !! j).
Proof.
  induction xs as [|x xs IH]; intros i s Hlen; simpl in *.
  - exists s. split; [reflexivity|]. split; [reflexivity|].
    split; [intros k x Hk; discriminate | reflexivity].
  - destruct (lookup_lt_is_Some_2 s i) as [b Hb]; [lia|].
    rewrite Hb.
    destruct (IH (S i) (<[i := f x b]> s)) as (s' & Hrun & Hl & Hin & Hout).
    { rewrite length_insert. lia. }
    exists s'. rewrite Hrun. split; [reflexivity|].
    rewrite length_insert in Hl. split; [exact Hl|]. split.
    + intros [|k] y Hk; simpl in Hk.
      * inversion Hk; subst y. rewrite Nat.add_0_r.
        rewrite Hout by lia. rewrite list_lookup_insert_eq by lia.
        rewrite Hb. reflexivity.
      * replace (i + S k)%nat with (S i + k)%nat by lia.
        rewrite (Hin k y Hk). rewrite list_lookup_insert_ne by lia.
        reflexivity.
    + intros j Hj. rewrite Hout by lia.
      apply list_lookup_insert_ne. lia.
Qed.

(** C6: the projector of one body writes
    [(body.position - basisPosition) * settings.scale] into the position
    of the target object and leaves its other fields as they were; the
    projector of all spheres does the same for the barycenter (sphere 0)
    and every body (sphere [i + 1] for body [i]) and touches no other
    sphere.  When the frame is relative to body [i], the position written
    for body [i] is the zero vector. *)
Theorem body_projector (points : list Point) (barycenter : Barycenter)
    (settings : Settings) (basis : THREE.Vector3)
    (Hbasis : framePosition (frame settings) points barycenter = Ok basis) :
  (forall (idx : nat) (body : Point) (object : Object3D),
      points !! idx = Some body ->
      exists object' : Object3D,
        updateLightObject idx points barycenter object settings
          = Returns object'
        /\ THREE.position object'
             = THREE.multiplyScalar
                 (THREE.sub (THREE.set (Meca3.position body)) basis)
                 (Num (scale settings))
        /\ THREE.quaternion object' = THREE.quaternion object
        /\ THREE.scale object' = THREE.scale object
        /\ (frame settings = BodyRelative idx ->
            THREE.position object' =v= THREE.zero))
  /\ (forall spheres : list Object3D,
        (S (length points) <= length spheres)%nat ->
        exists spheres' : list Object3D,
          updateSpheresObject points barycenter spheres settings
            = Returns spheres'
          /\ length spheres' = length spheres
          /\ (forall (k : nat) (entity : Point) (sphere : Object3D),
                (barycenter :: points) !! k = Some entity ->
                spheres !! k = Some sphere ->
                exists sphere' : Object3D,
                  spheres' !! k = Some sphere'
                  /\ THREE.position sphere'
                       = THREE.multiplyScalar
                           (THREE.sub (THREE.set (Meca3.position entity))
                                      basis)
                           (Num (scale settings))
                  /\ THREE.quaternion sphere' = THREE.quaternion sphere
                  /\ THREE.scale sphere' = THREE.scale sphere
                  /\ (frame settings = BodyRelative (pred k) ->
                      (0 < k)%nat ->
                      THREE.position sphere' =v= THREE.zero))
          /\ (forall j : nat,
                (S (length points) <= j)%nat ->
                spheres' !! j = spheres !! j)).
Proof.
  split.
  - intros idx body object Hbody.
    unfold updateLightObject. rewrite Hbasis, Hbody.
    eexists. split; [reflexivity|]. simpl.
    do 3 (split; [reflexivity|]).
    intros Hframe. rewrite Hframe in Hbasis. simpl in Hbasis.
    rewrite Hbody in Hbasis. inversion Hbasis; subst basis.
    apply project_self.
  - intros spheres Hlen.
    unfold updateSpheresObject. rewrite Hbasis.
    destruct (forEach_entrywise
                (fun (point : Point) (sphere : Object3D) =>
                   setPosition sphere
                     (project (Meca3.position point) basis (scale settings)))
                (barycenter :: points) 0%nat spheres)
      as (spheres' & Hrun & Hl & Hin & Hout).
    { simpl. lia. }
    exists spheres'. split; [exact Hrun|]. split; [exact Hl|]. split.
    + intros k entity sphere Hent Hsph.
      specialize (Hin k entity Hent). simpl in Hin.
      rewrite Hsph in Hin. simpl in Hin.
      eexists. split; [exact Hin|]. simpl.
      do 3 (split; [reflexivity|]).
      intros Hframe Hk. destruct k as [|k]; [lia|]. simpl in *.
      rewrite Hframe in Hbasis. simpl in Hbasis.
      rewrite Hent in Hbasis. inversion Hbasis; subst basis.
      apply project_self.
    + intros j Hj. apply Hout. right. simpl. lia.
Qed.

(** ** The magnitude formatter *)

Lemma le_inject_Z (a b : Z) :
  JS.le (Num (inject_Z a)) (Num (inject_Z b)) = (a <=? b)%Z.
Proof.
  unfold JS.le, Qle_bool; simpl. rewrite !Z.mul_1_r. reflexivity.
Qed.

Lemma lt_inject_Z (a b : Z) :
  JS.lt (Num (inject_Z a)) (Num (inject_Z b)) = (a <? b)%Z.
Proof.
  unfold JS.lt. rewrite le_inject_Z. rewrite Z.ltb_antisym. reflexivity.
Qed.

(** On a positive magnitude the exponent is the integer [JS.ilog10]. *)
Lemma floor_log10_pos (q : Q) :
  0 < q -> JS.floor_log10 (Num q) = Num (inject_Z (JS.ilog10 q)).
Proof.
  intros Hq. unfold JS.floor_log10.
  apply Qgt_alt in Hq. rewrite Hq. reflexivity.
Qed.

Lemma makeUnit_pos (q : Q) :
  0 < q -> makeUnit (Num q) = makeUnitAt (Num q) (JS.ilog10 q).
Proof.
  intros Hq. unfold makeUnit, makeUnitWith, makeUnitAt.
  rewrite (floor_log10_pos q Hq). reflexivity.
Qed.

(** *** The integer logarithm *)

Section IntegerLogarithm.

Local Open Scope Z_scope.

Lemma log10_up_spec (fuel : nat) :
  forall n d k : Z,
    0 < d -> 0 <= k -> d * 10 ^ k <= n -> n < d * 10 ^ (k + Z.of_nat fuel) ->
    let r := JS.log10_up fuel n d k in
    0 <= r /\ d * 10 ^ r <= n < d * 10 ^ (r + 1).
Proof.
  induction fuel as [|fuel IH]; intros n d k Hd Hk Hlo Hhi; simpl.
  - rewrite Z.add_0_r in Hhi. lia.
  - destruct (Z.ltb_spec n (d * 10 ^ (k + 1))) as [Hlt | Hge].
    + split; [exact Hk|]. split; assumption.
    + apply IH; try lia.
      replace (k + 1 + Z.of_nat fuel) with (k + Z.of_nat (S fuel)) by lia.
      exact Hhi.
Qed.

Lemma log10_down_spec (fuel : nat) :
  forall n d k : Z,
    0 < n -> 1 <= k -> n * 10 ^ (k - 1) < d ->
    d <= n * 10 ^ (k - 1 + Z.of_nat fuel) ->
    let r := JS.log10_down fuel n d k in
    r < 0 /\ n * 10 ^ (- r - 1) < d <= n * 10 ^ (- r).
Proof.
  induction fuel as [|fuel IH]; intros n d k Hn Hk Hlo Hhi; simpl.
  - rewrite Z.add_0_r in Hhi. lia.
  - destruct (Z.leb_spec d (n * 10 ^ k)) as [Hle | Hgt].
    + split; [lia|]. rewrite Z.opp_involutive. split; assumption.
    + apply IH; try lia.
      * replace (k + 1 - 1) with k by lia. exact Hgt.
      * replace (k + 1 - 1 + Z.of_nat fuel) with (k - 1 + Z.of_nat (S fuel)) by lia.
        exact Hhi.
Qed.

Lemma pow2_le_pow10 (m : Z) : 0 <= m -> 2 ^ m <= 10 ^ m.
Proof. intros H. apply Z.pow_le_mono_l. lia. Qed.

Lemma below_pow10 (n : Z) : 0 < n -> n < 10 ^ Z.of_nat (S (Z.to_nat (Z.log2 n))).
Proof.
  intros Hn. pose proof (Z.log2_spec n Hn) as [_ H].
  pose proof (Z.log2_nonneg n).
  rewrite Nat2Z.inj_succ, Z2Nat.id by assumption.
  pose proof (pow2_le_pow10 (Z.succ (Z.log2 n)) ltac:(lia)). lia.
Qed.

Lemma ilog10_bounds (n : Z) (d : positive) :
  0 < n ->
  let e := JS.ilog10 (n # d) in
  (0 <= e /\ Zpos d * 10 ^ e <= n < Zpos d * 10 ^ (e + 1))
  \/ (e < 0 /\ n * 10 ^ (- e - 1) < Zpos d <= n * 10 ^ (- e)).
Proof.
  intros Hn. unfold JS.ilog10. simpl Qnum. simpl Qden.
  destruct (Z.leb_spec (Zpos d) n) as [Hle | Hgt].
  - left. apply log10_up_spec; try lia.
    pose proof (below_pow10 n Hn).
    rewrite Z.add_0_l. 
    assert (0 < 10 ^ Z.of_nat (S (Z.to_nat (Z.log2 n)))) by (apply Z.pow_pos_nonneg; lia).
    nia.
  - right. apply log10_down_spec; try lia.
    replace (1 - 1 + Z.of_nat (S (Z.to_nat (Z.log2 (Z.pos d))))) with (Z.of_nat (S (Z.to_nat (Z.log2 (Z.pos d))))) by lia.
    pose proof (below_pow10 (Zpos d) ltac:(lia)).
    nia.
Qed.

End IntegerLogarithm.

Lemma Qpower10_nonneg (e : Z) : (0 <= e)%Z -> 10 ^ e == inject_Z (10 ^ e).
Proof. intros H. symmetry. apply (Zpower_Qpower 10 e H). Qed.

Lemma Qpower10_neg (e : Z) : (e <= 0)%Z -> 10 ^ e == / inject_Z (10 ^ (- e)).
Proof.
  intros H. replace e with (- - e)%Z at 1 by lia.
  rewrite Qpower_opp. rewrite Qpower10_nonneg by lia. reflexivity.
Qed.

Lemma Qle_inject_l (a n : Z) (d : positive) :
  (Zpos d * a <= n)%Z -> inject_Z a <= n # d.
Proof. intros H. unfold Qle; simpl. lia. Qed.

Lemma Qlt_inject_r (a n : Z) (d : positive) :
  (n < Zpos d * a)%Z -> n # d < inject_Z a.
Proof. intros H. unfold Qlt; simpl. lia. Qed.

Lemma Qle_inv_l (a n : Z) (d : positive) :
  (0 < a)%Z -> (Zpos d <= n * a)%Z -> / inject_Z a <= n # d.
Proof.
  intros Ha H. destruct a as [|p|p]; try lia.
  unfold Qle; simpl. lia.
Qed.

Lemma Qlt_inv_r (a n : Z) (d : positive) :
  (0 < a)%Z -> (n * a < Zpos d)%Z -> n # d < / inject_Z a.
Proof.
  intros Ha H. destruct a as [|p|p]; try lia.
  unfold Qlt; simpl. lia.
Qed.

(** [JS.ilog10 q] is the floor of the decimal logarithm of a positive [q]. *)
Lemma ilog10_spec (q : Q) :
  0 < q -> 10 ^ JS.ilog10 q <= q /\ q < 10 ^ (JS.ilog10 q + 1).
Proof.
  destruct q as [n d]. intros Hq.
  assert (Hn : (0 < n)%Z) by (unfold Qlt in Hq; simpl in Hq; lia).
  destruct (ilog10_bounds n d Hn) as [(He & Hlo & Hhi) | (He & Hlo & Hhi)].
  - split.
    + rewrite Qpower10_nonneg by exact He. apply Qle_inject_l. exact Hlo.
    + rewrite Qpower10_nonneg by lia. apply Qlt_inject_r. exact Hhi.
  - assert (Hpos : forall m : Z, (0 <= m)%Z -> (0 < 10 ^ m)%Z)
      by (intros m Hm; apply Z.pow_pos_nonneg; lia).
    split.
    + rewrite Qpower10_neg by lia. apply Qle_inv_l; [apply Hpos; lia|].
      exact Hhi.
    + rewrite Qpower10_neg by lia. apply Qlt_inv_r; [apply Hpos; lia|].
      replace (- (JS.ilog10 (n # d) + 1))%Z with (- JS.ilog10 (n # d) - 1)%Z
        by lia.
      exact Hlo.
Qed.

Lemma UNIT_MAP_Giga (e : Z) : UNIT_MAP e = Some UnitPrefix.Giga -> e = 9%Z.
Proof.
  destruct e as [|n|n]; simpl; intros H; [discriminate H| |];
    repeat (destruct n as [n|n|]; simpl in H; try discriminate H; try lia).
Qed.

Lemma UNIT_MAP_Nano (e : Z) : UNIT_MAP e = Some UnitPrefix.Nano -> e = (-9)%Z.
Proof.
  destruct e as [|n|n]; simpl; intros H; [discriminate H| |];
    repeat (destruct n as [n|n|]; simpl in H; try discriminate H; try lia).
Qed.

(** Whatever exponent has been computed, the rest of [makeUnit] is
    [makeUnitAt]. *)
Lemma makeUnitWith_at (floorLog10 : number -> number) (si : number) (e : Z) :
  floorLog10 si = Num (inject_Z e) ->
  makeUnitWith floorLog10 si = makeUnitAt si e.
Proof.
  intros H. unfold makeUnitWith, makeUnitAt. rewrite H. reflexivity.
Qed.

(** C3, as the code has it: when the exponent the code computes,
    [exp = Math.floor(Math.log10(si))], is the integer [exp], [makeUnit]
    returns the magnitude unchanged with the empty prefix when
    [0 <= exp < 3]; the magnitude divided by 1e9 with the prefix
    [UnitPrefix.Giga] when [exp >= 24]; and the magnitude divided by 1e-9
    with the prefix [UnitPrefix.Nano] when [exp <= -24].  This holds
    whatever [Math.log10] returns, also where it rounds to the next whole
    number. *)
Theorem makeUnit_collapse (floorLog10 : number -> number) (si : number)
    (exp : Z) (Hexp : floorLog10 si = Num (inject_Z exp)) :
  ((0 <= exp < 3)%Z ->
     makeUnitWith floorLog10 si
       = {| value := si; unit := Some UnitPrefix.None |})
  /\ ((24 <= exp)%Z ->
        makeUnitWith floorLog10 si
          = {| value := JS.div si (Num 1000000000);
               unit := Some UnitPrefix.Giga |})
  /\ ((exp <= -24)%Z ->
        makeUnitWith floorLog10 si
          = {| value := JS.div si (Num (1 # 1000000000));
               unit := Some UnitPrefix.Nano |}).
Proof.
  rewrite (makeUnitWith_at floorLog10 si exp Hexp).
  unfold makeUnitAt, JS.ge.
  change (Num 3) with (Num (inject_Z 3)).
  change (Num 0) with (Num (inject_Z 0)).
  change (Num 24) with (Num (inject_Z 24)).
  change (Num (-24)) with (Num (inject_Z (-24))).
  rewrite !le_inject_Z, !lt_inject_Z.
  split; [|split].
  - intros H.
    replace (exp <? 3)%Z with true by (symmetry; apply Z.ltb_lt; lia).
    replace (0 <=? exp)%Z with true by (symmetry; apply Z.leb_le; lia).
    reflexivity.
  - intros H.
    replace (exp <? 3)%Z with false by (symmetry; apply Z.ltb_ge; lia).
    replace (24 <=? exp)%Z with true by (symmetry; apply Z.leb_le; lia).
    reflexivity.
  - intros H.
    replace (exp <? 3)%Z with true by (symmetry; apply Z.ltb_lt; lia).
    replace (0 <=? exp)%Z with false by (symmetry; apply Z.leb_gt; lia).
    replace (24 <=? exp)%Z with false by (symmetry; apply Z.leb_gt; lia).
    replace (exp <=? -24)%Z with true by (symmetry; apply Z.leb_le; lia).
    reflexivity.
Qed.

Lemma makeUnitAt_bucket (si : number) (e : Z) :
  (-24 < e < 24)%Z -> ~ (0 <= e < 3)%Z ->
  makeUnitAt si e
    = {| value := JS.mul si (Num (10 ^ (- (3 * (e / 3)))%Z));
         unit := UNIT_MAP (3 * (e / 3)) |}.
Proof.
  intros Hrange Hout.
  assert (Hcases :
    (e = -23 \/ e = -22 \/ e = -21 \/ e = -20 \/ e = -19 \/ e = -18
     \/ e = -17 \/ e = -16 \/ e = -15 \/ e = -14 \/ e = -13 \/ e = -12
     \/ e = -11 \/ e = -10 \/ e = -9 \/ e = -8 \/ e = -7 \/ e = -6
     \/ e = -5 \/ e = -4 \/ e = -3 \/ e = -2 \/ e = -1
     \/ e = 3 \/ e = 4 \/ e = 5 \/ e = 6 \/ e = 7 \/ e = 8 \/ e = 9
     \/ e = 10 \/ e = 11 \/ e = 12 \/ e = 13 \/ e = 14 \/ e = 15
     \/ e = 16 \/ e = 17 \/ e = 18 \/ e = 19 \/ e = 20 \/ e = 21
     \/ e = 22 \/ e = 23)%Z) by lia.
  repeat (destruct Hcases as [-> | Hcases]; [reflexivity|]).
  subst e. reflexivity.
Qed.

Lemma power10_roundtrip (q : Q) (n : Z) : q * 10 ^ (- n) * 10 ^ n == q.
Proof.
  rewrite Qpower_opp.
  assert (H : ~ 10 ^ n == 0) by (apply Qpower_not_0; discriminate).
  field. exact H.
Qed.

(** C4: when the exponent the code computes,
    [exp = Math.floor(Math.log10(si))], lies strictly between -24 and 24
    and outside [0, 3), [makeUnit] scales by [10^-exp3] and looks up the
    prefix of [exp3], where [exp3] is the greatest multiple of 3 not above
    [exp] (negative exponents round towards minus infinity: -2 goes to
    -3); and [value * 10^exp3] gives the magnitude back.  This holds
    whatever [Math.log10] returns. *)
Theorem makeUnit_bucket (floorLog10 : number -> number) (q : Q) (exp : Z)
    (Hexp : floorLog10 (Num q) = Num (inject_Z exp)) :
  let exp3 := (3 * (exp / 3))%Z in
  (-24 < exp < 24)%Z -> ~ (0 <= exp < 3)%Z ->
  makeUnitWith floorLog10 (Num q)
    = {| value := Num (q * 10 ^ (- exp3)); unit := UNIT_MAP exp3 |}
  /\ (exp3 mod 3 = 0)%Z
  /\ (exp3 <= exp < exp3 + 3)%Z
  /\ (exp = (-2)%Z -> exp3 = (-3)%Z)
  /\ q * 10 ^ (- exp3) * 10 ^ exp3 == q.
Proof.
  intros exp3 Hrange Hout.
  split; [|split; [|split; [|split]]].
  - rewrite (makeUnitWith_at floorLog10 (Num q) exp Hexp).
    rewrite (makeUnitAt_bucket (Num q) exp Hrange Hout). reflexivity.
  - unfold exp3. rewrite Z.mul_comm. apply Z.mod_mul. lia.
  - unfold exp3.
    pose proof (Z.mul_div_le exp 3 ltac:(lia)).
    pose proof (Z.mul_succ_div_gt exp 3 ltac:(lia)). lia.
  - intros H. unfold exp3. rewrite H. reflexivity.
  - apply power10_roundtrip.
Qed.

(** C3, as stated, fails: at 2^80, a little above 1.2e24, the logarithm is
    24.08, the exponent is 24 and the prefix returned is giga, which is
    not the largest one the table supports (tera, at 10^12, is above
    it). *)
Lemma makeUnit_collapse_not_largest :
  unit (makeUnit (Num 1208925819614629174706176)) = Some UnitPrefix.Giga
  /\ ~ (exists p : UnitPrefix.t,
          unit (makeUnit (Num 1208925819614629174706176)) = Some p
          /\ largestSupported p).
Proof.
  split; [reflexivity|].
  intros (p & Hp & (e & He & Hmax)).
  vm_compute in Hp. inversion Hp; subst p.
  apply UNIT_MAP_Giga in He. subst e.
  specialize (Hmax 12%Z UnitPrefix.Tera eq_refl). lia.
Qed.

(** The same at the other end: at 2^-80, a little above 8.2e-25, the
    logarithm is -24.08, the exponent is -25 and the prefix returned is
    nano, which is not the smallest one of the table (pico is below
    it). *)
Lemma makeUnit_collapse_not_smallest :
  unit (makeUnit (Num (1 # 1208925819614629174706176)))
    = Some UnitPrefix.Nano
  /\ ~ (exists p : UnitPrefix.t,
          unit (makeUnit (Num (1 # 1208925819614629174706176))) = Some p
          /\ smallestSupported p).
Proof.
  split; [reflexivity|].
  intros (p & Hp & (e & He & Hmin)).
  vm_compute in Hp. inversion Hp; subst p.
  apply UNIT_MAP_Nano in He. subst e.
  specialize (Hmin (-12)%Z UnitPrefix.Pico eq_refl). lia.
Qed.

(** ** The duration humanizer *)

Lemma div_finite (s d : Q) :
  ~ d == 0 -> JS.div (Num s) (Num d) = Num (s / d).
Proof.
  intros Hd. unfold JS.div.
  destruct (Qeq_bool d 0) eqn:E; [|reflexivity].
  apply Qeq_bool_eq in E. contradiction.
Qed.

Lemma rem_finite (p q : Q) :
  ~ q == 0 ->
  JS.rem (Num p) (Num q) = Num (p - q * inject_Z (JS.Qtrunc (p / q))).
Proof.
  intros Hq. unfold JS.rem.
  destruct (Qeq_bool q 0) eqn:E; [|reflexivity].
  apply Qeq_bool_eq in E. contradiction.
Qed.

Lemma Qtrunc_nonneg (x : Q) : 0 <= x -> JS.Qtrunc x = Qfloor x.
Proof.
  intros H. unfold JS.Qtrunc.
  apply Qle_bool_iff in H. rewrite H. reflexivity.
Qed.

Lemma toString_floor (x : Q) :
  toString (JS.floor (Num x)) = digits (Qfloor x).
Proof. unfold JS.floor, toString. rewrite Qfloor_Z. reflexivity. Qed.

Lemma threshold_met (s d : Q) :
  0 < d -> d <= s -> JS.ge (Num (s / d)) (Num 1) = true.
Proof.
  intros Hd Hs. unfold JS.ge, JS.le. apply Qle_bool_iff.
  apply Qle_shift_div_l; [exact Hd|]. rewrite Qmult_1_l. exact Hs.
Qed.

Lemma threshold_unmet (s d : Q) :
  0 < d -> s < d -> JS.ge (Num (s / d)) (Num 1) = false.
Proof.
  intros Hd Hs. unfold JS.ge, JS.le.
  destruct (Qle_bool 1 (s / d)) eqn:E; [|reflexivity].
  apply Qle_bool_iff in E.
  assert (H : s / d < 1).
  { apply Qlt_shift_div_r; [exact Hd|]. rewrite Qmult_1_l. exact Hs. }
  exfalso. apply (Qlt_irrefl 1). eapply Qle_lt_trans; eassumption.
Qed.

(** The whole part of [(s / fine) % k], when [coarse] is [k] times [fine]:
    what is left after the whole multiples of [coarse], in multiples of
    [fine]. *)
Lemma floor_rem (x s coarse fine k : Q) :
  x == s / fine -> 0 <= s -> 0 < fine -> 0 < k -> coarse == k * fine ->
  toString (JS.floor (JS.rem (Num x) (Num k)))
    = digits (remainderIn s coarse fine).
Proof.
  intros Hx Hs Hfine Hk Hc.
  assert (Hk0 : ~ k == 0) by (intros E; rewrite E in Hk; discriminate).
  assert (Hf0 : ~ fine == 0) by (intros E; rewrite E in Hfine; discriminate).
  rewrite (rem_finite _ _ Hk0), toString_floor. unfold remainderIn.
  assert (Hq : x / k == s / coarse)
    by (rewrite Hx, Hc; field; split; assumption).
  rewrite Qtrunc_nonneg.
  2:{ rewrite Hq. apply Qle_shift_div_l.
      - rewrite Hc. 
        rewrite <- (Qmult_0_l fine). apply Qmult_lt_compat_r; assumption.
      - rewrite Qmult_0_l. exact Hs. }
  rewrite (Qfloor_comp _ _ Hq).
  set (whole := inject_Z (Qfloor (s / coarse))).
  assert (Hrest : x - k * whole == (s - whole * coarse) / fine)
    by (rewrite Hx, Hc; field; exact Hf0).
  rewrite (Qfloor_comp _ _ Hrest). reflexivity.
Qed.

Lemma calendar_positive (D : Durations) :
  isCalendar D ->
  0 < Minutes D /\ 0 < Hour D /\ 0 < Day D /\ 0 < Month D /\ 0 < Year D
  /\ Minutes D < Hour D /\ Hour D < Day D.
Proof.
  intros (Hmin & Hhour & Hday & Hmonth & Hyear).
  assert (H1 : 0 < Minutes D) by (rewrite Hmin; reflexivity).
  assert (H2 : 0 < Hour D) by (rewrite Hhour, Hmin; reflexivity).
  assert (H3 : 0 < Day D) by (rewrite Hday, Hhour, Hmin; reflexivity).
  assert (H4 : 0 < Month D) by (eapply Qlt_trans; eassumption).
  assert (H5 : 0 < Year D) by (eapply Qlt_trans; eassumption).
  repeat (split; [assumption|]). split.
  - rewrite Hhour, Hmin. reflexivity.
  - rewrite Hday, Hhour, Hmin. reflexivity.
Qed.

Lemma positive_nonzero (d : Q) : 0 < d -> ~ d == 0.
Proof. intros H E. rewrite E in H. discriminate H. Qed.

(** C2, as the code has it: with calendar durations, [makeTime] takes the
    first threshold met among whole years, months, days, hours and
    minutes.  From a year on it returns the years as [toFixed(2)] prints
    them and the word "years", with no remainder; from a month on, the
    months as [toFixed(2)] prints them, " m ", a whole number and " d";
    from a day, an hour or a minute on, the whole days, hours or minutes
    followed by what is left over in whole hours, minutes or seconds;
    below a minute it returns the value of [makeUnit] as [toFixed(2)]
    prints it, the prefix of [makeUnit] and "s".  Every duration falls in
    exactly one of these six ranges.  This holds whatever [toFixed] prints
    and whatever [Math.log10] returns. *)
Theorem makeTime_cascade (floorLog10 : number -> number)
    (toFixed : number -> string) (D : Durations) (HD : isCalendar D)
    (s : Q) :
  (Year D <= s ->
     makeTimeWith floorLog10 toFixed D (Num s)
       = toFixed (Num (s / Year D)) ++ " years")
  /\ (Month D <= s /\ s < Year D ->
        exists n : Z,
          makeTimeWith floorLog10 toFixed D (Num s)
            = toFixed (Num (s / Month D)) ++ " m " ++ digits n ++ " d")
  /\ (Day D <= s /\ s < Month D ->
        makeTimeWith floorLog10 toFixed D (Num s)
          = digits (Qfloor (s / Day D)) ++ " d "
              ++ digits (remainderIn s (Day D) (Hour D)) ++ " h")
  /\ (Hour D <= s /\ s < Day D ->
        makeTimeWith floorLog10 toFixed D (Num s)
          = digits (Qfloor (s / Hour D)) ++ " h "
              ++ digits (remainderIn s (Hour D) (Minutes D)) ++ " m")
  /\ (Minutes D <= s /\ s < Hour D ->
        makeTimeWith floorLog10 toFixed D (Num s)
          = digits (Qfloor (s / Minutes D)) ++ " m "
              ++ digits (remainderIn s (Minutes D) 1) ++ " s")
  /\ (s < Minutes D ->
        makeTimeWith floorLog10 toFixed D (Num s)
          = toFixed (value (makeUnitWith floorLog10 (Num s))) ++ " "
              ++ unitToString (unit (makeUnitWith floorLog10 (Num s)))
              ++ "s")
  /\ (Year D <= s \/ (Month D <= s /\ s < Year D)
      \/ (Day D <= s /\ s < Month D) \/ (Hour D <= s /\ s < Day D)
      \/ (Minutes D <= s /\ s < Hour D) \/ s < Minutes D).
Proof.
  destruct (calendar_positive D HD)
    as (Pmin & Phour & Pday & Pmonth & Pyear & Lmh & Lhd).
  destruct HD as (Hmin & Hhour & Hday & Hmonth & Hyear).
  unfold makeTimeWith; cbv zeta.
  rewrite !div_finite by (apply positive_nonzero; assumption).
  repeat apply conj.
  - intros H. rewrite threshold_met by assumption. reflexivity.
  - intros [Hlo Hhi].
    rewrite (threshold_unmet s (Year D)), (threshold_met s (Month D)) by assumption.
    rewrite rem_finite by discriminate. rewrite toString_floor.
    eexists. reflexivity.
  - intros [Hlo Hhi].
    assert (Hy : s < Year D) by (eapply Qlt_trans; eassumption).
    rewrite (threshold_unmet s (Year D)), (threshold_unmet s (Month D)),
      (threshold_met s (Day D)) by assumption.
    rewrite toString_floor.
    rewrite (floor_rem (s / Hour D) s (Day D) (Hour D) 24);
      [reflexivity | reflexivity | | assumption | reflexivity | assumption].
    eapply Qle_trans; [apply Qlt_le_weak; exact Pday | exact Hlo].
  - intros [Hlo Hhi].
    assert (Hm : s < Month D) by (eapply Qlt_trans; eassumption).
    assert (Hy : s < Year D) by (eapply Qlt_trans; eassumption).
    rewrite (threshold_unmet s (Year D)), (threshold_unmet s (Month D)),
      (threshold_unmet s (Day D)), (threshold_met s (Hour D)) by assumption.
    rewrite toString_floor.
    rewrite (floor_rem (s / Minutes D) s (Hour D) (Minutes D) 60);
      [reflexivity | reflexivity | | assumption | reflexivity | assumption].
    eapply Qle_trans; [apply Qlt_le_weak; exact Phour | exact Hlo].
  - intros [Hlo Hhi].
    assert (Hd : s < Day D) by (eapply Qlt_trans; eassumption).
    assert (Hm : s < Month D) by (eapply Qlt_trans; eassumption).
    assert (Hy : s < Year D) by (eapply Qlt_trans; eassumption).
    rewrite (threshold_unmet s (Year D)), (threshold_unmet s (Month D)),
      (threshold_unmet s (Day D)), (threshold_unmet s (Hour D)),
      (threshold_met s (Minutes D)) by assumption.
    rewrite toString_floor.
    rewrite (floor_rem s s (Minutes D) 1 60);
      [reflexivity | field | | reflexivity | reflexivity | ].
    + eapply Qle_trans; [apply Qlt_le_weak; exact Pmin | exact Hlo].
    + rewrite Hmin. reflexivity.
  - intros Hlt.
    assert (Hh : s < Hour D) by (eapply Qlt_trans; eassumption).
    assert (Hd : s < Day D) by (eapply Qlt_trans; eassumption).
    assert (Hm : s < Month D) by (eapply Qlt_trans; eassumption).
    assert (Hy : s < Year D) by (eapply Qlt_trans; eassumption).
    rewrite (threshold_unmet s (Year D)), (threshold_unmet s (Month D)),
      (threshold_unmet s (Day D)), (threshold_unmet s (Hour D)),
      (threshold_unmet s (Minutes D)) by assumption.
    reflexivity.
  - destruct (Qlt_le_dec s (Year D)) as [Hy|Hy]; [|left; exact Hy].
    destruct (Qlt_le_dec s (Month D)) as [Hm|Hm]; [|right; left; split; assumption].
    destruct (Qlt_le_dec s (Day D)) as [Hd|Hd];
      [|right; right; left; split; assumption].
    destruct (Qlt_le_dec s (Hour D)) as [Hh|Hh];
      [|right; right; right; left; split; assumption].
    destruct (Qlt_le_dec s (Minutes D)) as [Hn|Hn];
      [|right; right; right; right; left; split; assumption].
    right; right; right; right; right. exact Hn.
Qed.

Lemma calendar_isCalendar : isCalendar calendar.
Proof. unfold isCalendar; simpl. repeat split. Qed.

Lemma makeTime_cascade_witness :
  makeTime calendar (Num 20400)
    = digits (Qfloor (20400 / Hour calendar)) ++ " h "
        ++ digits (remainderIn 20400 (Hour calendar) (Minutes calendar))
        ++ " m".
Proof.
  apply (makeTime_cascade JS.floor_log10 toFixed2 calendar
           calendar_isCalendar 20400).
  split; [unfold Qle; simpl; lia | unfold Qlt; simpl; lia].
Defined.

(** C2, as stated, fails: two years print as one part, without a
    remainder in months. *)
Lemma makeTime_years_one_part :
  makeTime calendar (Num 63072000) = "2.00 years"
  /\ ~ twoPart (makeTime calendar (Num 63072000)).
Proof.
  split; [reflexivity|]. unfold twoPart. vm_compute. discriminate.
Qed.

(** In the months branch the number printed before " d" is the whole
    number of months, not the days left over: 45 days print as one and a
    half months and 1 day, where 15 days are left. *)
Example makeTime_months_days :
  makeTime calendar (Num 3888000) = "1.50 m 1 d"
  /\ remainderIn 3888000 (Month calendar) (Day calendar) = 15%Z.
Proof. split; reflexivity. Qed.

Example makeTime_hour : makeTime calendar (Num 3600) = "1 h 0 m".
Proof. reflexivity. Qed.

Example makeTime_day : makeTime calendar (Num 86400) = "1 d 0 h".
Proof. reflexivity. Qed.

Example makeTime_half_minute : makeTime calendar (Num 30) = "30.00 s".
Proof. reflexivity. Qed.

Example makeTime_quarter_second :
  makeTime calendar (Num (1 # 4)) = "250.00 ms".
Proof. reflexivity. Qed.

(** ** The trajectory ribbon updater *)

(** The same for a callback that rewrites the entry through a statement
    that may throw. *)
Lemma forEach_entrywise_outcome {A B : Type} (g : A -> B -> Outcome B)
    (xs : list A) :
  forall (i : nat) (s : list B),
    (i + length xs <= length s)%nat ->
    (forall (k : nat) (x : A) (b : B),
        xs !! k = Some x -> s !! (i + k)%nat = Some b ->
        exists b' : B, g x b = Returns b') ->
    exists s' : list B,
      forEach (fun (x : A) (idx : nat) (s : list B) =>
                 match s !! idx with
                 | None => Throws s
                 | Some b =>
                     match g x b with
                     | Returns b' => Returns (<[idx := b']> s)
                     | Throws b' => Throws (<[idx := b']> s)
                     end
                 end) xs i s = Returns s'
      /\ length s' = length s
      /\ (forall (k : nat) (x : A) (b : B),
            xs !! k = Some x -> s !! (i + k)%nat = Some b ->
            exists b' : B, g x b = Returns b' /\ s' !! (i + k)%nat = Some b')
      /\ (forall j : nat,
            (j < i \/ i + length xs <= j)%nat -> s' !! j = s !! j).
Proof.
  induction xs as [|x xs IH]; intros i s Hlen Hok; simpl in *.
  - exists s. split; [reflexivity|]. split; [reflexivity|].
    split; [intros k x b Hk; discriminate | reflexivity].
  - destruct (lookup_lt_is_Some_2 s i) as [b Hb]; [lia|].
    rewrite Hb.
    destruct (Hok 0%nat x b eq_refl) as [b' Hg].
    { rewrite Nat.add_0_r. exact Hb. }
    rewrite Hg.
    destruct (IH (S i) (<[i := b']> s)) as (s' & Hrun & Hl & Hin & Hout).
    { rewrite length_insert. lia. }
    { intros k y c Hk Hc. apply (Hok (S k) y c Hk).
      rewrite list_lookup_insert_ne in Hc by lia.
      replace (i + S k)%nat with (S i + k)%nat by lia. exact Hc. }
    exists s'. split; [exact Hrun|].
    rewrite length_insert in Hl. split; [exact Hl|]. split.
    + intros [|k] y c Hk Hc; simpl in Hk.
      * inversion Hk; subst y. rewrite Nat.add_0_r in *.
        rewrite Hb in Hc. inversion Hc; subst c.
        exists b'. split; [exact Hg|].
        rewrite Hout by lia. apply list_lookup_insert_eq. lia.
      * replace (i + S k)%nat with (S i + k)%nat in * by lia.
        apply (Hin k y c Hk).
        rewrite list_lookup_insert_ne by lia. exact Hc.
    + intros j Hj. rewrite Hout by lia.
      apply list_lookup_insert_ne. lia.
Qed.

Section RibbonProofs.

Variable normalize : THREE.Vector3 -> THREE.Vector3.
Variable setFromUnitVectors :
  THREE.Vector3 -> THREE.Vector3 -> THREE.Quaternion.
Variable frame : option Trajectory.
Variable trajectory : Trajectory.
Variable settings : Settings.

(** The inner loop over the markers of one line, from index [i] on. *)
Lemma forEach_updateVertex (xs : list Object3D) :
  forall (i : nat) (line : list Object3D),
    (i + length xs <= length line)%nat ->
    (forall k : nat,
        (i <= k < i + length xs)%nat ->
        is_Some (Meca3.get trajectory k) /\ is_Some (basisAt frame k)) ->
    exists line' : list Object3D,
      forEach (updateVertex normalize setFromUnitVectors frame trajectory
                 settings) xs i line = Returns line'
      /\ length line' = length line
      /\ (forall j : nat,
            (j < i \/ i + length xs <= j)%nat -> line' !! j = line !! j)
      /\ (forall (k : nat) (vertex : Object3D) (sample : Meca3.Vector3)
                 (basis : THREE.Vector3),
            xs !! k = Some vertex ->
            Meca3.get trajectory (i + k) = Some sample ->
            basisAt frame (i + k) = Some basis ->
            line' !! (i + k)%nat
              = Some (markerAt normalize setFromUnitVectors settings line' (i + k) vertex
                       sample basis)).
Proof.
  induction xs as [|x xs IH]; intros i line Hlen Hdef; simpl in *.
  - exists line. split; [reflexivity|]. split; [reflexivity|].
    split; [reflexivity | intros k v sm bs Hk; discriminate].
  - destruct (Hdef i ltac:(lia)) as [[sample Hsample] [basis Hbasis]].
    assert (Hstep :
      updateVertex normalize setFromUnitVectors frame trajectory settings
        x i line
      = Returns (<[i := markerAt normalize setFromUnitVectors settings line i x sample basis]> line)).
    { unfold updateVertex, markerAt, previousPosition.
      rewrite Hsample.
      assert (Hprev :
        match i with
        | O => Ok THREE.zero
        | S j => match line !! j with
                 | Some previousLine => Ok (THREE.position previousLine)
                 | None => TypeError
                 end
        end = Ok (match i with
                  | O => THREE.zero
                  | S j => from_option THREE.position THREE.zero (line !! j)
                  end)).
      { destruct i as [|j]; [reflexivity|].
        destruct (lookup_lt_is_Some_2 line j) as [m Hm]; [lia|].
        rewrite Hm. reflexivity. }
      rewrite Hprev.
      unfold basisAt in Hbasis. destruct frame as [f|].
      - destruct (Meca3.get f i) as [v|]; [|discriminate].
        simpl in Hbasis. inversion Hbasis; subst basis. reflexivity.
      - inversion Hbasis; subst basis. reflexivity. }
    rewrite Hstep.
    destruct (IH (S i) (<[i := markerAt normalize setFromUnitVectors settings line i x sample basis]> line))
      as (line' & Hrun & Hl & Hout & Hin).
    { rewrite length_insert. lia. }
    { intros k Hk. apply Hdef. lia. }
    exists line'. split; [exact Hrun|].
    rewrite length_insert in Hl. split; [exact Hl|]. split.
    + intros j Hj. rewrite Hout by lia.
      apply list_lookup_insert_ne. lia.
    + intros [|k] v sm bs Hk Hsm Hbs; simpl in Hk.
      * inversion Hk; subst v. rewrite Nat.add_0_r in *.
        rewrite Hsample in Hsm. inversion Hsm; subst sm.
        rewrite Hbasis in Hbs. inversion Hbs; subst bs.
        rewrite Hout by lia. rewrite list_lookup_insert_eq by lia.
        f_equal. unfold markerAt. f_equal. f_equal. f_equal.
        unfold previousPosition. destruct i as [|j]; [reflexivity|].
        rewrite Hout by lia. rewrite list_lookup_insert_ne by lia.
        reflexivity.
      * replace (i + S k)%nat with (S i + k)%nat in * by lia.
        apply (Hin k v sm bs Hk Hsm Hbs).
Qed.

End RibbonProofs.

Section RibbonSpec.

Variable normalize : THREE.Vector3 -> THREE.Vector3.
Variable setFromUnitVectors :
  THREE.Vector3 -> THREE.Vector3 -> THREE.Quaternion.

Lemma basisAt_defined (frame : option Trajectory) (k : nat) :
  (forall f : Trajectory, frame = Some f -> (k < length f)%nat) ->
  is_Some (basisAt frame k).
Proof.
  intros H. unfold basisAt. destruct frame as [f|]; [|eexists; reflexivity].
  destruct (lookup_lt_is_Some_2 f k (H f eq_refl)) as [v Hv].
  exists (THREE.set v). unfold Meca3.get. rewrite Hv. reflexivity.
Qed.

(** The ribbon updater on a scene that is ready for it: it returns, and
    every marker of every entity's line is the one [markerAt] describes. *)
Lemma updateLinesObject_ready (points : list Point) (barycenter : Barycenter)
    (lines : list (list Object3D)) (settings : Settings)
    (ftraj : option Trajectory) :
  frameTrajectory (frame settings) points barycenter = Ok ftraj ->
  ribbonReady ftraj (barycenter :: points) lines ->
  exists lines' : list (list Object3D),
    updateLinesObject normalize setFromUnitVectors points barycenter lines
      settings = Returns lines'
    /\ length lines' = length lines
    /\ forall (e : nat) (entity : Point) (line : list Object3D),
         (barycenter :: points) !! e = Some entity ->
         lines !! e = Some line ->
         exists line' : list Object3D,
           lines' !! e = Some line'
           /\ length line' = length line
           /\ forall (k : nat) (vertex : Object3D) (sample : Meca3.Vector3)
                     (basis : THREE.Vector3),
                line !! k = Some vertex ->
                Meca3.get (Meca3.trajectory entity) k = Some sample ->
                basisAt ftraj k = Some basis ->
                line' !! k
                  = Some (markerAt normalize setFromUnitVectors settings
                            line' k vertex sample basis).
Proof.
  intros Hframe (Hcount & Hmarkers & Hlock).
  unfold updateLinesObject. rewrite Hframe.
  set (g := fun (point : Point) (line : list Object3D) =>
              forEach (updateVertex normalize setFromUnitVectors ftraj
                         (Meca3.trajectory point) settings) line 0%nat line).
  assert (Hinner :
    forall (e : nat) (entity : Point) (line : list Object3D),
      (barycenter :: points) !! e = Some entity -> lines !! e = Some line ->
      exists line' : list Object3D,
        g entity line = Returns line'
        /\ length line' = length line
        /\ forall (k : nat) (vertex : Object3D) (sample : Meca3.Vector3)
                  (basis : THREE.Vector3),
             line !! k = Some vertex ->
             Meca3.get (Meca3.trajectory entity) k = Some sample ->
             basisAt ftraj k = Some basis ->
             line' !! k
               = Some (markerAt normalize setFromUnitVectors settings
                         line' k vertex sample basis)).
  { intros e entity line He Hl.
    pose proof (Hmarkers e entity line He Hl) as Hlen.
    destruct (forEach_updateVertex normalize setFromUnitVectors ftraj
                (Meca3.trajectory entity) settings line 0%nat line)
      as (line' & Hrun & Hlen' & _ & Hin).
    { simpl. lia. }
    { intros k Hk. split.
      - apply lookup_lt_is_Some_2. lia.
      - apply basisAt_defined. intros f Hf.
        pose proof (Hlock f Hf e entity He). lia. }
    exists line'. split; [exact Hrun|]. split; [exact Hlen'|].
    intros k vertex sample basis Hv Hs Hb. apply (Hin k vertex sample basis Hv Hs Hb). }
  destruct (forEach_entrywise_outcome g (barycenter :: points) 0%nat lines)
    as (lines' & Hrun & Hlen & Hin & _).
  { simpl in *. lia. }
  { intros k entity line He Hl.
    destruct (Hinner k entity line He Hl) as (line' & Hg & _).
    exists line'. exact Hg. }
  exists lines'. split; [exact Hrun|]. split; [exact Hlen|].
  intros e entity line He Hl.
  destruct (Hin e entity line He Hl) as (line' & Hg & Hlook).
  destruct (Hinner e entity line He Hl) as (line'' & Hg' & Hlen'' & Hspec).
  rewrite Hg in Hg'. inversion Hg'; subst line''.
  exists line'. split; [exact Hlook|]. split; [exact Hlen''|]. exact Hspec.
Qed.

End RibbonSpec.

Lemma project_fixed (sample : Meca3.Vector3) (s : Q) :
  project sample THREE.zero s =v= THREE.multiplyScalar (THREE.set sample) (Num s).
Proof.
  unfold project, THREE.equiv; simpl. repeat split; ring.
Qed.

(** C1: on a scene that is ready for it, the ribbon updater returns, and
    for the barycenter (entity 0) and every body (entity [i + 1] for body
    [i]) and every sample index [k] of the entity's trajectory, the marker
    at [(entity, k)] holds the raw sample times [settings.scale] when the
    frame is fixed, and otherwise
    [(entityTrajectory[k] - frameTrajectory[k]) * settings.scale], with
    the frame's sample taken at the same index [k]. *)
Theorem ribbon_positions
    (normalize : THREE.Vector3 -> THREE.Vector3)
    (setFromUnitVectors : THREE.Vector3 -> THREE.Vector3 -> THREE.Quaternion)
    (points : list Point) (barycenter : Barycenter)
    (lines : list (list Object3D)) (settings : Settings)
    (ftraj : option Trajectory)
    (Hframe : frameTrajectory (frame settings) points barycenter = Ok ftraj)
    (Hready : ribbonReady ftraj (barycenter :: points) lines) :
  exists lines' : list (list Object3D),
    updateLinesObject normalize setFromUnitVectors points barycenter lines
      settings = Returns lines'
    /\ forall (e : nat) (entity : Point) (k : nat) (sample : Meca3.Vector3),
         (barycenter :: points) !! e = Some entity ->
         Meca3.get (Meca3.trajectory entity) k = Some sample ->
         exists (line' : list Object3D) (marker : Object3D),
           lines' !! e = Some line'
           /\ line' !! k = Some marker
           /\ (frame settings = Fixed ->
               THREE.position marker
                 =v= THREE.multiplyScalar (THREE.set sample)
                       (Num (scale settings)))
           /\ (frame settings <> Fixed ->
               exists (f : Trajectory) (fsample : Meca3.Vector3),
                 ftraj = Some f
                 /\ Meca3.get f k = Some fsample
                 /\ THREE.position marker
                      = THREE.multiplyScalar
                          (THREE.sub (THREE.set sample) (THREE.set fsample))
                          (Num (scale settings))).
Proof.
  destruct (updateLinesObject_ready normalize setFromUnitVectors points
              barycenter lines settings ftraj Hframe Hready)
    as (lines' & Hrun & Hlen & Hspec).
  exists lines'. split; [exact Hrun|].
  intros e entity k sample He Hsample.
  destruct Hready as (Hcount & Hmarkers & Hlock).
  destruct (lookup_lt_is_Some_2 lines e) as [line Hline].
  { rewrite Hcount. apply lookup_lt_is_Some_1. eexists; exact He. }
  destruct (Hspec e entity line He Hline) as (line' & Hline' & Hlen' & Hmark).
  pose proof (Hmarkers e entity line He Hline) as Hsize.
  assert (Hk : (k < length (Meca3.trajectory entity))%nat).
  { apply lookup_lt_is_Some_1. eexists; exact Hsample. }
  destruct (lookup_lt_is_Some_2 line k) as [vertex Hvertex]; [lia|].
  destruct (basisAt_defined ftraj k) as [basis Hbasis].
  { intros f Hf. pose proof (Hlock f Hf e entity He). lia. }
  exists line'. eexists. split; [exact Hline'|].
  split; [exact (Hmark k vertex sample basis Hvertex Hsample Hbasis)|].
  simpl. split.
  - intros Hfixed. rewrite Hfixed in Hframe. simpl in Hframe.
    inversion Hframe; subst ftraj. simpl in Hbasis.
    inversion Hbasis; subst basis. apply project_fixed.
  - intros Hmoving. destruct ftraj as [f|].
    + unfold basisAt in Hbasis.
      destruct (Meca3.get f k) as [fsample|] eqn:Hf; [|discriminate].
      simpl in Hbasis. inversion Hbasis; subst basis.
      exists f, fsample. split; [reflexivity|]. split; [exact Hf|].
      reflexivity.
    + exfalso. apply Hmoving.
      destruct (frame settings) as [| |i]; [reflexivity| |];
        simpl in Hframe; [discriminate|].
      destruct (points !! i); discriminate.
Qed.

(** C7: on a scene that is ready for it, every marker [k] of every line
    ends with the rotation [setFromUnitVectors] gives from the up axis
    (0, 1, 0) to the facing direction, which is the normalized opposite of
    the vector from the previous marker's position (the world origin for
    [k = 0]) to the marker's own position, both as the update leaves
    them. *)
Theorem ribbon_orientation
    (normalize : THREE.Vector3 -> THREE.Vector3)
    (setFromUnitVectors : THREE.Vector3 -> THREE.Vector3 -> THREE.Quaternion)
    (points : list Point) (barycenter : Barycenter)
    (lines : list (list Object3D)) (settings : Settings)
    (ftraj : option Trajectory)
    (Hframe : frameTrajectory (frame settings) points barycenter = Ok ftraj)
    (Hready : ribbonReady ftraj (barycenter :: points) lines) :
  exists lines' : list (list Object3D),
    updateLinesObject normalize setFromUnitVectors points barycenter lines
      settings = Returns lines'
    /\ forall (e : nat) (line' : list Object3D) (k : nat) (marker : Object3D),
         lines' !! e = Some line' ->
         line' !! k = Some marker ->
         let previous :=
           match k with
           | O => THREE.zero
           | S j => from_option THREE.position THREE.zero (line' !! j)
           end in
         (forall j : nat, k = S j -> is_Some (line' !! j))
         /\ THREE.quaternion marker
              = setFromUnitVectors
                  {| THREE.x := Num 0; THREE.y := Num 1; THREE.z := Num 0 |}
                  (normalize
                     (THREE.negate
                        (THREE.subVectors (THREE.position marker) previous))).
Proof.
  destruct (updateLinesObject_ready normalize setFromUnitVectors points
              barycenter lines settings ftraj Hframe Hready)
    as (lines' & Hrun & Hlen & Hspec).
  exists lines'. split; [exact Hrun|].
  intros e line' k marker Hline' Hmarker previous.
  destruct Hready as (Hcount & Hmarkers & Hlock).
  destruct (lookup_lt_is_Some_2 lines e) as [line Hline].
  { rewrite <- Hlen. apply lookup_lt_is_Some_1. eexists; exact Hline'. }
  destruct (lookup_lt_is_Some_2 (barycenter :: points) e) as [entity He].
  { rewrite <- Hcount. apply lookup_lt_is_Some_1. eexists; exact Hline. }
  destruct (Hspec e entity line He Hline) as (line'' & Hl'' & Hlen' & Hmark).
  rewrite Hline' in Hl''. inversion Hl''; subst line''.
  pose proof (Hmarkers e entity line He Hline) as Hsize.
  assert (Hk : (k < length line')%nat).
  { apply lookup_lt_is_Some_1. eexists; exact Hmarker. }
  destruct (lookup_lt_is_Some_2 line k) as [vertex Hvertex]; [lia|].
  destruct (lookup_lt_is_Some_2 (Meca3.trajectory entity) k)
    as [sample Hsample]; [lia|].
  destruct (basisAt_defined ftraj k) as [basis Hbasis].
  { intros f Hf. pose proof (Hlock f Hf e entity He). lia. }
  pose proof (Hmark k vertex sample basis Hvertex Hsample Hbasis) as Hk'.
  rewrite Hmarker in Hk'. inversion Hk'; subst marker.
  split.
  - intros j Hj. apply lookup_lt_is_Some_2. lia.
  - reflexivity.
Qed.

(** ** The camera-relative overlay scaler *)

Lemma number_equiv_refl (a : number) : a =n= a.
Proof. destruct a; simpl; auto. reflexivity. Qed.

Lemma number_equiv_trans (a b c : number) : a =n= b -> b =n= c -> a =n= c.
Proof.
  destruct a, b, c; simpl; try tauto. intros H1 H2.
  rewrite H1. exact H2.
Qed.

Lemma vector_equiv_trans (u v w : THREE.Vector3) :
  u =v= v -> v =v= w -> u =v= w.
Proof.
  intros (H1 & H2 & H3) (K1 & K2 & K3).
  repeat split; eapply number_equiv_trans; eassumption.
Qed.

(** Multiplying by a finite number equal to one changes nothing. *)
Lemma mul_one (a : number) (u : Q) : u == 1 -> JS.mul a (Num u) =n= a.
Proof.
  intros Hu.
  assert (Hc : (u ?= 0)%Q = Gt) by (rewrite Hu; reflexivity).
  destruct a as [| | |q]; simpl; try rewrite Hc; simpl; auto.
  rewrite Hu. ring.
Qed.

Lemma multiplyScalar_one (v : THREE.Vector3) (u : Q) :
  u == 1 -> THREE.multiplyScalar v (Num u) =v= v.
Proof.
  intros Hu. unfold THREE.equiv; simpl.
  repeat split; apply mul_one; exact Hu.
Qed.

(** The perspective divisor of a scaling matrix, at a finite vertex, is
    one. *)
Lemma scale_divisor (t : number) (a b c : Q) :
  let v := {| THREE.x := Num a; THREE.y := Num b; THREE.z := Num c |} in
  let e := THREE.makeScale t t t in
  JS.div (Num 1)
    (JS.add (JS.add (JS.add (JS.mul (e 3%nat) (THREE.x v))
                            (JS.mul (e 7%nat) (THREE.y v)))
                    (JS.mul (e 11%nat) (THREE.z v)))
            (e 15%nat))
  = Num (1 / (0 * a + 0 * b + 0 * c + 1)).
Proof.
  cbn. 
  assert (H : Qeq_bool (0 * a + 0 * b + 0 * c + 1) 0 = false).
  { destruct (Qeq_bool (0 * a + 0 * b + 0 * c + 1) 0) eqn:E; [|reflexivity].
    apply Qeq_bool_eq in E.
    assert (K : 0 * a + 0 * b + 0 * c + 1 == 1) by ring.
    rewrite K in E. discriminate E. }
  rewrite H. reflexivity.
Qed.

(** One coordinate of a scaled finite vertex: the products with the zero
    elements of the matrix add nothing and the divisor is one. *)
Lemma scale_coordinate (t : number) (a p q r w : Q) :
  p == 0 -> q == 0 -> r == 0 -> w == 1 ->
  (JS.mul (JS.add (JS.add (JS.add (JS.mul t (Num a)) (Num p)) (Num q)) (Num r))
          (Num w) =n= JS.mul (Num a) t)
  /\ (JS.mul (JS.add (JS.add (JS.add (Num p) (JS.mul t (Num a))) (Num q))
                     (Num r))
             (Num w) =n= JS.mul (Num a) t)
  /\ (JS.mul (JS.add (JS.add (JS.add (Num p) (Num q)) (JS.mul t (Num a)))
                     (Num r))
             (Num w) =n= JS.mul (Num a) t).
Proof.
  intros Hp Hq Hr Hw.
  assert (Hc : (w ?= 0)%Q = Gt) by (rewrite Hw; reflexivity).
  destruct t as [| | |u].
  - repeat split; exact I.
  - cbn. destruct (a ?= 0)%Q; cbn; rewrite ?Hc; cbn; repeat split; exact I.
  - cbn. destruct (a ?= 0)%Q; cbn; rewrite ?Hc; cbn; repeat split; exact I.
  - cbn. repeat split; rewrite Hp, Hq, Hr, Hw; ring.
Qed.

(** On a finite vertex, scaling the geometry by the same factor along the
    three axes multiplies each coordinate by the factor, whatever the
    factor. *)
Lemma applyScale_finite (t : number) (v : THREE.Vector3) :
  finiteVector v ->
  THREE.applyMatrix4 v (THREE.makeScale t t t) =v= THREE.multiplyScalar v t.
Proof.
  intros (a & b & c & ->).
  unfold THREE.applyMatrix4. rewrite scale_divisor.
  assert (Hw : 1 / (0 * a + 0 * b + 0 * c + 1) == 1) by field.
  unfold THREE.equiv; cbn.
  split; [|split].
  - apply (scale_coordinate t a (0 * b) (0 * c) 0 _); try ring; try reflexivity.
    exact Hw.
  - apply (scale_coordinate t b (0 * a) (0 * c) 0 _); try ring; try reflexivity.
    exact Hw.
  - apply (scale_coordinate t c (0 * a) (0 * b) 0 _); try ring; try reflexivity.
    exact Hw.
Qed.

Lemma scaleGeometry_finite (t : number) (vertices : list THREE.Vector3) :
  Forall finiteVector vertices ->
  Forall2 THREE.equiv (THREE.scaleGeometry t t t vertices)
          (List.map (fun v => THREE.multiplyScalar v t) vertices).
Proof.
  intros H. unfold THREE.scaleGeometry.
  induction H as [|v vs Hv _ IH]; simpl; constructor.
  - apply applyScale_finite. exact Hv.
  - exact IH.
Qed.

(** Scaling a mesh with finite vertices by a finite number equal to one
    changes nothing. *)
Lemma scaleMesh_one (m : THREE.Mesh) (u : Q) :
  u == 1 -> finiteGeometry m -> meshEquiv (scaleMesh (Num u) m) m.
Proof.
  intros Hu Hm. unfold meshEquiv, scaleMesh; simpl. split.
  - unfold finiteGeometry in Hm. unfold THREE.scaleGeometry.
    induction Hm as [|v vs Hv _ IH]; simpl; constructor.
    + eapply vector_equiv_trans; [apply applyScale_finite; exact Hv|].
      apply multiplyScalar_one. exact Hu.
    + exact IH.
  - apply multiplyScalar_one. exact Hu.
Qed.

Lemma scaleMesh_one_all (ms : list THREE.Mesh) (u : Q) :
  u == 1 -> Forall finiteGeometry ms ->
  Forall2 meshEquiv (List.map (scaleMesh (Num u)) ms) ms.
Proof.
  intros Hu H. induction H as [|m ms Hm _ IH]; simpl; constructor.
  - apply scaleMesh_one; assumption.
  - exact IH.
Qed.

(** A finite factor leaves finite vertices finite. *)
Lemma scaleMesh_finite (m : THREE.Mesh) (u : Q) :
  finiteGeometry m -> finiteGeometry (scaleMesh (Num u) m).
Proof.
  unfold finiteGeometry, scaleMesh; simpl. unfold THREE.scaleGeometry.
  intros H. induction H as [|v vs Hv _ IH]; simpl; constructor.
  - destruct Hv as (a & b & c & ->).
    unfold THREE.applyMatrix4. rewrite scale_divisor. cbn.
    do 3 eexists. reflexivity.
  - exact IH.
Qed.

(** C8, as the code has it: the scaler returns
    [(top - bottom) / zoom / 800]; with [transfer] that scale over the
    previous one, it multiplies the position of every overlay mesh by
    [transfer] and applies the scaling matrix of [transfer] to the
    vertices of its geometry, which multiplies them by [transfer] when
    they are finite.  When the scale the first call returns is finite and
    not zero, a second call with the same camera and that scale has a
    transfer equal to 1, and leaves every mesh as the first call left it
    when the first call left finite vertices. *)
Theorem overlay_scaler (camera : THREE.OrthographicCamera)
    (frame : list THREE.Mesh) (scaleF : number) :
  let transfer := JS.div (currentScale camera) scaleF in
  let first := updateAxesMesh camera frame scaleF in
  snd first
    = JS.div (JS.div (JS.sub (Num (THREE.top camera))
                             (Num (THREE.bottom camera)))
                     (Num (THREE.zoom camera)))
             (Num 800)
  /\ length (fst first) = length frame
  /\ (forall (i : nat) (mesh : THREE.Mesh),
        frame !! i = Some mesh ->
        exists mesh' : THREE.Mesh,
          fst first !! i = Some mesh'
          /\ THREE.meshPosition mesh'
             = THREE.multiplyScalar (THREE.meshPosition mesh) transfer
          /\ THREE.geometry mesh'
             = THREE.scaleGeometry transfer transfer transfer
                 (THREE.geometry mesh)
          /\ (finiteGeometry mesh ->
              Forall2 THREE.equiv (THREE.geometry mesh')
                (List.map (fun v => THREE.multiplyScalar v transfer)
                          (THREE.geometry mesh))))
  /\ (forall s : Q,
        snd first = Num s -> ~ s == 0 ->
        secondTransfer camera frame scaleF =n= Num 1
        /\ (Forall finiteGeometry (fst first) ->
            Forall2 meshEquiv
              (fst (updateAxesMesh camera (fst first) (snd first)))
              (fst first))).
Proof.
  intros transfer first. split; [reflexivity|]. split.
  { unfold first, updateAxesMesh; simpl. apply length_map. }
  split.
  - intros i mesh Hi. exists (scaleMesh transfer mesh).
    split; [|split; [reflexivity|split; [reflexivity|]]].
    + unfold first, updateAxesMesh; simpl.
      rewrite list_lookup_fmap, Hi. reflexivity.
    + intros Hfin. apply scaleGeometry_finite. exact Hfin.
  - intros s Hs Hs0.
    change (snd first) with (currentScale camera) in Hs.
    assert (Hdiv : JS.div (Num s) (Num s) = Num (s / s)).
    { unfold JS.div. destruct (Qeq_bool s 0) eqn:E; [|reflexivity].
      apply Qeq_bool_eq in E. contradiction. }
    assert (Hone : s / s == 1) by (field; exact Hs0).
    split.
    + unfold secondTransfer, updateAxesMesh; simpl.
      rewrite Hs, Hdiv. simpl. exact Hone.
    + intros Hfin. unfold updateAxesMesh at 1. cbn [fst].
      change (snd first) with (currentScale camera).
      rewrite Hs, Hdiv. apply scaleMesh_one_all; assumption.
Qed.

Lemma overlay_scaler_witness :
  secondTransfer demoCamera demoAxes (Num 1) =n= Num 1
  /\ Forall2 meshEquiv
       (fst (updateAxesMesh demoCamera
               (fst (updateAxesMesh demoCamera demoAxes (Num 1)))
               (snd (updateAxesMesh demoCamera demoAxes (Num 1)))))
       (fst (updateAxesMesh demoCamera demoAxes (Num 1))).
Proof.
  destruct (overlay_scaler demoCamera demoAxes (Num 1)) as (_ & _ & _ & H).
  destruct (H ((400 - -400) / 2 / 800)) as [Hone Hsame].
  - reflexivity.
  - discriminate.
  - split; [exact Hone|]. apply Hsame.
    repeat constructor; do 3 eexists; reflexivity.
Defined.

(** C8, as stated, fails: for a camera without vertical extent the scale is
    zero, and the transfer of the second call is [NaN], not 1. *)
Lemma overlay_scaler_flat_camera :
  secondTransfer {| THREE.top := 1; THREE.bottom := 1; THREE.zoom := 1 |}
                 [] (Num 1) = JS.NaN
  /\ ~ (secondTransfer {| THREE.top := 1; THREE.bottom := 1; THREE.zoom := 1 |}
                       [] (Num 1) =n= Num 1).
Proof.
  split; [reflexivity|]. intros H. exact H.
Qed.

(** ** Advancing the simulation *)

(** A loop whose callback rewrites the store entry at its index from the
    element it is given and the entry of a second array at that index. *)
Lemma forEach_with_states {A B : Type} (f : A -> B -> A) (states : list B)
    (xs : list A) :
  forall (i : nat) (s : list A),
    (i + length xs <= length s)%nat ->
    (i + length xs <= length states)%nat ->
    exists s' : list A,
      forEach (fun (x : A) (idx : nat) (s : list A) =>
                 match states !! idx with
                 | None => Throws s
                 | Some st => Returns (<[idx := f x st]> s)
                 end) xs i s = Returns s'
      /\ length s' = length s
      /\ (forall (k : nat) (x : A) (st : B),
            xs !! k = Some x -> states !! (i + k)%nat = Some st ->
            s' !! (i + k)%nat = Some (f x st))
      /\ (forall j : nat,
            (j < i \/ i + length xs <= j)%nat -> s' !! j = s !! j).
Proof.
  induction xs as [|x xs IH]; intros i s Hlen Hstates; simpl in *.
  - exists s. split; [reflexivity|]. split; [reflexivity|].
    split; [intros k x st Hk; discriminate | reflexivity].
  - destruct (lookup_lt_is_Some_2 states i) as [st Hst]; [lia|].
    rewrite Hst.
    destruct (IH (S i) (<[i := f x st]> s)) as (s' & Hrun & Hl & Hin & Hout).
    { rewrite length_insert. lia. }
    { lia. }
    exists s'. split; [exact Hrun|].
    rewrite length_insert in Hl. split; [exact Hl|]. split.
    + intros [|k] y st' Hk Hst'; simpl in Hk.
      * inversion Hk; subst y. rewrite Nat.add_0_r in *.
        rewrite Hst in Hst'. inversion Hst'; subst st'.
        rewrite Hout by lia. apply list_lookup_insert_eq. lia.
      * replace (i + S k)%nat with (S i + k)%nat in * by lia.
        apply (Hin k y st' Hk Hst').
    + intros j Hj. rewrite Hout by lia.
      apply list_lookup_insert_ne. lia.
Qed.

(** C10: a tick sets the solver's step to [settings.speed /
    settings.samples] before it advances the solver by [settings.speed];
    then, when the solver returns a state for every body, each body is
    updated from the state at its index, and the barycenter is updated
    last, from the bodies as just updated. *)
Theorem updateSimulation_order (X State : Type)
    (advance : Solver X -> number -> Solver X * list State)
    (pointUpdate : Point -> State -> Point)
    (barycenterUpdate : Barycenter -> list Point -> Barycenter)
    (w : World X) (settings : Settings) :
  let stepped :=
    setDt (worldSolver w)
          (JS.div (Num (speed settings)) (Num (samples settings))) in
  let advanced := advance stepped (Num (speed settings)) in
  (length (worldPoints w) <= length (snd advanced))%nat ->
  dt (timer stepped) = JS.div (Num (speed settings)) (Num (samples settings))
  /\ exists points' : list Point,
       updateSimulation X State advance pointUpdate barycenterUpdate w settings
         = Returns {| worldPoints := points';
                      worldBarycenter :=
                        barycenterUpdate (worldBarycenter w) points';
                      worldSolver := fst advanced |}
       /\ length points' = length (worldPoints w)
       /\ forall (i : nat) (point : Point) (st : State),
            worldPoints w !! i = Some point ->
            snd advanced !! i = Some st ->
            points' !! i = Some (pointUpdate point st).
Proof.
  intros stepped advanced Hstates. split; [reflexivity|].
  unfold updateSimulation. fold stepped. fold advanced.
  destruct advanced as [solver' states] eqn:Hadv. simpl in *.
  destruct (forEach_with_states pointUpdate states (worldPoints w) 0%nat
              (worldPoints w)) as (points' & Hrun & Hlen & Hin & _).
  { simpl. lia. }
  { simpl. lia. }
  exists points'. rewrite Hrun. split; [reflexivity|].
  split; [exact Hlen|].
  intros i point st Hp Hs. apply (Hin i point st Hp Hs).
Qed.

(** ** Inputs outside the preconditions *)

Lemma makeUnit_negative (q : Q) :
  q < 0 -> makeUnit (Num q) = {| value := JS.NaN; unit := None |}.
Proof.
  intros Hq. unfold makeUnit, makeUnitWith, JS.floor_log10.
  assert (Hc : (q ?= 0)%Q = Lt) by (apply Qlt_alt; exact Hq).
  rewrite Hc. reflexivity.
Qed.

Lemma resolver_out_of_range (points : list Point) (barycenter : Barycenter)
    (i : nat) :
  (length points <= i)%nat ->
  framePosition (BodyRelative i) points barycenter = TypeError
  /\ frameTrajectory (BodyRelative i) points barycenter = TypeError
  /\ frameLabel (BodyRelative i) points = TypeError.
Proof.
  intros Hi. simpl. rewrite (lookup_ge_None_2 points i Hi).
  repeat split.
Qed.

(** C9, as the code has it: no input is rejected by a check.  [makeUnit]
    returns a value on every magnitude: zero with the nano prefix at zero,
    [NaN] with an undefined prefix below zero.  A frame relative to a body
    that is not in the list makes the resolver throw a [TypeError], and
    the projectors and the ribbon updater throw it before they write
    anything.  The ribbon updater has no case for a marker that sits on
    the one before it: on a scene that is ready it returns, and such a
    marker gets its position and the rotation for the direction
    [normalize] makes of the zero-length difference. *)
Theorem precondition_violations
    (normalize : THREE.Vector3 -> THREE.Vector3)
    (setFromUnitVectors : THREE.Vector3 -> THREE.Vector3 -> THREE.Quaternion)
    (points : list Point) (barycenter : Barycenter)
    (lines : list (list Object3D)) (settings : Settings) :
  (value (makeUnit (Num 0)) =n= Num 0
   /\ unit (makeUnit (Num 0)) = Some UnitPrefix.Nano
   /\ forall q : Q,
        q < 0 -> makeUnit (Num q) = {| value := JS.NaN; unit := None |})
  /\ (forall i : nat,
        frame settings = BodyRelative i -> (length points <= i)%nat ->
        framePosition (frame settings) points barycenter = TypeError
        /\ frameTrajectory (frame settings) points barycenter = TypeError
        /\ frameLabel (frame settings) points = TypeError
        /\ updateLinesObject normalize setFromUnitVectors points barycenter
             lines settings = Throws lines
        /\ (forall spheres : list Object3D,
              updateSpheresObject points barycenter spheres settings
                = Throws spheres)
        /\ (forall (idx : nat) (object : Object3D),
              updateLightObject idx points barycenter object settings
                = Throws object))
  /\ (forall ftraj : option Trajectory,
        frameTrajectory (frame settings) points barycenter = Ok ftraj ->
        ribbonReady ftraj (barycenter :: points) lines ->
        exists lines' : list (list Object3D),
          updateLinesObject normalize setFromUnitVectors points barycenter
            lines settings = Returns lines'
          /\ forall (e : nat) (line' : list Object3D) (k : nat)
                    (marker : Object3D),
               lines' !! e = Some line' ->
               line' !! k = Some marker ->
               THREE.position marker = previousPosition line' k ->
               THREE.quaternion marker
                 = setFromUnitVectors upVector
                     (normalize
                        (THREE.negate
                           (THREE.subVectors (THREE.position marker)
                                             (THREE.position marker))))).
Proof.
  split; [|split].
  - split; [reflexivity|]. split; [reflexivity|]. exact makeUnit_negative.
  - intros i Hframe Hi.
    destruct (resolver_out_of_range points barycenter i Hi) as (Hp & Ht & Hl).
    unfold updateLinesObject, updateSpheresObject, updateLightObject.
    rewrite Hframe, Hp, Ht, Hl. repeat split.
  - intros ftraj Hframe Hready.
    destruct (updateLinesObject_ready normalize setFromUnitVectors points
                barycenter lines settings ftraj Hframe Hready)
      as (lines' & Hrun & Hlen & Hspec).
    exists lines'. split; [exact Hrun|].
    intros e line' k marker Hline' Hmarker Hsame.
    destruct Hready as (Hcount & Hmarkers & Hlock).
    destruct (lookup_lt_is_Some_2 lines e) as [line Hline].
    { rewrite <- Hlen. apply lookup_lt_is_Some_1. eexists; exact Hline'. }
    destruct (lookup_lt_is_Some_2 (barycenter :: points) e) as [entity He].
    { rewrite <- Hcount. apply lookup_lt_is_Some_1. eexists; exact Hline. }
    destruct (Hspec e entity line He Hline) as (line'' & Hl'' & Hlen' & Hmark).
    rewrite Hline' in Hl''. inversion Hl''; subst line''.
    pose proof (Hmarkers e entity line He Hline) as Hsize.
    assert (Hk : (k < length line')%nat).
    { apply lookup_lt_is_Some_1. eexists; exact Hmarker. }
    destruct (lookup_lt_is_Some_2 line k) as [vertex Hvertex]; [lia|].
    destruct (lookup_lt_is_Some_2 (Meca3.trajectory entity) k)
      as [sample Hsample]; [lia|].
    destruct (basisAt_defined ftraj k) as [basis Hbasis].
    { intros f Hf. pose proof (Hlock f Hf e entity He). lia. }
    pose proof (Hmark k vertex sample basis Hvertex Hsample Hbasis) as Hk'.
    rewrite Hmarker in Hk'. inversion Hk' as [Hm].
    rewrite Hm in Hsame. unfold markerAt in Hsame. simpl in Hsame.
    unfold markerAt; simpl. unfold facing. rewrite <- Hsame. reflexivity.
Qed.

(** C9, as stated, fails: a negative magnitude is not rejected; [makeUnit]
    returns [NaN] with an undefined prefix, and [makeTime] prints them. *)
Lemma negative_magnitude_not_rejected :
  makeUnit (Num (-5)) = {| value := JS.NaN; unit := None |}
  /\ makeTime calendar (Num (-5)) = "NaN undefineds".
Proof. split; reflexivity. Qed.

(** The ribbon of a body drawn in its own frame lies on the origin: every
    segment has length zero, and the update still returns and rewrites the
    markers. *)
Example ribbon_own_frame
    (normalize : THREE.Vector3 -> THREE.Vector3)
    (setFromUnitVectors : THREE.Vector3 -> THREE.Vector3 -> THREE.Quaternion) :
  exists (lines' : list (list Object3D)) (line' : list Object3D),
    updateLinesObject normalize setFromUnitVectors demoPoints demoBarycenter
      demoLines (demoSettings (BodyRelative 1)) = Returns lines'
    /\ lines' !! 2%nat = Some line'
    /\ forall (k : nat) (marker : Object3D),
         line' !! k = Some marker ->
         THREE.position marker =v= THREE.zero
         /\ ~ (THREE.position demoMarker =v= THREE.zero).
Proof.
  eexists. eexists. split; [reflexivity|]. split; [reflexivity|].
  intros k marker Hk.
  destruct k as [|[|k]]; simpl in Hk; try discriminate;
    inversion Hk; subst marker; (split; [repeat split|]);
    intros (H & _); discriminate H.
Qed.

(** ** The theorems at work on the small scene *)

Lemma frame_resolver_witness :
  framePosition (BodyRelative 1) demoPoints demoBarycenter
    = Ok (THREE.set (Meca3.position demoEarth))
  /\ frameTrajectory (BodyRelative 1) demoPoints demoBarycenter
       = Ok (Some (Meca3.trajectory demoEarth))
  /\ frameLabel (BodyRelative 1) demoPoints = Ok (Meca3.id demoEarth).
Proof.
  apply (frame_resolver demoPoints demoBarycenter). reflexivity.
Defined.

Lemma body_projector_witness :
  exists object' : Object3D,
    updateLightObject 1 demoPoints demoBarycenter demoMarker
      (demoSettings (BodyRelative 1)) = Returns object'
    /\ THREE.position object' =v= THREE.zero.
Proof.
  destruct (proj1 (body_projector demoPoints demoBarycenter
                     (demoSettings (BodyRelative 1))
                     (THREE.set (Meca3.position demoEarth)) eq_refl)
              1%nat demoEarth demoMarker eq_refl)
    as (object' & Hrun & _ & _ & _ & Hzero).
  exists object'. split; [exact Hrun | exact (Hzero eq_refl)].
Defined.

Lemma makeUnit_collapse_witness :
  makeUnit (Num 5) = {| value := Num 5; unit := Some UnitPrefix.None |}
  /\ makeUnit (Num 1208925819614629174706176)
     = {| value := JS.div (Num 1208925819614629174706176) (Num 1000000000);
          unit := Some UnitPrefix.Giga |}
  /\ makeUnit (Num (1 # 1208925819614629174706176))
     = {| value := JS.div (Num (1 # 1208925819614629174706176))
                          (Num (1 # 1000000000));
          unit := Some UnitPrefix.Nano |}.
Proof.
  split; [|split].
  - apply (makeUnit_collapse JS.floor_log10 (Num 5) 0 eq_refl). lia.
  - apply (makeUnit_collapse JS.floor_log10
             (Num 1208925819614629174706176) 24 eq_refl). lia.
  - apply (makeUnit_collapse JS.floor_log10
             (Num (1 # 1208925819614629174706176)) (-25) eq_refl). lia.
Defined.

Lemma makeUnit_bucket_witness :
  makeUnit (Num (1 # 64))
    = {| value := Num ((1 # 64) * 10 ^ 3); unit := UNIT_MAP (-3) |}.
Proof.
  apply (makeUnit_bucket JS.floor_log10 (1 # 64) (-2) eq_refl); lia.
Defined.

Lemma demo_ready (ftraj : option Trajectory) :
  (forall f : Trajectory, ftraj = Some f -> length f = 2%nat) ->
  ribbonReady ftraj (demoBarycenter :: demoPoints) demoLines.
Proof.
  intros Hf. split; [reflexivity|]. split.
  - intros e entity line He Hl.
    destruct e as [|[|[|e]]]; simpl in He, Hl; try discriminate;
      inversion He; inversion Hl; subst; reflexivity.
  - intros f Hs e entity He. rewrite (Hf f Hs).
    destruct e as [|[|[|e]]]; simpl in He; try discriminate;
      inversion He; subst; simpl; lia.
Defined.

Lemma ribbon_positions_witness :
  exists lines' : list (list Object3D),
    updateLinesObject (fun v => v) (fun _ _ => identityQuaternion)
      demoPoints demoBarycenter demoLines (demoSettings Barycentric)
    = Returns lines'.
Proof.
  destruct (ribbon_positions (fun v => v) (fun _ _ => identityQuaternion)
              demoPoints demoBarycenter demoLines (demoSettings Barycentric)
              (Some (Meca3.trajectory demoBarycenter)) eq_refl)
    as (lines' & Hrun & _).
  - apply demo_ready. intros f Hf. inversion Hf. reflexivity.
  - exists lines'. exact Hrun.
Defined.

Lemma ribbon_orientation_witness :
  exists lines' : list (list Object3D),
    updateLinesObject (fun v => v) (fun _ _ => identityQuaternion)
      demoPoints demoBarycenter demoLines (demoSettings Fixed)
    = Returns lines'.
Proof.
  destruct (ribbon_orientation (fun v => v) (fun _ _ => identityQuaternion)
              demoPoints demoBarycenter demoLines (demoSettings Fixed)
              None eq_refl)
    as (lines' & Hrun & _).
  - apply demo_ready. intros f Hf. discriminate Hf.
  - exists lines'. exact Hrun.
Defined.

Lemma precondition_violations_witness :
  updateLinesObject (fun v => v) (fun _ _ => identityQuaternion)
    demoPoints demoBarycenter demoLines (demoSettings (BodyRelative 2))
  = Throws demoLines.
Proof.
  destruct (precondition_violations (fun v => v)
              (fun _ _ => identityQuaternion) demoPoints demoBarycenter
              demoLines (demoSettings (BodyRelative 2)))
    as (_ & Hresolver & _).
  destruct (Hresolver 2%nat eq_refl (le_n 2)) as (_ & _ & _ & Hlines & _).
  exact Hlines.
Defined.

Lemma updateSimulation_order_witness :
  exists points' : list Point,
    updateSimulation Datatypes.unit Meca3.Vector3
      (fun solver _ => (solver, [vec 0 0 1; vec 3 0 1]))
      (fun point st =>
         {| Meca3.id := Meca3.id point; Meca3.position := st;
            Meca3.trajectory := Meca3.trajectory point |})
      (fun barycenter points =>
         {| Meca3.id := Meca3.id barycenter;
            Meca3.position :=
              from_option Meca3.position (Meca3.position barycenter)
                          (points !! 0%nat);
            Meca3.trajectory := Meca3.trajectory barycenter |})
      {| worldPoints := demoPoints; worldBarycenter := demoBarycenter;
         worldSolver := {| timer := {| dt := Num 1 |}; inner := tt |} |}
      (demoSettings Fixed)
    = Returns
        {| worldPoints := points';
           worldBarycenter :=
             {| Meca3.id := "barycenter"; Meca3.position := vec 0 0 1;
                Meca3.trajectory := Meca3.trajectory demoBarycenter |};
           worldSolver :=
             {| timer := {| dt := Num (43800 / 8192) |}; inner := tt |} |}.
Proof.
  destruct (updateSimulation_order Datatypes.unit Meca3.Vector3
              (fun solver _ => (solver, [vec 0 0 1; vec 3 0 1]))
              (fun point st =>
                 {| Meca3.id := Meca3.id point; Meca3.position := st;
                    Meca3.trajectory := Meca3.trajectory point |})
              (fun barycenter points =>
                 {| Meca3.id := Meca3.id barycenter;
                    Meca3.position :=
                      from_option Meca3.position (Meca3.position barycenter)
                                  (points !! 0%nat);
                    Meca3.trajectory := Meca3.trajectory barycenter |})
              {| worldPoints := demoPoints; worldBarycenter := demoBarycenter;
                 worldSolver := {| timer := {| dt := Num 1 |}; inner := tt |} |}
              (demoSettings Fixed) (le_n 2))
    as (_ & points' & Hrun & _ & Hin).
  exists points'. rewrite Hrun.
  pose proof (Hin 0%nat demoSun (vec 0 0 1) eq_refl eq_refl) as H0.
  simpl in H0. simpl. rewrite H0. reflexivity.
Defined.

(* ===================================================================== *)
(** * Further properties *)

(** ** The magnitude formatter *)

Lemma ten_gt_one : (1 < 10)%Q.
Proof. reflexivity. Qed.

(** The exponent of a positive number between two powers of ten. *)
Lemma ilog10_between (q : Q) (a b : Z) :
  (0 < q)%Q -> (10 ^ a <= q)%Q -> (q < 10 ^ b)%Q ->
  (a <= JS.ilog10 q < b)%Z.
Proof.
  intros Hq Ha Hb. destruct (ilog10_spec q Hq) as [Hlo Hhi]. split.
  - assert (H : (10 ^ a < 10 ^ (JS.ilog10 q + 1))%Q)
      by (eapply Qle_lt_trans; eassumption).
    apply Qpower_lt_compat_l_inv in H; [lia | exact ten_gt_one].
  - assert (H : (10 ^ JS.ilog10 q < 10 ^ b)%Q)
      by (eapply Qle_lt_trans; eassumption).
    apply Qpower_lt_compat_l_inv in H; [lia | exact ten_gt_one].
Qed.

(** ** The duration humanizer *)

(** [makeTime] on a finite duration, once the five quotients are known to
    be finite. *)
Lemma makeTimeWith_finite (floorLog10 : number -> number)
    (toFixed : number -> string) (D : Durations) (s : Q) :
  (0 < Year D)%Q -> (0 < Month D)%Q -> (0 < Day D)%Q -> (0 < Hour D)%Q ->
  (0 < Minutes D)%Q ->
  makeTimeWith floorLog10 toFixed D (Num s)
  = if JS.ge (Num (s / Year D)) (Num 1) then
      toFixed (Num (s / Year D)) ++ " years"
    else if JS.ge (Num (s / Month D)) (Num 1) then
      toFixed (Num (s / Month D)) ++ " m "
        ++ toString (JS.floor (JS.rem (Num (s / Month D)) (Num 30))) ++ " d"
    else if JS.ge (Num (s / Day D)) (Num 1) then
      toString (JS.floor (Num (s / Day D))) ++ " d "
        ++ toString (JS.floor (JS.rem (Num (s / Hour D)) (Num 24))) ++ " h"
    else if JS.ge (Num (s / Hour D)) (Num 1) then
      toString (JS.floor (Num (s / Hour D))) ++ " h "
        ++ toString (JS.floor (JS.rem (Num (s / Minutes D)) (Num 60)))
        ++ " m"
    else if JS.ge (Num (s / Minutes D)) (Num 1) then
      toString (JS.floor (Num (s / Minutes D))) ++ " m "
        ++ toString (JS.floor (JS.rem (Num s) (Num 60))) ++ " s"
    else
      toFixed (value (makeUnitWith floorLog10 (Num s))) ++ " "
        ++ unitToString (unit (makeUnitWith floorLog10 (Num s))) ++ "s".
Proof.
  intros Py Pm Pd Ph Pn. unfold makeTimeWith; cbv zeta.
  rewrite !div_finite by (apply positive_nonzero; assumption).
  reflexivity.
Qed.

Lemma makeTime_finite (D : Durations) (s : Q) :
  (0 < Year D)%Q -> (0 < Month D)%Q -> (0 < Day D)%Q -> (0 < Hour D)%Q ->
  (0 < Minutes D)%Q ->
  makeTime D (Num s)
  = if JS.ge (Num (s / Year D)) (Num 1) then
      toFixed2 (Num (s / Year D)) ++ " years"
    else if JS.ge (Num (s / Month D)) (Num 1) then
      toFixed2 (Num (s / Month D)) ++ " m "
        ++ toString (JS.floor (JS.rem (Num (s / Month D)) (Num 30))) ++ " d"
    else if JS.ge (Num (s / Day D)) (Num 1) then
      toString (JS.floor (Num (s / Day D))) ++ " d "
        ++ toString (JS.floor (JS.rem (Num (s / Hour D)) (Num 24))) ++ " h"
    else if JS.ge (Num (s / Hour D)) (Num 1) then
      toString (JS.floor (Num (s / Hour D))) ++ " h "
        ++ toString (JS.floor (JS.rem (Num (s / Minutes D)) (Num 60)))
        ++ " m"
    else if JS.ge (Num (s / Minutes D)) (Num 1) then
      toString (JS.floor (Num (s / Minutes D))) ++ " m "
        ++ toString (JS.floor (JS.rem (Num s) (Num 60))) ++ " s"
    else
      toFixed2 (value (makeUnit (Num s))) ++ " "
        ++ unitToString (unit (makeUnit (Num s))) ++ "s".
Proof. exact (makeTimeWith_finite JS.floor_log10 toFixed2 D s). Qed.

(** Below one minute the duration goes to [makeUnit]. *)
Lemma makeTime_below_minute (D : Durations) (s : Q) :
  (0 < Year D)%Q -> (0 < Month D)%Q -> (0 < Day D)%Q -> (0 < Hour D)%Q ->
  (0 < Minutes D)%Q ->
  (s < Year D)%Q -> (s < Month D)%Q -> (s < Day D)%Q -> (s < Hour D)%Q ->
  (s < Minutes D)%Q ->
  makeTime D (Num s)
  = toFixed2 (value (makeUnit (Num s))) ++ " "
      ++ unitToString (unit (makeUnit (Num s))) ++ "s".
Proof.
  intros Py Pm Pd Ph Pn Ly Lm Ld Lh Ln.
  rewrite (makeTime_finite D s Py Pm Pd Ph Pn).
  rewrite (threshold_unmet s (Year D)), (threshold_unmet s (Month D)),
    (threshold_unmet s (Day D)), (threshold_unmet s (Hour D)),
    (threshold_unmet s (Minutes D)) by assumption.
  reflexivity.
Qed.

(** X3: with positive [Duration] constants every negative duration prints
    as "NaN undefineds": it falls through the five thresholds to
    [makeUnit], which gives [NaN] and no prefix. *)
Theorem makeTime_negative (D : Durations) (s : Q)
    (Py : (0 < Year D)%Q) (Pm : (0 < Month D)%Q) (Pd : (0 < Day D)%Q)
    (Ph : (0 < Hour D)%Q) (Pn : (0 < Minutes D)%Q) (Hs : (s < 0)%Q) :
  makeTime D (Num s) = "NaN undefineds".
Proof.
  rewrite (makeTime_below_minute D s Py Pm Pd Ph Pn)
    by (eapply Qlt_trans; eassumption).
  rewrite (makeUnit_negative s Hs). reflexivity.
Qed.

Lemma Qfloor_lower (x : Q) (a : Z) : (inject_Z a <= x)%Q -> (a <= Qfloor x)%Z.
Proof.
  intros H. rewrite <- (Qfloor_Z a). apply Qfloor_resp_le. exact H.
Qed.

Lemma Qfloor_upper (x : Q) (b : Z) : (x < inject_Z b)%Q -> (Qfloor x < b)%Z.
Proof.
  intros H. rewrite Zlt_Qlt.
  eapply Qle_lt_trans; [apply Qfloor_le | exact H].
Qed.

(** The whole multiples of [fine] in a duration from [fine] up to [k]
    times [fine]. *)
Lemma whole_units_bounds (s fine : Q) (k : Z) :
  (0 < fine)%Q -> (fine <= s)%Q -> (s < inject_Z k * fine)%Q ->
  (1 <= Qfloor (s / fine) < k)%Z.
Proof.
  intros Hf Hlo Hhi. split.
  - apply Qfloor_lower. apply Qle_shift_div_l; [exact Hf|].
    rewrite Qmult_1_l. exact Hlo.
  - apply Qfloor_upper. apply Qlt_shift_div_r; assumption.
Qed.

(** What is left after the whole multiples of [coarse] is less than one
    [coarse], that is less than [k] times [fine]. *)
Lemma remainderIn_bounds (s coarse fine : Q) (k : Z) :
  (0 < fine)%Q -> (0 < coarse)%Q -> (coarse == inject_Z k * fine)%Q ->
  (0 <= remainderIn s coarse fine < k)%Z.
Proof.
  intros Hf Hc Hk. unfold remainderIn.
  set (w := inject_Z (Qfloor (s / coarse))).
  assert (Hc0 : ~ (coarse == 0)%Q) by (apply positive_nonzero; exact Hc).
  assert (Hw1 : (w * coarse <= s)%Q).
  { apply (Qmult_le_r _ _ (/ coarse)); [apply Qinv_lt_0_compat; exact Hc|].
    assert (E : (w * coarse * / coarse == w)%Q) by (field; exact Hc0).
    rewrite E. assert (E' : (s * / coarse == s / coarse)%Q) by reflexivity.
    rewrite E'. apply Qfloor_le. }
  assert (Hw2 : (s < (w + 1) * coarse)%Q).
  { apply (Qmult_lt_r _ _ (/ coarse)); [apply Qinv_lt_0_compat; exact Hc|].
    assert (E : ((w + 1) * coarse * / coarse == w + 1)%Q)
      by (field; exact Hc0).
    rewrite E. assert (E' : (s * / coarse == s / coarse)%Q) by reflexivity.
    rewrite E'. unfold w. rewrite <- (inject_Z_plus _ 1). apply Qlt_floor. }
  split.
  - apply Qfloor_lower. apply Qle_shift_div_l; [exact Hf|].
    rewrite Qmult_0_l.
    assert (E : (0 == w * coarse - w * coarse)%Q) by ring.
    rewrite E. apply Qplus_le_l. exact Hw1.
  - apply Qfloor_upper. apply Qlt_shift_div_r; [exact Hf|].
    rewrite <- Hk.
    assert (E : (coarse == (w + 1) * coarse - w * coarse)%Q) by ring.
    rewrite E at 2. apply Qplus_lt_l. exact Hw2.
Qed.

(** The calendar constants as multiples of one another. *)
Lemma calendar_values (D : Durations) :
  isCalendar D ->
  (Minutes D == inject_Z 60 * 1)%Q
  /\ (Hour D == inject_Z 60 * Minutes D)%Q
  /\ (Day D == inject_Z 24 * Hour D)%Q.
Proof.
  intros (Hmin & Hhour & Hday & _). repeat split.
  - rewrite Hmin. reflexivity.
  - exact Hhour.
  - exact Hday.
Qed.

(** X4: in the days, hours and minutes branches the two numbers printed
    are in range: the first is at least 1 (and below 24 for hours, below
    60 for minutes), the second is a whole number of hours below 24, of
    minutes below 60, or of seconds below 60, never negative. *)
Theorem makeTime_parts_in_range (D : Durations) (HD : isCalendar D) (s : Q) :
  ((Day D <= s)%Q /\ (s < Month D)%Q ->
     exists d h : Z,
       makeTime D (Num s) = digits d ++ " d " ++ digits h ++ " h"
       /\ (1 <= d)%Z /\ (0 <= h < 24)%Z)
  /\ ((Hour D <= s)%Q /\ (s < Day D)%Q ->
        exists h m : Z,
          makeTime D (Num s) = digits h ++ " h " ++ digits m ++ " m"
          /\ (1 <= h < 24)%Z /\ (0 <= m < 60)%Z)
  /\ ((Minutes D <= s)%Q /\ (s < Hour D)%Q ->
        exists m sec : Z,
          makeTime D (Num s) = digits m ++ " m " ++ digits sec ++ " s"
          /\ (1 <= m < 60)%Z /\ (0 <= sec < 60)%Z).
Proof.
  destruct (calendar_positive D HD)
    as (Pmin & Phour & Pday & Pmonth & Pyear & Lmh & Lhd).
  destruct (calendar_values D HD) as (Vmin & Vhour & Vday).
  destruct HD as (Hmin & Hhour & Hday & Hmonth & Hyear).
  rewrite (makeTime_finite D s Pyear Pmonth Pday Phour Pmin).
  split; [|split].
  - intros [Hlo Hhi].
    assert (Hy : (s < Year D)%Q) by (eapply Qlt_trans; eassumption).
    assert (Hs : (0 <= s)%Q)
      by (eapply Qle_trans; [apply Qlt_le_weak; exact Pday | exact Hlo]).
    rewrite (threshold_unmet s (Year D)), (threshold_unmet s (Month D)),
      (threshold_met s (Day D)) by assumption.
    rewrite toString_floor.
    rewrite (floor_rem (s / Hour D) s (Day D) (Hour D) 24);
      [| reflexivity | assumption | assumption | reflexivity | assumption].
    eexists. eexists. split; [reflexivity|]. split.
    + apply Qfloor_lower. apply Qle_shift_div_l; [exact Pday|].
      rewrite Qmult_1_l. exact Hlo.
    + apply (remainderIn_bounds s (Day D) (Hour D) 24); assumption.
  - intros [Hlo Hhi].
    assert (Hm : (s < Month D)%Q) by (eapply Qlt_trans; eassumption).
    assert (Hy : (s < Year D)%Q) by (eapply Qlt_trans; eassumption).
    assert (Hs : (0 <= s)%Q)
      by (eapply Qle_trans; [apply Qlt_le_weak; exact Phour | exact Hlo]).
    rewrite (threshold_unmet s (Year D)), (threshold_unmet s (Month D)),
      (threshold_unmet s (Day D)), (threshold_met s (Hour D)) by assumption.
    rewrite toString_floor.
    rewrite (floor_rem (s / Minutes D) s (Hour D) (Minutes D) 60);
      [| reflexivity | assumption | assumption | reflexivity | assumption].
    eexists. eexists. split; [reflexivity|]. split.
    + apply (whole_units_bounds s (Hour D) 24); [assumption | assumption |].
      rewrite <- Vday. exact Hhi.
    + apply (remainderIn_bounds s (Hour D) (Minutes D) 60); assumption.
  - intros [Hlo Hhi].
    assert (Hd : (s < Day D)%Q) by (eapply Qlt_trans; eassumption).
    assert (Hm : (s < Month D)%Q) by (eapply Qlt_trans; eassumption).
    assert (Hy : (s < Year D)%Q) by (eapply Qlt_trans; eassumption).
    assert (Hs : (0 <= s)%Q)
      by (eapply Qle_trans; [apply Qlt_le_weak; exact Pmin | exact Hlo]).
    rewrite (threshold_unmet s (Year D)), (threshold_unmet s (Month D)),
      (threshold_unmet s (Day D)), (threshold_unmet s (Hour D)),
      (threshold_met s (Minutes D)) by assumption.
    rewrite toString_floor.
    rewrite (floor_rem s s (Minutes D) 1 60);
      [| field | assumption | reflexivity | reflexivity
       | rewrite Hmin; reflexivity].
    eexists. eexists. split; [reflexivity|]. split.
    + apply (whole_units_bounds s (Minutes D) 60); [assumption | assumption |].
      rewrite <- Vhour. exact Hhi.
    + apply (remainderIn_bounds s (Minutes D) 1 60);
        [reflexivity | assumption | exact Vmin].
Qed.

Lemma Qfloor_unit (x : Q) : (0 <= x)%Q -> (x < 1)%Q -> Qfloor x = 0%Z.
Proof.
  intros H0 H1.
  pose proof (Qfloor_lower x 0 H0). pose proof (Qfloor_upper x 1 H1). lia.
Qed.

(** X5: in the months branch the number printed before " d" is the whole
    number of months, whatever days are left over (for a year of at most
    30 months), and whatever [toFixed] prints in front of " m". *)
Theorem makeTime_months_branch (floorLog10 : number -> number)
    (toFixed : number -> string) (D : Durations) (HD : isCalendar D) (s : Q)
    (Hyear : (Year D <= 30 * Month D)%Q)
    (Hlo : (Month D <= s)%Q) (Hhi : (s < Year D)%Q) :
  makeTimeWith floorLog10 toFixed D (Num s)
  = toFixed (Num (s / Month D)) ++ " m "
      ++ digits (Qfloor (s / Month D)) ++ " d".
Proof.
  destruct (calendar_positive D HD)
    as (Pmin & Phour & Pday & Pmonth & Pyear & Lmh & Lhd).
  rewrite (makeTimeWith_finite floorLog10 toFixed D s Pyear Pmonth Pday
             Phour Pmin).
  rewrite (threshold_unmet s (Year D)), (threshold_met s (Month D))
    by assumption.
  rewrite rem_finite by discriminate. rewrite toString_floor.
  assert (Hm0 : (0 <= s / Month D)%Q).
  { apply Qle_shift_div_l; [exact Pmonth|]. rewrite Qmult_0_l.
    eapply Qle_trans; [apply Qlt_le_weak; exact Pmonth | exact Hlo]. }
  assert (Hm30 : (s / Month D < 30)%Q).
  { apply Qlt_shift_div_r; [exact Pmonth|].
    eapply Qlt_le_trans; [exact Hhi | exact Hyear]. }
  rewrite Qtrunc_nonneg.
  2:{ apply Qle_shift_div_l; [reflexivity|]. rewrite Qmult_0_l. exact Hm0. }
  rewrite (Qfloor_unit (s / Month D / 30)).
  - assert (E : (s / Month D - 30 * inject_Z 0 == s / Month D)%Q) by ring.
    rewrite (Qfloor_comp _ _ E). reflexivity.
  - apply Qle_shift_div_l; [reflexivity|]. rewrite Qmult_0_l. exact Hm0.
  - apply Qlt_shift_div_r; [reflexivity|]. rewrite Qmult_1_l. exact Hm30.
Qed.

(** X6: from one second up to one minute the duration prints as the
    seconds with two decimals and " s", without a prefix. *)
Theorem makeTime_seconds (D : Durations) (HD : isCalendar D) (s : Q)
    (Hlo : (1 <= s)%Q) (Hhi : (s < Minutes D)%Q) :
  makeTime D (Num s) = toFixed2 (Num s) ++ " s".
Proof.
  destruct (calendar_positive D HD)
    as (Pmin & Phour & Pday & Pmonth & Pyear & Lmh & Lhd).
  destruct HD as (Hmin & Hhour & Hday & Hmonth & Hyear).
  assert (Lh : (s < Hour D)%Q) by (eapply Qlt_trans; eassumption).
  assert (Ld : (s < Day D)%Q) by (eapply Qlt_trans; eassumption).
  assert (Lm : (s < Month D)%Q) by (eapply Qlt_trans; eassumption).
  assert (Ly : (s < Year D)%Q) by (eapply Qlt_trans; eassumption).
  rewrite (makeTime_below_minute D s) by assumption.
  assert (Hq : (0 < s)%Q) by (eapply Qlt_le_trans; [|exact Hlo]; reflexivity).
  assert (He : (0 <= JS.ilog10 s < 2)%Z).
  { apply ilog10_between; [exact Hq | exact Hlo |].
    eapply Qlt_trans; [exact Hhi|]. rewrite Hmin. reflexivity. }
  rewrite (makeUnit_pos s Hq).
  unfold makeUnitAt, JS.ge.
  change (Num 3) with (Num (inject_Z 3)).
  change (Num 0) with (Num (inject_Z 0)).
  rewrite le_inject_Z, lt_inject_Z.
  replace (JS.ilog10 s <? 3)%Z with true by (symmetry; apply Z.ltb_lt; lia).
  replace (0 <=? JS.ilog10 s)%Z with true by (symmetry; apply Z.leb_le; lia).
  reflexivity.
Qed.

(** ** The reference frame resolver *)

(** X7: the three resolver functions fail together, and only on a frame
    relative to a body index outside the list of bodies. *)
Theorem resolver_fails_together (frame : Frame) (points : list Point)
    (barycenter : Barycenter) :
  let outside :=
    exists i : nat, frame = BodyRelative i /\ (length points <= i)%nat in
  (framePosition frame points barycenter = TypeError <-> outside)
  /\ (frameTrajectory frame points barycenter = TypeError <-> outside)
  /\ (frameLabel frame points = TypeError <-> outside).
Proof.
  intros outside. unfold outside.
  destruct frame as [| |i]; simpl.
  - repeat split; try discriminate; intros (i & H & _); discriminate H.
  - repeat split; try discriminate; intros (i & H & _); discriminate H.
  - destruct (points !! i) as [p|] eqn:Hp.
    + assert (Hi : (i < length points)%nat)
        by (apply lookup_lt_is_Some_1; eexists; exact Hp).
      repeat split; try discriminate;
        intros (j & Hj & Hlen); inversion Hj; subst j; lia.
    + apply lookup_ge_None_1 in Hp.
      repeat split; try reflexivity; intros _; exists i; split;
        [reflexivity | exact Hp | reflexivity | exact Hp
         | reflexivity | exact Hp].
Qed.

(** ** The body position projector *)

(** The loop of [forEach_entrywise] on a store that is too short: it
    throws, and the entries it reached before are rewritten all the same. *)
Lemma forEach_entrywise_short {A B : Type} (f : A -> B -> B) (xs : list A) :
  forall (i : nat) (s : list B),
    (i <= length s < i + length xs)%nat ->
    exists s' : list B,
      forEach (fun (x : A) (idx : nat) (s : list B) =>
                 match s !! idx with
                 | None => Throws s
                 | Some b => Returns (<[idx := f x b]> s)
                 end) xs i s = Throws s'
      /\ length s' = length s
      /\ (forall (k : nat) (x : A),
            xs !! k = Some x -> (i + k < length s)%nat ->
            s' !! (i + k)%nat = f x <$> s !! (i + k)%nat)
      /\ (forall j : nat, (j < i)%nat -> s' !! j = s !! j).
Proof.
  induction xs as [|x xs IH]; intros i s Hlen; simpl in *; [lia|].
  destruct (s !! i) as [b|] eqn:Hb.
  - assert (Hi : (i < length s)%nat)
      by (apply lookup_lt_is_Some_1; eexists; exact Hb).
    destruct (IH (S i) (<[i := f x b]> s)) as (s' & Hrun & Hl & Hin & Hout).
    { rewrite length_insert. lia. }
    exists s'. rewrite Hrun. split; [reflexivity|].
    rewrite length_insert in Hl. split; [exact Hl|]. split.
    + intros [|k] y Hk Hlt; simpl in Hk.
      * inversion Hk; subst y. rewrite Nat.add_0_r.
        rewrite Hout by lia. rewrite list_lookup_insert_eq by lia.
        rewrite Hb. reflexivity.
      * replace (i + S k)%nat with (S i + k)%nat in * by lia.
        rewrite (Hin k y Hk) by (rewrite length_insert; exact Hlt).
        rewrite list_lookup_insert_ne by lia. reflexivity.
    + intros j Hj. rewrite Hout by lia.
      apply list_lookup_insert_ne. lia.
  - apply lookup_ge_None_1 in Hb.
    exists s. split; [reflexivity|]. split; [reflexivity|]. split.
    + intros k y Hk Hlt. lia.
    + reflexivity.
Qed.

(** X8: with fewer spheres than entities the sphere projector throws a
    [TypeError] and rolls nothing back: every sphere there is has already
    received the position of its entity. *)
Theorem updateSpheresObject_short (points : list Point)
    (barycenter : Barycenter) (spheres : list Object3D) (settings : Settings)
    (basis : THREE.Vector3)
    (Hbasis : framePosition (frame settings) points barycenter = Ok basis)
    (Hshort : (length spheres < S (length points))%nat) :
  exists spheres' : list Object3D,
    updateSpheresObject points barycenter spheres settings = Throws spheres'
    /\ length spheres' = length spheres
    /\ forall (k : nat) (entity : Point) (sphere : Object3D),
         (barycenter :: points) !! k = Some entity ->
         spheres !! k = Some sphere ->
         spheres' !! k
           = Some (setPosition sphere
                     (project (Meca3.position entity) basis
                        (scale settings))).
Proof.
  unfold updateSpheresObject. rewrite Hbasis.
  destruct (forEach_entrywise_short
              (fun (point : Point) (sphere : Object3D) =>
                 setPosition sphere
                   (project (Meca3.position point) basis (scale settings)))
              (barycenter :: points) 0%nat spheres)
    as (spheres' & Hrun & Hl & Hin & _).
  { simpl. lia. }
  exists spheres'. split; [exact Hrun|]. split; [exact Hl|].
  intros k entity sphere Hent Hsph.
  assert (Hk : (k < length spheres)%nat)
    by (apply lookup_lt_is_Some_1; eexists; exact Hsph).
  specialize (Hin k entity Hent Hk). simpl in Hin.
  rewrite Hsph in Hin. exact Hin.
Qed.

(** The sphere projector on enough spheres, entry by entry. *)
Lemma updateSpheresObject_ready (points : list Point)
    (barycenter : Barycenter) (spheres : list Object3D) (settings : Settings)
    (basis : THREE.Vector3) :
  framePosition (frame settings) points barycenter = Ok basis ->
  (S (length points) <= length spheres)%nat ->
  exists spheres' : list Object3D,
    updateSpheresObject points barycenter spheres settings = Returns spheres'
    /\ length spheres' = length spheres
    /\ (forall (k : nat) (entity : Point),
          (barycenter :: points) !! k = Some entity ->
          spheres' !! k
            = (fun sphere =>
                 setPosition sphere
                   (project (Meca3.position entity) basis (scale settings)))
              <$> spheres !! k)
    /\ (forall j : nat,
          (S (length points) <= j)%nat -> spheres' !! j = spheres !! j).
Proof.
  intros Hbasis Hlen. unfold updateSpheresObject. rewrite Hbasis.
  destruct (forEach_entrywise
              (fun (point : Point) (sphere : Object3D) =>
                 setPosition sphere
                   (project (Meca3.position point) basis (scale settings)))
              (barycenter :: points) 0%nat spheres)
    as (spheres' & Hrun & Hl & Hin & Hout).
  { simpl. lia. }
  exists spheres'. split; [exact Hrun|]. split; [exact Hl|]. split.
  - intros k entity Hent. exact (Hin k entity Hent).
  - intros j Hj. apply Hout. right. simpl. lia.
Qed.

(** When the sphere projector returns, there were enough spheres and the
    frame resolved. *)
Lemma updateSpheresObject_returns (points : list Point)
    (barycenter : Barycenter) (spheres spheres' : list Object3D)
    (settings : Settings) :
  updateSpheresObject points barycenter spheres settings = Returns spheres' ->
  (exists basis : THREE.Vector3,
     framePosition (frame settings) points barycenter = Ok basis)
  /\ (S (length points) <= length spheres)%nat.
Proof.
  intros Hrun.
  destruct (framePosition (frame settings) points barycenter)
    as [basis|] eqn:Hbasis.
  - split; [exists basis; reflexivity|].
    destruct (le_lt_dec (S (length points)) (length spheres)) as [H|H];
      [exact H|].
    destruct (updateSpheresObject_short points barycenter spheres settings
                basis Hbasis H) as (s' & Hthrow & _).
    rewrite Hthrow in Hrun. discriminate Hrun.
  - unfold updateSpheresObject in Hrun. rewrite Hbasis in Hrun.
    discriminate Hrun.
Qed.

(** X9: the sphere projector sets positions absolutely: run again on the
    spheres it returned, with the same bodies and settings, it returns
    them unchanged. *)
Theorem updateSpheresObject_idempotent (points : list Point)
    (barycenter : Barycenter) (spheres spheres' : list Object3D)
    (settings : Settings)
    (Hrun : updateSpheresObject points barycenter spheres settings
              = Returns spheres') :
  updateSpheresObject points barycenter spheres' settings = Returns spheres'.
Proof.
  destruct (updateSpheresObject_returns _ _ _ _ _ Hrun)
    as ((basis & Hbasis) & Hlen).
  destruct (updateSpheresObject_ready points barycenter spheres settings
              basis Hbasis Hlen) as (s1 & Hrun1 & Hl1 & Hin1 & Hout1).
  rewrite Hrun in Hrun1. inversion Hrun1; subst s1.
  destruct (updateSpheresObject_ready points barycenter spheres' settings
              basis Hbasis ltac:(lia)) as (s2 & Hrun2 & Hl2 & Hin2 & Hout2).
  rewrite Hrun2. f_equal. apply list_eq. intros k.
  destruct ((barycenter :: points) !! k) as [entity|] eqn:Hent.
  - rewrite (Hin2 k entity Hent), (Hin1 k entity Hent).
    destruct (spheres !! k) as [sphere|]; reflexivity.
  - apply lookup_ge_None_1 in Hent. simpl in Hent.
    apply Hout2. exact Hent.
Qed.

(** X10: the light projector and the sphere projector agree: the position
    given to the light of body [idx] is the position given to sphere
    [idx + 1]. *)
Theorem light_follows_sphere (idx : nat) (points : list Point)
    (barycenter : Barycenter) (light light' : Object3D)
    (spheres spheres' : list Object3D) (settings : Settings)
    (Hlight : updateLightObject idx points barycenter light settings
                = Returns light')
    (Hspheres : updateSpheresObject points barycenter spheres settings
                  = Returns spheres') :
  exists sphere' : Object3D,
    spheres' !! S idx = Some sphere'
    /\ THREE.position light' = THREE.position sphere'.
Proof.
  destruct (updateSpheresObject_returns _ _ _ _ _ Hspheres)
    as ((basis & Hbasis) & Hlen).
  destruct (updateSpheresObject_ready points barycenter spheres settings
              basis Hbasis Hlen) as (s1 & Hrun1 & Hl1 & Hin1 & Hout1).
  rewrite Hspheres in Hrun1. inversion Hrun1; subst s1.
  unfold updateLightObject in Hlight. rewrite Hbasis in Hlight.
  destruct (points !! idx) as [point|] eqn:Hpoint; [|discriminate Hlight].
  inversion Hlight; subst light'.
  assert (Hidx : (idx < length points)%nat)
    by (apply lookup_lt_is_Some_1; eexists; exact Hpoint).
  destruct (lookup_lt_is_Some_2 spheres (S idx)) as [sphere Hsphere]; [lia|].
  pose proof (Hin1 (S idx) point Hpoint) as H. rewrite Hsphere in H.
  eexists. split; [exact H|]. reflexivity.
Qed.

(** ** Advancing the simulation *)

(** The loop of [forEach_with_states] when the second array runs out
    first. *)
Lemma forEach_with_states_short {A B : Type} (f : A -> B -> A)
    (states : list B) (xs : list A) :
  forall (i : nat) (s : list A),
    (i + length xs <= length s)%nat ->
    (i <= length states < i + length xs)%nat ->
    exists s' : list A,
      forEach (fun (x : A) (idx : nat) (s : list A) =>
                 match states !! idx with
                 | None => Throws s
                 | Some st => Returns (<[idx := f x st]> s)
                 end) xs i s = Throws s'
      /\ length s' = length s
      /\ (forall (k : nat) (x : A) (st : B),
            xs !! k = Some x -> states !! (i + k)%nat = Some st ->
            s' !! (i + k)%nat = Some (f x st))
      /\ (forall j : nat,
            (j < i \/ length states <= j)%nat -> s' !! j = s !! j).
Proof.
  induction xs as [|x xs IH]; intros i s Hlen Hstates; simpl in *; [lia|].
  destruct (states !! i) as [st|] eqn:Hst.
  - assert (Hi : (i < length states)%nat)
      by (apply lookup_lt_is_Some_1; eexists; exact Hst).
    destruct (IH (S i) (<[i := f x st]> s)) as (s' & Hrun & Hl & Hin & Hout).
    { rewrite length_insert. lia. }
    { lia. }
    exists s'. split; [exact Hrun|].
    rewrite length_insert in Hl. split; [exact Hl|]. split.
    + intros [|k] y st' Hk Hst'; simpl in Hk.
      * inversion Hk; subst y. rewrite Nat.add_0_r in *.
        rewrite Hst in Hst'. inversion Hst'; subst st'.
        rewrite Hout by lia. apply list_lookup_insert_eq. lia.
      * replace (i + S k)%nat with (S i + k)%nat in * by lia.
        apply (Hin k y st' Hk Hst').
    + intros j Hj. rewrite Hout by lia.
      apply list_lookup_insert_ne. lia.
  - apply lookup_ge_None_1 in Hst.
    exists s. split; [reflexivity|]. split; [reflexivity|]. split.
    + intros k y st' Hk Hst'.
      assert ((i + k < length states)%nat)
        by (apply lookup_lt_is_Some_1; eexists; exact Hst').
      lia.
    + reflexivity.
Qed.

(** X11: when the solver returns fewer states than there are bodies, the
    tick throws a [TypeError] half way: the solver has advanced and the
    bodies that have a state are updated, the other bodies and the
    barycenter are left as they were. *)
Theorem updateSimulation_missing_state (X State : Type)
    (advance : Solver X -> number -> Solver X * list State)
    (pointUpdate : Point -> State -> Point)
    (barycenterUpdate : Barycenter -> list Point -> Barycenter)
    (w : World X) (settings : Settings) :
  let stepped :=
    setDt (worldSolver w)
          (JS.div (Num (speed settings)) (Num (samples settings))) in
  let advanced := advance stepped (Num (speed settings)) in
  (length (snd advanced) < length (worldPoints w))%nat ->
  exists points' : list Point,
    updateSimulation X State advance pointUpdate barycenterUpdate w settings
      = Throws {| worldPoints := points';
                  worldBarycenter := worldBarycenter w;
                  worldSolver := fst advanced |}
    /\ length points' = length (worldPoints w)
    /\ (forall (i : nat) (point : Point) (st : State),
          worldPoints w !! i = Some point ->
          snd advanced !! i = Some st ->
          points' !! i = Some (pointUpdate point st))
    /\ (forall i : nat,
          (length (snd advanced) <= i)%nat ->
          points' !! i = worldPoints w !! i).
Proof.
  intros stepped advanced Hstates.
  unfold updateSimulation. fold stepped. fold advanced.
  destruct advanced as [solver' states] eqn:Hadv. simpl in *.
  destruct (forEach_with_states_short pointUpdate states (worldPoints w)
              0%nat (worldPoints w)) as (points' & Hrun & Hlen & Hin & Hout).
  { simpl. lia. }
  { simpl. lia. }
  exists points'. rewrite Hrun. split; [reflexivity|].
  split; [exact Hlen|]. split.
  - intros i point st Hp Hs. apply (Hin i point st Hp Hs).
  - intros i Hi. apply Hout. right. exact Hi.
Qed.

(** ** The camera-relative overlay scaler *)

Lemma meshEquiv_trans (m1 m2 m3 : THREE.Mesh) :
  meshEquiv m1 m2 -> meshEquiv m2 m3 -> meshEquiv m1 m3.
Proof.
  intros [G1 P1] [G2 P2]. split.
  - revert G2. generalize (THREE.geometry m3).
    induction G1 as [|u v us vs Huv _ IH]; intros ws G2;
      inversion G2; subst; constructor.
    + eapply vector_equiv_trans; eassumption.
    + apply IH. assumption.
  - eapply vector_equiv_trans; eassumption.
Qed.

Lemma meshes_equiv_trans (l1 l2 l3 : list THREE.Mesh) :
  Forall2 meshEquiv l1 l2 -> Forall2 meshEquiv l2 l3 ->
  Forall2 meshEquiv l1 l3.
Proof.
  intros H1. revert l3.
  induction H1 as [|m1 m2 r1 r2 Hm _ IH]; intros l3 H2;
    inversion H2; subst; constructor.
  - eapply meshEquiv_trans; eassumption.
  - apply IH. assumption.
Qed.

Lemma meshes_equiv_refl (frame : list THREE.Mesh) :
  Forall2 meshEquiv frame frame.
Proof.
  induction frame as [|m ms IHm]; constructor; [|exact IHm].
  split; [|repeat split; apply number_equiv_refl].
  induction (THREE.geometry m) as [|v vs IHv]; constructor; [|exact IHv].
  repeat split; apply number_equiv_refl.
Qed.

(** The overlay under a camera that stays the same, from a scale that is
    already the camera's and meshes with finite vertices. *)
Lemma feedAxes_settled (camera : THREE.OrthographicCamera) (s : Q) (n : nat) :
  currentScale camera = Num s -> ~ (s == 0)%Q ->
  forall frame : list THREE.Mesh,
    Forall finiteGeometry frame ->
    Forall2 meshEquiv (fst (feedAxes camera n frame (Num s))) frame
    /\ snd (feedAxes camera n frame (Num s)) = Num s.
Proof.
  intros Hs Hn. induction n as [|n IH]; intros frame Hfin; simpl.
  - split; [apply meshes_equiv_refl | reflexivity].
  - unfold updateAxesMesh. rewrite Hs. rewrite div_finite by exact Hn.
    destruct (IH (List.map (scaleMesh (Num (s / s))) frame)) as [IH1 IH2].
    { clear IH. induction Hfin as [|m ms Hm _ IHf]; simpl; constructor.
      - apply scaleMesh_finite. exact Hm.
      - exact IHf. }
    split; [|exact IH2].
    eapply meshes_equiv_trans; [exact IH1|].
    apply scaleMesh_one_all; [field; exact Hn | exact Hfin].
Qed.

(** X13: under a camera that does not change the overlay is stable from
    the first frame on.  When the scale the first call returns is finite
    and not zero and the first call leaves finite vertices, then however
    many frames follow, each fed the scale of the one before, the meshes
    stay where the first call put them and the scale stays the same. *)
Theorem overlay_stable (camera : THREE.OrthographicCamera)
    (frame : list THREE.Mesh) (scaleF : number) (n : nat) (s : Q)
    (Hscale : snd (updateAxesMesh camera frame scaleF) = Num s)
    (Hs : ~ (s == 0)%Q)
    (Hfinite :
       Forall finiteGeometry (fst (updateAxesMesh camera frame scaleF))) :
  Forall2 meshEquiv (fst (feedAxes camera (S n) frame scaleF))
                    (fst (updateAxesMesh camera frame scaleF))
  /\ snd (feedAxes camera (S n) frame scaleF) = Num s.
Proof.
  change (feedAxes camera (S n) frame scaleF)
    with (feedAxes camera n (fst (updateAxesMesh camera frame scaleF))
            (snd (updateAxesMesh camera frame scaleF))).
  rewrite Hscale.
  apply (feedAxes_settled camera s n Hscale Hs). exact Hfinite.
Qed.

(** ** The trajectory ribbon updater *)

(** The loop of [forEach_entrywise_outcome] on a store that is too short:
    it throws once the store runs out, after rewriting the entries that
    are there. *)
Lemma forEach_entrywise_outcome_short {A B : Type} (g : A -> B -> Outcome B)
    (xs : list A) :
  forall (i : nat) (s : list B),
    (i <= length s < i + length xs)%nat ->
    (forall (k : nat) (x : A) (b : B),
        xs !! k = Some x -> s !! (i + k)%nat = Some b ->
        exists b' : B, g x b = Returns b') ->
    exists s' : list B,
      forEach (fun (x : A) (idx : nat) (s : list B) =>
                 match s !! idx with
                 | None => Throws s
                 | Some b =>
                     match g x b with
                     | Returns b' => Returns (<[idx := b']> s)
                     | Throws b' => Throws (<[idx := b']> s)
                     end
                 end) xs i s = Throws s'
      /\ length s' = length s
      /\ (forall (k : nat) (x : A) (b : B),
            xs !! k = Some x -> s !! (i + k)%nat = Some b ->
            exists b' : B, g x b = Returns b' /\ s' !! (i + k)%nat = Some b')
      /\ (forall j : nat, (j < i)%nat -> s' !! j = s !! j).
Proof.
  induction xs as [|x xs IH]; intros i s Hlen Hok; simpl in *; [lia|].
  destruct (s !! i) as [b|] eqn:Hb.
  - assert (Hi : (i < length s)%nat)
      by (apply lookup_lt_is_Some_1; eexists; exact Hb).
    destruct (Hok 0%nat x b eq_refl) as [b' Hg].
    { rewrite Nat.add_0_r. exact Hb. }
    rewrite Hg.
    destruct (IH (S i) (<[i := b']> s)) as (s' & Hrun & Hl & Hin & Hout).
    { rewrite length_insert. lia. }
    { intros k y c Hk Hc. apply (Hok (S k) y c Hk).
      rewrite list_lookup_insert_ne in Hc by lia.
      replace (i + S k)%nat with (S i + k)%nat by lia. exact Hc. }
    exists s'. split; [exact Hrun|].
    rewrite length_insert in Hl. split; [exact Hl|]. split.
    + intros [|k] y c Hk Hc; simpl in Hk.
      * inversion Hk; subst y. rewrite Nat.add_0_r in *.
        rewrite Hb in Hc. inversion Hc; subst c.
        exists b'. split; [exact Hg|].
        rewrite Hout by lia. apply list_lookup_insert_eq. lia.
      * replace (i + S k)%nat with (S i + k)%nat in * by lia.
        apply (Hin k y c Hk).
        rewrite list_lookup_insert_ne by lia. exact Hc.
    + intros j Hj. rewrite Hout by lia.
      apply list_lookup_insert_ne. lia.
  - apply lookup_ge_None_1 in Hb.
    exists s. split; [reflexivity|]. split; [reflexivity|]. split.
    + intros k y c Hk Hc.
      assert ((i + k < length s)%nat)
        by (apply lookup_lt_is_Some_1; eexists; exact Hc).
      lia.
    + reflexivity.
Qed.

(** The markers of one line after the inner loop, when the line has a
    sample, and a frame sample, for each of its markers. *)
Lemma updateLine_markers
    (normalize : THREE.Vector3 -> THREE.Vector3)
    (setFromUnitVectors : THREE.Vector3 -> THREE.Vector3 -> THREE.Quaternion)
    (ftraj : option Trajectory) (settings : Settings) (entity : Point)
    (line : list Object3D) :
  (length line <= length (Meca3.trajectory entity))%nat ->
  (forall f : Trajectory, ftraj = Some f -> (length line <= length f)%nat) ->
  exists line' : list Object3D,
    forEach (updateVertex normalize setFromUnitVectors ftraj
               (Meca3.trajectory entity) settings) line 0%nat line
      = Returns line'
    /\ length line' = length line
    /\ forall (k : nat) (vertex : Object3D) (sample : Meca3.Vector3)
              (basis : THREE.Vector3),
         line !! k = Some vertex ->
         Meca3.get (Meca3.trajectory entity) k = Some sample ->
         basisAt ftraj k = Some basis ->
         line' !! k
           = Some (markerAt normalize setFromUnitVectors settings line' k
                     vertex sample basis).
Proof.
  intros Htraj Hframe.
  destruct (forEach_updateVertex normalize setFromUnitVectors ftraj
              (Meca3.trajectory entity) settings line 0%nat line)
    as (line' & Hrun & Hlen' & _ & Hin).
  { simpl. lia. }
  { intros k Hk. split.
    - apply lookup_lt_is_Some_2. lia.
    - apply basisAt_defined. intros f Hf. pose proof (Hframe f Hf). lia. }
  exists line'. split; [exact Hrun|]. split; [exact Hlen'|].
  intros k vertex sample basis Hv Hs Hb.
  apply (Hin k vertex sample basis Hv Hs Hb).
Qed.

(** X14: with fewer lines than entities the ribbon updater throws a
    [TypeError] after the last line there is, and rolls nothing back: the
    lines that exist (each with a marker per sample) have all their
    markers rewritten. *)
Theorem updateLinesObject_short
    (normalize : THREE.Vector3 -> THREE.Vector3)
    (setFromUnitVectors : THREE.Vector3 -> THREE.Vector3 -> THREE.Quaternion)
    (points : list Point) (barycenter : Barycenter)
    (lines : list (list Object3D)) (settings : Settings)
    (ftraj : option Trajectory)
    (Hframe : frameTrajectory (frame settings) points barycenter = Ok ftraj)
    (Hshort : (length lines < S (length points))%nat)
    (Hmarkers :
       forall (e : nat) (entity : Point) (line : list Object3D),
         (barycenter :: points) !! e = Some entity ->
         lines !! e = Some line ->
         length line = length (Meca3.trajectory entity))
    (Hlock :
       forall f : Trajectory,
         ftraj = Some f ->
         forall (e : nat) (entity : Point),
           (barycenter :: points) !! e = Some entity ->
           (length (Meca3.trajectory entity) <= length f)%nat) :
  exists lines' : list (list Object3D),
    updateLinesObject normalize setFromUnitVectors points barycenter lines
      settings = Throws lines'
    /\ length lines' = length lines
    /\ forall (e : nat) (entity : Point) (line : list Object3D),
         (barycenter :: points) !! e = Some entity ->
         lines !! e = Some line ->
         exists line' : list Object3D,
           lines' !! e = Some line'
           /\ length line' = length line
           /\ forall (k : nat) (vertex : Object3D) (sample : Meca3.Vector3)
                     (basis : THREE.Vector3),
                line !! k = Some vertex ->
                Meca3.get (Meca3.trajectory entity) k = Some sample ->
                basisAt ftraj k = Some basis ->
                THREE.position <$> line' !! k
                  = Some (project sample basis (scale settings)).
Proof.
  unfold updateLinesObject. rewrite Hframe.
  set (g := fun (point : Point) (line : list Object3D) =>
              forEach (updateVertex normalize setFromUnitVectors ftraj
                         (Meca3.trajectory point) settings) line 0%nat line).
  assert (Hinner :
    forall (e : nat) (entity : Point) (line : list Object3D),
      (barycenter :: points) !! e = Some entity -> lines !! e = Some line ->
      exists line' : list Object3D,
        g entity line = Returns line'
        /\ length line' = length line
        /\ forall (k : nat) (vertex : Object3D) (sample : Meca3.Vector3)
                  (basis : THREE.Vector3),
             line !! k = Some vertex ->
             Meca3.get (Meca3.trajectory entity) k = Some sample ->
             basisAt ftraj k = Some basis ->
             line' !! k
               = Some (markerAt normalize setFromUnitVectors settings
                         line' k vertex sample basis)).
  { intros e entity line He Hl.
    apply updateLine_markers.
    - rewrite (Hmarkers e entity line He Hl). lia.
    - intros f Hf. rewrite (Hmarkers e entity line He Hl).
      exact (Hlock f Hf e entity He). }
  destruct (forEach_entrywise_outcome_short g (barycenter :: points) 0%nat
              lines) as (lines' & Hrun & Hlen & Hin & _).
  { simpl in *. lia. }
  { intros k entity line He Hl.
    destruct (Hinner k entity line He Hl) as (line' & Hg & _).
    exists line'. exact Hg. }
  exists lines'. split; [exact Hrun|]. split; [exact Hlen|].
  intros e entity line He Hl.
  destruct (Hin e entity line He Hl) as (line' & Hg & Hlook).
  destruct (Hinner e entity line He Hl) as (line'' & Hg' & Hlen'' & Hspec).
  rewrite Hg in Hg'. inversion Hg'; subst line''.
  exists line'. split; [exact Hlook|]. split; [exact Hlen''|].
  intros k vertex sample basis Hv Hs Hb.
  rewrite (Hspec k vertex sample basis Hv Hs Hb). reflexivity.
Qed.

(** The position of a marker the ribbon updater wrote does not depend on
    the line it is on. *)
Lemma previousPosition_determined
    (normalize : THREE.Vector3 -> THREE.Vector3)
    (setFromUnitVectors : THREE.Vector3 -> THREE.Vector3 -> THREE.Quaternion)
    (ftraj : option Trajectory) (settings : Settings) (entity : Point)
    (line1 line2 line1' line2' : list Object3D) :
  length line1 = length (Meca3.trajectory entity) ->
  length line2 = length (Meca3.trajectory entity) ->
  (forall f : Trajectory,
      ftraj = Some f -> (length (Meca3.trajectory entity) <= length f)%nat) ->
  length line1' = length line1 ->
  length line2' = length line2 ->
  (forall (k : nat) (vertex : Object3D) (sample : Meca3.Vector3)
          (basis : THREE.Vector3),
      line1 !! k = Some vertex ->
      Meca3.get (Meca3.trajectory entity) k = Some sample ->
      basisAt ftraj k = Some basis ->
      line1' !! k
        = Some (markerAt normalize setFromUnitVectors settings line1' k
                  vertex sample basis)) ->
  (forall (k : nat) (vertex : Object3D) (sample : Meca3.Vector3)
          (basis : THREE.Vector3),
      line2 !! k = Some vertex ->
      Meca3.get (Meca3.trajectory entity) k = Some sample ->
      basisAt ftraj k = Some basis ->
      line2' !! k
        = Some (markerAt normalize setFromUnitVectors settings line2' k
                  vertex sample basis)) ->
  forall k : nat, previousPosition line1' k = previousPosition line2' k.
Proof.
  intros Hl1 Hl2 Hlock Hl1' Hl2' Hm1 Hm2 [|j]; [reflexivity|].
  unfold previousPosition.
  destruct (le_lt_dec (length (Meca3.trajectory entity)) j) as [Hout|Hin].
  - rewrite (lookup_ge_None_2 line1' j) by lia.
    rewrite (lookup_ge_None_2 line2' j) by lia. reflexivity.
  - destruct (lookup_lt_is_Some_2 line1 j) as [v1 Hv1]; [lia|].
    destruct (lookup_lt_is_Some_2 line2 j) as [v2 Hv2]; [lia|].
    destruct (lookup_lt_is_Some_2 (Meca3.trajectory entity) j)
      as [sample Hsample]; [lia|].
    destruct (basisAt_defined ftraj j) as [basis Hbasis].
    { intros f Hf. pose proof (Hlock f Hf). lia. }
    rewrite (Hm1 j v1 sample basis Hv1 Hsample Hbasis).
    rewrite (Hm2 j v2 sample basis Hv2 Hsample Hbasis). reflexivity.
Qed.

(** X15: the ribbon updater sets positions and rotations absolutely.  Two
    ready arrays of lines whose markers differ only in position and
    rotation come out equal; in particular, run again on the lines it
    returned, the updater returns them unchanged. *)
Theorem updateLinesObject_absolute
    (normalize : THREE.Vector3 -> THREE.Vector3)
    (setFromUnitVectors : THREE.Vector3 -> THREE.Vector3 -> THREE.Quaternion)
    (points : list Point) (barycenter : Barycenter)
    (lines : list (list Object3D)) (settings : Settings)
    (ftraj : option Trajectory)
    (Hframe : frameTrajectory (frame settings) points barycenter = Ok ftraj)
    (Hready : ribbonReady ftraj (barycenter :: points) lines) :
  (forall lines2 : list (list Object3D),
      ribbonReady ftraj (barycenter :: points) lines2 ->
      (forall (e k : nat) (line line2 : list Object3D) (m m2 : Object3D),
          lines !! e = Some line -> lines2 !! e = Some line2 ->
          line !! k = Some m -> line2 !! k = Some m2 ->
          THREE.scale m = THREE.scale m2) ->
      updateLinesObject normalize setFromUnitVectors points barycenter
        lines2 settings
      = updateLinesObject normalize setFromUnitVectors points barycenter
          lines settings)
  /\ (forall lines' : list (list Object3D),
        updateLinesObject normalize setFromUnitVectors points barycenter
          lines settings = Returns lines' ->
        updateLinesObject normalize setFromUnitVectors points barycenter
          lines' settings = Returns lines').
Proof.
  assert (Hindep :
    forall lines1 lines2 : list (list Object3D),
      ribbonReady ftraj (barycenter :: points) lines1 ->
      ribbonReady ftraj (barycenter :: points) lines2 ->
      (forall (e k : nat) (line line2 : list Object3D) (m m2 : Object3D),
          lines1 !! e = Some line -> lines2 !! e = Some line2 ->
          line !! k = Some m -> line2 !! k = Some m2 ->
          THREE.scale m = THREE.scale m2) ->
      updateLinesObject normalize setFromUnitVectors points barycenter
        lines2 settings
      = updateLinesObject normalize setFromUnitVectors points barycenter
          lines1 settings).
  { intros lines1 lines2 Hr1 Hr2 Hscale.
    destruct (updateLinesObject_ready normalize setFromUnitVectors points
                barycenter lines1 settings ftraj Hframe Hr1)
      as (out1 & Hrun1 & Hlen1 & Hspec1).
    destruct (updateLinesObject_ready normalize setFromUnitVectors points
                barycenter lines2 settings ftraj Hframe Hr2)
      as (out2 & Hrun2 & Hlen2 & Hspec2).
    rewrite Hrun1, Hrun2. f_equal.
    destruct Hr1 as (Hc1 & Hmk1 & Hlock).
    destruct Hr2 as (Hc2 & Hmk2 & _).
    apply list_eq. intros e.
    destruct ((barycenter :: points) !! e) as [entity|] eqn:He.
    - assert (Hlt : (e < length (barycenter :: points))%nat)
        by (apply lookup_lt_is_Some_1; eexists; exact He).
      destruct (lookup_lt_is_Some_2 lines1 e) as [l1 Hl1]; [lia|].
      destruct (lookup_lt_is_Some_2 lines2 e) as [l2 Hl2]; [lia|].
      destruct (Hspec1 e entity l1 He Hl1) as (l1' & Ho1 & Hn1 & Hm1).
      destruct (Hspec2 e entity l2 He Hl2) as (l2' & Ho2 & Hn2 & Hm2).
      rewrite Ho1, Ho2. f_equal.
      pose proof (Hmk1 e entity l1 He Hl1) as Hs1.
      pose proof (Hmk2 e entity l2 He Hl2) as Hs2.
      pose proof (previousPosition_determined normalize setFromUnitVectors
                    ftraj settings entity l1 l2 l1' l2' Hs1 Hs2
                    (fun f Hf => Hlock f Hf e entity He) Hn1 Hn2 Hm1 Hm2)
        as Hprev.
      apply list_eq. intros k.
      destruct (le_lt_dec (length (Meca3.trajectory entity)) k) as [Hout|Hin].
      + rewrite (lookup_ge_None_2 l2' k) by lia.
        rewrite (lookup_ge_None_2 l1' k) by lia. reflexivity.
      + destruct (lookup_lt_is_Some_2 l1 k) as [v1 Hv1]; [lia|].
        destruct (lookup_lt_is_Some_2 l2 k) as [v2 Hv2]; [lia|].
        destruct (lookup_lt_is_Some_2 (Meca3.trajectory entity) k)
          as [sample Hsample]; [lia|].
        destruct (basisAt_defined ftraj k) as [basis Hbasis].
        { intros f Hf. pose proof (Hlock f Hf e entity He). lia. }
        rewrite (Hm1 k v1 sample basis Hv1 Hsample Hbasis).
        rewrite (Hm2 k v2 sample basis Hv2 Hsample Hbasis).
        unfold markerAt. rewrite (Hprev k).
        rewrite (Hscale e k l1 l2 v1 v2 Hl1 Hl2 Hv1 Hv2). reflexivity.
    - apply lookup_ge_None_1 in He.
      rewrite (lookup_ge_None_2 out2 e) by lia.
      rewrite (lookup_ge_None_2 out1 e) by lia. reflexivity. }
  split.
  - intros lines2 Hr2 Hscale. apply Hindep; assumption.
  - intros lines' Hrun.
    destruct (updateLinesObject_ready normalize setFromUnitVectors points
                barycenter lines settings ftraj Hframe Hready)
      as (out & Hrun' & Hlen & Hspec).
    rewrite Hrun in Hrun'. inversion Hrun'; subst out.
    rewrite <- Hrun. apply Hindep; [exact Hready| |].
    + destruct Hready as (Hc & Hmk & Hlock).
      split; [lia|]. split; [|exact Hlock].
      intros e entity line' He Hl'.
      destruct (lookup_lt_is_Some_2 lines e) as [line Hl].
      { rewrite <- Hlen. apply lookup_lt_is_Some_1. eexists; exact Hl'. }
      destruct (Hspec e entity line He Hl) as (l' & Ho & Hn & _).
      rewrite Hl' in Ho. inversion Ho; subst l'.
      rewrite Hn. exact (Hmk e entity line He Hl).
    + intros e k line line' m m' Hl Hl' Hm Hm'.
      destruct Hready as (Hc & Hmk & Hlock).
      destruct (lookup_lt_is_Some_2 (barycenter :: points) e) as [entity He].
      { rewrite <- Hc. apply lookup_lt_is_Some_1. eexists; exact Hl. }
      destruct (Hspec e entity line He Hl) as (l' & Ho & Hn & Hmark).
      rewrite Hl' in Ho. inversion Ho; subst l'.
      pose proof (Hmk e entity line He Hl) as Hsize.
      assert (Hk : (k < length line)%nat)
        by (apply lookup_lt_is_Some_1; eexists; exact Hm).
      destruct (lookup_lt_is_Some_2 (Meca3.trajectory entity) k)
        as [sample Hsample]; [lia|].
      destruct (basisAt_defined ftraj k) as [basis Hbasis].
      { intros f Hf. pose proof (Hlock f Hf e entity He). lia. }
      rewrite (Hmark k m sample basis Hm Hsample Hbasis) in Hm'.
      inversion Hm'. reflexivity.
Qed.

(** X16: in the frame of body [i] the ribbon of body [i] itself lies on
    the origin: every marker of line [i + 1] gets the zero vector. *)
Theorem ribbon_own_frame_origin
    (normalize : THREE.Vector3 -> THREE.Vector3)
    (setFromUnitVectors : THREE.Vector3 -> THREE.Vector3 -> THREE.Quaternion)
    (points : list Point) (barycenter : Barycenter)
    (lines : list (list Object3D)) (settings : Settings)
    (i : nat) (body : Point)
    (Hframe : frame settings = BodyRelative i)
    (Hbody : points !! i = Some body)
    (Hready : ribbonReady (Some (Meca3.trajectory body))
                (barycenter :: points) lines) :
  exists (lines' : list (list Object3D)) (line' : list Object3D),
    updateLinesObject normalize setFromUnitVectors points barycenter lines
      settings = Returns lines'
    /\ lines' !! S i = Some line'
    /\ length line' = length (Meca3.trajectory body)
    /\ forall (k : nat) (marker : Object3D),
         line' !! k = Some marker -> THREE.position marker =v= THREE.zero.
Proof.
  assert (Hres : frameTrajectory (frame settings) points barycenter
                 = Ok (Some (Meca3.trajectory body))).
  { rewrite Hframe. simpl. rewrite Hbody. reflexivity. }
  destruct (updateLinesObject_ready normalize setFromUnitVectors points
              barycenter lines settings _ Hres Hready)
    as (lines' & Hrun & Hlen & Hspec).
  destruct Hready as (Hc & Hmk & Hlock).
  assert (He : (barycenter :: points) !! S i = Some body) by exact Hbody.
  destruct (lookup_lt_is_Some_2 lines (S i)) as [line Hline].
  { rewrite Hc. apply lookup_lt_is_Some_1. eexists; exact He. }
  destruct (Hspec (S i) body line He Hline) as (line' & Ho & Hn & Hmark).
  pose proof (Hmk (S i) body line He Hline) as Hsize.
  exists lines', line'. split; [exact Hrun|]. split; [exact Ho|].
  split; [lia|].
  intros k marker Hmarker.
  assert (Hk : (k < length line')%nat)
    by (apply lookup_lt_is_Some_1; eexists; exact Hmarker).
  destruct (lookup_lt_is_Some_2 line k) as [vertex Hvertex]; [lia|].
  destruct (lookup_lt_is_Some_2 (Meca3.trajectory body) k)
    as [sample Hsample]; [lia|].
  assert (Hbasis : basisAt (Some (Meca3.trajectory body)) k
                   = Some (THREE.set sample)).
  { unfold basisAt, Meca3.get. rewrite Hsample. reflexivity. }
  rewrite (Hmark k vertex sample _ Hvertex Hsample Hbasis) in Hmarker.
  inversion Hmarker; subst marker. simpl. apply project_self.
Qed.

(** ** Creating the meshes *)

Lemma mapCreated_all {A B : Type} (f : A -> Init.created B) (g : A -> B)
    (xs : list A) :
  (forall x : A, In x xs -> f x = Init.Created (g x)) ->
  Init.mapCreated f xs = Init.Created (List.map g xs).
Proof.
  induction xs as [|x xs IH]; intros H; simpl; [reflexivity|].
  rewrite (H x (or_introl eq_refl)).
  rewrite IH by (intros y Hy; apply H; right; exact Hy). reflexivity.
Qed.

Lemma mapCreated_some {A B : Type} (f : A -> Init.created B) (xs : list A) :
  (exists x : A, In x xs /\ f x = Init.RangeError) ->
  Init.mapCreated f xs = Init.RangeError.
Proof.
  induction xs as [|x xs IH]; intros (y & Hy & Hf); simpl; [contradiction|].
  destruct Hy as [-> | Hy].
  - rewrite Hf. reflexivity.
  - destruct (f x); [|reflexivity].
    rewrite IH by (exists y; split; assumption). reflexivity.
Qed.

(** X17: [initBodiesMesh] gives one sphere and one line per body, in the
    order of the bodies, the line of a body holding [trajectoryLength]
    vertices at the origin; it throws a [RangeError], and returns no mesh
    at all, exactly when some [trajectoryLength] is not an array
    length. *)
Theorem initBodiesMesh_shape (points : list Init.Body) :
  ((forall b : Init.Body,
      In b points -> Init.isArrayLength (Init.trajectoryLength b) = true) ->
   exists meshes : Init.BodiesMesh,
     Init.initBodiesMesh points = Init.Created meshes
     /\ length (Init.spheres meshes) = length points
     /\ length (Init.lines meshes) = length points
     /\ forall (i : nat) (b : Init.Body),
          points !! i = Some b ->
          Init.spheres meshes !! i = Some (Init.initSphereMesh b)
          /\ exists vertices : list THREE.Vector3,
               Init.lines meshes !! i
                 = Some {| Init.geometry := Init.LineGeometry vertices;
                           Init.material := Init.color b |}
               /\ inject_Z (Z.of_nat (length vertices))
                    == Init.trajectoryLength b
               /\ forall v : THREE.Vector3, In v vertices -> v = THREE.zero)
  /\ ((exists b : Init.Body,
         In b points /\ Init.isArrayLength (Init.trajectoryLength b) = false)
      -> Init.initBodiesMesh points = Init.RangeError).
Proof.
  split.
  - intros Hall.
    set (line := fun b : Init.Body =>
           {| Init.geometry :=
                Init.LineGeometry
                  (List.map (fun _ : Datatypes.unit => THREE.zero)
                     (List.repeat tt
                        (Z.to_nat (Qfloor (Init.trajectoryLength b)))));
              Init.material := Init.color b |}).
    assert (Hlines : Init.mapCreated Init.initLineMesh points
                     = Init.Created (List.map line points)).
    { apply mapCreated_all. intros b Hb. unfold Init.initLineMesh.
      rewrite (Hall b Hb). reflexivity. }
    unfold Init.initBodiesMesh. rewrite Hlines.
    eexists. split; [reflexivity|]. simpl.
    split; [apply length_map|]. split; [apply length_map|].
    intros i b Hi. split.
    + rewrite list_lookup_fmap, Hi. reflexivity.
    + eexists. split; [rewrite list_lookup_fmap, Hi; reflexivity|].
      assert (Hb : In b points)
        by (apply list_elem_of_In; eapply list_elem_of_lookup_2; exact Hi).
      specialize (Hall b Hb). unfold Init.isArrayLength in Hall.
      apply andb_prop in Hall. destruct Hall as [Hall _].
      apply andb_prop in Hall. destruct Hall as [Hint Hpos].
      unfold JS.isInteger in Hint. apply Qeq_bool_iff in Hint.
      apply Qle_bool_iff in Hpos.
      split.
      * rewrite length_map, repeat_length. rewrite Z2Nat.id.
        -- symmetry. exact Hint.
        -- rewrite <- (Qfloor_Z 0). apply Qfloor_resp_le. exact Hpos.
      * intros v Hv. apply in_map_iff in Hv.
        destruct Hv as (u & Hu & _). symmetry. exact Hu.
  - intros (b & Hb & Hbad). unfold Init.initBodiesMesh.
    rewrite (mapCreated_some Init.initLineMesh points); [reflexivity|].
    exists b. split; [exact Hb|]. unfold Init.initLineMesh.
    rewrite Hbad. reflexivity.
Qed.

(** ** The gravitational field *)

Section GravityProofs.

Variable dist : Meca3.Vector3 -> Meca3.Vector3 -> number.

(** X19: two bodies of different ids at the same position, for which
    [dist] is zero, get an acceleration whose three coordinates are
    [NaN]: the field has no case for a collision. *)
Theorem gravity_coincident (p point : Gravity.Body)
    (Hid : Gravity.id p <> Gravity.id point)
    (Hsame : Gravity.position p = Gravity.position point)
    (Hzero : dist (Gravity.position point) (Gravity.position p) = Num 0) :
  Gravity.gravitationalAcceleration dist p point
  = {| Gravity.x := JS.NaN; Gravity.y := JS.NaN; Gravity.z := JS.NaN |}.
Proof.
  unfold Gravity.gravitationalAcceleration.
  assert (Hne : (Gravity.id point =? Gravity.id p)%string = false).
  { apply String.eqb_neq. intros E. apply Hid. symmetry. exact E. }
  rewrite Hne, Hzero, Hsame. cbn [JS.mul]. unfold JS.div.
  change (Qeq_bool (0 * 0 * 0) 0) with true. cbv iota.
  assert (Hz : forall (c : Q) (k : comparison),
            JS.mul (JS.sub (Num c) (Num c)) (JS.signedInfinity k) = JS.NaN).
  { intros c k. unfold JS.sub, JS.neg, JS.add.
    assert (Hc : (c + - c ?= 0)%Q = Eq)
      by (apply Qeq_alt; ring).
    destruct k; simpl; rewrite ?Hc; reflexivity. }
  rewrite !Hz. reflexivity.
Qed.

End GravityProofs.

(** ** The telemetry formatter *)

(** X20: the telemetry formatter writes all of the seven texts or none.
    On a frame relative to a body index outside the list it throws before
    it writes anything; on any other frame it returns, and what it
    returns does not depend on the texts there were before: the label of
    the frame, and [makeTime] of the time step, of the speed and of the
    elapsed time. *)
Theorem updateSettingsDom_all_or_nothing (floorLog10 : number -> number)
    (toFixed : number -> Z -> string) (Duration : Durations)
    (toPrecision : number -> Z -> string)
    (momentumMag : Barycenter -> number)
    (dom : SettingsDom) (settings : Settings) (points : list Point)
    (barycenter : Barycenter) (timer : Timer) (t1 : number) :
  let outside :=
    exists i : nat,
      frame settings = BodyRelative i /\ (length points <= i)%nat in
  let twoDecimals := fun x : number => toFixed x 2%Z in
  (outside ->
   updateSettingsDom floorLog10 toFixed Duration toPrecision momentumMag dom
     settings points barycenter timer t1 = Throws dom)
  /\ (~ outside ->
      exists dom' : SettingsDom,
        (forall dom0 : SettingsDom,
            updateSettingsDom floorLog10 toFixed Duration toPrecision
              momentumMag dom0 settings points barycenter timer t1
            = Returns dom')
        /\ frameLabel (frame settings) points = Ok (domFrame dom')
        /\ domDt dom'
           = makeTimeWith floorLog10 twoDecimals Duration (dt timer)
        /\ domDelta dom'
           = makeTimeWith floorLog10 twoDecimals Duration
               (Num (speed settings))
        /\ domElapsed dom'
           = makeTimeWith floorLog10 twoDecimals Duration t1).
Proof.
  intros outside twoDecimals. unfold outside. split.
  - intros (i & Hframe & Hi). unfold updateSettingsDom.
    rewrite Hframe. simpl. rewrite (lookup_ge_None_2 points i Hi).
    reflexivity.
  - intros Hinside.
    destruct (frameLabel (frame settings) points) as [label|] eqn:Hlabel.
    + eexists. split.
      * intros dom0. unfold updateSettingsDom. rewrite Hlabel. reflexivity.
      * cbn [domFrame domDt domDelta domElapsed].
        repeat split; reflexivity.
    + exfalso. apply Hinside.
      destruct (frame settings) as [| |i]; simpl in Hlabel;
        try discriminate Hlabel.
      destruct (points !! i) eqn:Hp; [discriminate Hlabel|].
      exists i. split; [reflexivity|]. apply lookup_ge_None_1. exact Hp.
Qed.

(** ** One animation frame *)

Section AnimateProofs.

Variables X State : Type.
Variable advance : Solver X -> number -> Solver X * list State.
Variable pointUpdate : Point -> State -> Point.
Variable barycenterUpdate : Barycenter -> list Point -> Barycenter.
Variable normalize : THREE.Vector3 -> THREE.Vector3.
Variable setFromUnitVectors :
  THREE.Vector3 -> THREE.Vector3 -> THREE.Quaternion.
Variable floorLog10 : number -> number.
Variable toFixed : number -> Z -> string.
Variable Duration : Durations.
Variable toPrecision : number -> Z -> string.
Variable momentumMag : Barycenter -> number.
Variable t1 : Solver X -> number.
Variable controlsUpdate : Scene X -> Scene X.

(** The simulation step with a state for every body returns, and keeps
    the number of bodies. *)
Lemma updateSimulation_returns (w : World X) (settings : Settings) :
  (length (worldPoints w)
   <= length (snd (advance
                     (setDt (worldSolver w)
                        (JS.div (Num (speed settings))
                                (Num (samples settings))))
                     (Num (speed settings)))))%nat ->
  exists w' : World X,
    updateSimulation X State advance pointUpdate barycenterUpdate w settings
      = Returns w'
    /\ length (worldPoints w') = length (worldPoints w).
Proof.
  intros Hstates. unfold updateSimulation.
  destruct (advance _ _) as [solver' states]. simpl in Hstates.
  destruct (forEach_with_states pointUpdate states (worldPoints w) 0%nat
              (worldPoints w)) as (points' & Hrun & Hlen & _).
  { simpl. lia. }
  { simpl. lia. }
  rewrite Hrun. eexists. split; [reflexivity|]. exact Hlen.
Qed.

(** X21: a frame relative to a body index outside the list, or an empty
    list of bodies, stops the animation in its first frame, at the light:
    the simulation has advanced by one step, nothing has been drawn, the
    telemetry, the overlay and its scale are as they were, and no further
    frame runs. *)
Theorem frames_stop_at_the_light (s : Scene X) (n : nat)
    (Hstates :
       (length (worldPoints (sceneWorld s))
        <= length (snd (advance
                          (setDt (worldSolver (sceneWorld s))
                             (JS.div (Num (speed (sceneSettings s)))
                                     (Num (samples (sceneSettings s)))))
                          (Num (speed (sceneSettings s))))))%nat)
    (Hbad :
       (exists i : nat,
          frame (sceneSettings s) = BodyRelative i
          /\ (length (worldPoints (sceneWorld s)) <= i)%nat)
       \/ worldPoints (sceneWorld s) = []) :
  exists w' : World X,
    updateSimulation X State advance pointUpdate barycenterUpdate
      (sceneWorld s) (sceneSettings s) = Returns w'
    /\ frames X State advance pointUpdate barycenterUpdate normalize
         setFromUnitVectors floorLog10 toFixed Duration toPrecision
         momentumMag t1 controlsUpdate (S n) s
       = Throws {| sceneWorld := w';
                   sceneLight := sceneLight s;
                   sceneLines := sceneLines s;
                   sceneSpheres := sceneSpheres s;
                   sceneDom := sceneDom s;
                   sceneAxes := sceneAxes s;
                   zoomScale := zoomScale s;
                   sceneCamera := sceneCamera s;
                   sceneSettings := sceneSettings s |}.
Proof.
  destruct (updateSimulation_returns (sceneWorld s) (sceneSettings s) Hstates)
    as (w' & Hrun & Hlen).
  exists w'. split; [exact Hrun|].
  assert (Hlight :
    updateLightObject 0 (worldPoints w') (worldBarycenter w') (sceneLight s)
      (sceneSettings s) = Throws (sceneLight s)).
  { unfold updateLightObject. destruct Hbad as [(i & Hframe & Hi) | Hempty].
    - rewrite Hframe. simpl.
      rewrite (lookup_ge_None_2 (worldPoints w') i) by lia. reflexivity.
    - rewrite Hempty in Hlen. simpl in Hlen.
      destruct (framePosition _ _ _); [|reflexivity].
      rewrite (lookup_ge_None_2 (worldPoints w') 0) by lia. reflexivity. }
  cbn [frames]. unfold animate. rewrite Hrun. cbn [andThen].
  rewrite Hlight. reflexivity.
Qed.

(** X22: a frame draws the state the simulation step has just produced.
    When the step returns a world on which the frame resolves, with at
    least one body, enough spheres and lines that are ready, the frame
    returns, and the scene it hands to the controls is the drawn one: the
    light and sphere 1 hold the projection of the first body of that
    world, every sphere holds the projection of its entity of that world,
    every marker the projection of its sample, and the scale kept for the
    overlay is the camera's. *)
Theorem animate_draws_the_new_state (s : Scene X) (w' : World X)
    (basis : THREE.Vector3) (ftraj : option Trajectory) (first : Point)
    (Hstep : updateSimulation X State advance pointUpdate barycenterUpdate
               (sceneWorld s) (sceneSettings s) = Returns w')
    (Hbasis : framePosition (frame (sceneSettings s)) (worldPoints w')
                (worldBarycenter w') = Ok basis)
    (Hftraj : frameTrajectory (frame (sceneSettings s)) (worldPoints w')
                (worldBarycenter w') = Ok ftraj)
    (Hfirst : worldPoints w' !! 0%nat = Some first)
    (Hspheres : (S (length (worldPoints w')) <= length (sceneSpheres s))%nat)
    (Hready : ribbonReady ftraj (worldBarycenter w' :: worldPoints w')
                (sceneLines s)) :
  exists s' : Scene X,
    animate X State advance pointUpdate barycenterUpdate normalize
      setFromUnitVectors floorLog10 toFixed Duration toPrecision momentumMag
      t1 controlsUpdate s
    = Returns (controlsUpdate s')
    /\ sceneWorld s' = w'
    /\ THREE.position (sceneLight s')
       = project (Meca3.position first) basis (scale (sceneSettings s))
    /\ (forall (k : nat) (entity : Point),
          (worldBarycenter w' :: worldPoints w') !! k = Some entity ->
          THREE.position <$> sceneSpheres s' !! k
          = Some (project (Meca3.position entity) basis
                    (scale (sceneSettings s))))
    /\ (forall (e : nat) (entity : Point) (k : nat)
               (sample : Meca3.Vector3) (b : THREE.Vector3),
          (worldBarycenter w' :: worldPoints w') !! e = Some entity ->
          Meca3.get (Meca3.trajectory entity) k = Some sample ->
          basisAt ftraj k = Some b ->
          exists line' : list Object3D,
            sceneLines s' !! e = Some line'
            /\ THREE.position <$> line' !! k
               = Some (project sample b (scale (sceneSettings s))))
    /\ zoomScale s' = currentScale (sceneCamera s)
    /\ sceneSettings s' = sceneSettings s
    /\ sceneCamera s' = sceneCamera s.
Proof.
  assert (Hlight :
    updateLightObject 0 (worldPoints w') (worldBarycenter w') (sceneLight s)
      (sceneSettings s)
    = Returns (setPosition (sceneLight s)
                 (project (Meca3.position first) basis
                    (scale (sceneSettings s))))).
  { unfold updateLightObject. rewrite Hbasis, Hfirst. reflexivity. }
  destruct (updateLinesObject_ready normalize setFromUnitVectors
              (worldPoints w') (worldBarycenter w') (sceneLines s)
              (sceneSettings s) ftraj Hftraj Hready)
    as (lines' & Hlines & Hllen & Hlspec).
  destruct (updateSpheresObject_ready (worldPoints w') (worldBarycenter w')
              (sceneSpheres s) (sceneSettings s) basis Hbasis Hspheres)
    as (spheres' & Hsph & Hslen & Hsin & Hsout).
  assert (Hlabel : exists label : string,
            frameLabel (frame (sceneSettings s)) (worldPoints w') = Ok label).
  { destruct (frame (sceneSettings s)) as [| |i]; simpl in *;
      try (eexists; reflexivity).
    destruct (worldPoints w' !! i); [eexists; reflexivity | discriminate]. }
  destruct Hlabel as [label Hlabel].
  unfold animate. rewrite Hstep. cbn [andThen].
  rewrite Hlight. cbn [andThen]. rewrite Hlines. cbn [andThen].
  rewrite Hsph. cbn [andThen].
  unfold updateSettingsDom. rewrite Hlabel. cbn [andThen].
  unfold updateAxesMesh.
  eexists. split; [reflexivity|].
  cbn [sceneWorld sceneLight sceneLines sceneSpheres zoomScale sceneCamera
       sceneSettings].
  split; [reflexivity|]. split; [reflexivity|]. split; [|split].
  - intros k entity Hent. rewrite (Hsin k entity Hent).
    assert (Hk : (k < length (sceneSpheres s))%nat).
    { assert (Hlt : (k < length (worldBarycenter w' :: worldPoints w'))%nat)
        by (apply lookup_lt_is_Some_1; eexists; exact Hent).
      simpl in Hlt. lia. }
    destruct (lookup_lt_is_Some_2 (sceneSpheres s) k Hk) as [sphere Hsphere].
    rewrite Hsphere. reflexivity.
  - intros e entity k sample b Hent Hsample Hb.
    destruct Hready as (Hc & Hmk & Hlock).
    destruct (lookup_lt_is_Some_2 (sceneLines s) e) as [line Hline].
    { rewrite Hc. apply lookup_lt_is_Some_1. eexists; exact Hent. }
    destruct (Hlspec e entity line Hent Hline) as (line' & Ho & Hn & Hmark).
    exists line'. split; [exact Ho|].
    pose proof (Hmk e entity line Hent Hline) as Hsize.
    assert (Hk : (k < length (Meca3.trajectory entity))%nat).
    { apply lookup_lt_is_Some_1. eexists; exact Hsample. }
    destruct (lookup_lt_is_Some_2 line k) as [vertex Hvertex]; [lia|].
    rewrite (Hmark k vertex sample b Hvertex Hsample Hb). reflexivity.
  - repeat split; reflexivity.
Qed.

End AnimateProofs.

(** ** The further properties at work on the small scene *)

Lemma makeTime_negative_witness :
  makeTime calendar (Num (-5)) = "NaN undefineds".
Proof.
  apply (makeTime_negative calendar (-5)); reflexivity.
Defined.

Lemma makeTime_parts_in_range_witness :
  exists h m : Z,
    makeTime calendar (Num 20400) = digits h ++ " h " ++ digits m ++ " m"
    /\ (1 <= h < 24)%Z /\ (0 <= m < 60)%Z.
Proof.
  apply (makeTime_parts_in_range calendar calendar_isCalendar 20400).
  split; [unfold Qle; simpl; lia | unfold Qlt; simpl; lia].
Defined.

Lemma makeTime_months_branch_witness :
  makeTime calendar (Num 3888000)
  = toFixed2 (Num (3888000 / Month calendar)) ++ " m "
      ++ digits (Qfloor (3888000 / Month calendar)) ++ " d".
Proof.
  apply (makeTime_months_branch JS.floor_log10 toFixed2 calendar
           calendar_isCalendar 3888000).
  - unfold Qle; simpl; lia.
  - unfold Qle; simpl; lia.
  - unfold Qlt; simpl; lia.
Defined.

Lemma makeTime_seconds_witness :
  makeTime calendar (Num 30) = toFixed2 (Num 30) ++ " s".
Proof.
  apply (makeTime_seconds calendar calendar_isCalendar 30).
  - unfold Qle; simpl; lia.
  - unfold Qlt; simpl; lia.
Defined.

Lemma resolver_fails_together_witness :
  framePosition (BodyRelative 2) demoPoints demoBarycenter = TypeError.
Proof.
  apply (resolver_fails_together (BodyRelative 2) demoPoints demoBarycenter).
  exists 2%nat. split; [reflexivity | apply le_n].
Defined.

Lemma updateSpheresObject_short_witness :
  exists spheres' : list Object3D,
    updateSpheresObject demoPoints demoBarycenter [demoMarker]
      (demoSettings Fixed) = Throws spheres'
    /\ length spheres' = 1%nat.
Proof.
  destruct (updateSpheresObject_short demoPoints demoBarycenter [demoMarker]
              (demoSettings Fixed) THREE.zero eq_refl)
    as (spheres' & Hrun & Hlen & _).
  - simpl. lia.
  - exists spheres'. split; assumption.
Defined.

Lemma updateSpheresObject_idempotent_witness :
  exists spheres' : list Object3D,
    updateSpheresObject demoPoints demoBarycenter demoSpheres
      (demoSettings Barycentric) = Returns spheres'
    /\ updateSpheresObject demoPoints demoBarycenter spheres'
         (demoSettings Barycentric) = Returns spheres'.
Proof.
  eexists. split; [reflexivity|].
  apply (updateSpheresObject_idempotent demoPoints demoBarycenter
           demoSpheres). reflexivity.
Defined.

Lemma light_follows_sphere_witness :
  exists (light' sphere' : Object3D) (spheres' : list Object3D),
    updateLightObject 0 demoPoints demoBarycenter demoMarker
      (demoSettings Barycentric) = Returns light'
    /\ updateSpheresObject demoPoints demoBarycenter demoSpheres
         (demoSettings Barycentric) = Returns spheres'
    /\ spheres' !! 1%nat = Some sphere'
    /\ THREE.position light' = THREE.position sphere'.
Proof.
  destruct (light_follows_sphere 0 demoPoints demoBarycenter demoMarker _
              demoSpheres _ (demoSettings Barycentric) eq_refl eq_refl)
    as (sphere' & Hsphere & Hpos).
  eexists. exists sphere'. eexists.
  split; [reflexivity|]. split; [reflexivity|]. split; assumption.
Defined.

Lemma updateSimulation_missing_state_witness :
  exists points' : list Point,
    updateSimulation Datatypes.unit Meca3.Vector3 (demoAdvance [vec 0 0 1])
      demoPointUpdate demoBarycenterUpdate demoWorld (demoSettings Fixed)
    = Throws {| worldPoints := points';
                worldBarycenter := demoBarycenter;
                worldSolver :=
                  {| timer := {| dt := Num (43800 / 8192) |};
                     inner := tt |} |}.
Proof.
  destruct (updateSimulation_missing_state Datatypes.unit Meca3.Vector3
              (demoAdvance [vec 0 0 1]) demoPointUpdate demoBarycenterUpdate
              demoWorld (demoSettings Fixed))
    as (points' & Hrun & _).
  - simpl. lia.
  - exists points'. exact Hrun.
Defined.

Lemma overlay_stable_witness :
  Forall2 meshEquiv (fst (feedAxes demoCamera 3 demoAxes (Num 1)))
          (fst (updateAxesMesh demoCamera demoAxes (Num 1)))
  /\ snd (feedAxes demoCamera 3 demoAxes (Num 1))
     = Num ((400 - -400) / 2 / 800).
Proof.
  apply (overlay_stable demoCamera demoAxes (Num 1) 2).
  - reflexivity.
  - discriminate.
  - repeat constructor; do 3 eexists; reflexivity.
Defined.

Lemma updateLinesObject_short_witness :
  exists lines' : list (list Object3D),
    updateLinesObject (fun v => v) (fun _ _ => identityQuaternion)
      demoPoints demoBarycenter [[demoMarker; demoMarker]]
      (demoSettings Fixed) = Throws lines'
    /\ length lines' = 1%nat.
Proof.
  destruct (updateLinesObject_short (fun v => v)
              (fun _ _ => identityQuaternion) demoPoints demoBarycenter
              [[demoMarker; demoMarker]] (demoSettings Fixed) None eq_refl)
    as (lines' & Hrun & Hlen & _).
  - simpl. lia.
  - intros e entity line He Hl.
    destruct e as [|e]; simpl in He, Hl; [|discriminate Hl].
    inversion He; inversion Hl; subst. reflexivity.
  - intros f Hf. discriminate Hf.
  - exists lines'. split; assumption.
Defined.

Lemma updateLinesObject_absolute_witness :
  exists lines' : list (list Object3D),
    updateLinesObject (fun v => v) (fun _ _ => identityQuaternion)
      demoPoints demoBarycenter demoLines (demoSettings Fixed)
    = Returns lines'
    /\ updateLinesObject (fun v => v) (fun _ _ => identityQuaternion)
         demoPoints demoBarycenter lines' (demoSettings Fixed)
       = Returns lines'.
Proof.
  eexists. split; [reflexivity|].
  apply (updateLinesObject_absolute (fun v => v)
           (fun _ _ => identityQuaternion) demoPoints demoBarycenter
           demoLines (demoSettings Fixed) None eq_refl).
  - apply demo_ready. intros f Hf. discriminate Hf.
  - reflexivity.
Defined.

Lemma ribbon_own_frame_origin_witness :
  exists (lines' : list (list Object3D)) (line' : list Object3D),
    updateLinesObject (fun v => v) (fun _ _ => identityQuaternion)
      demoPoints demoBarycenter demoLines (demoSettings (BodyRelative 1))
    = Returns lines'
    /\ lines' !! 2%nat = Some line'
    /\ length line' = 2%nat.
Proof.
  destruct (ribbon_own_frame_origin (fun v => v)
              (fun _ _ => identityQuaternion) demoPoints demoBarycenter
              demoLines (demoSettings (BodyRelative 1)) 1 demoEarth
              eq_refl eq_refl)
    as (lines' & line' & Hrun & Hline & Hlen & _).
  - apply demo_ready. intros f Hf. inversion Hf. reflexivity.
  - exists lines', line'. repeat split; assumption.
Defined.

Lemma initBodiesMesh_shape_witness :
  exists meshes : Init.BodiesMesh,
    Init.initBodiesMesh
      [{| Init.radius := 10; Init.color := "#E95700";
          Init.trajectoryLength := 2 |}]
    = Init.Created meshes
    /\ length (Init.lines meshes) = 1%nat.
Proof.
  destruct (proj1 (initBodiesMesh_shape
                     [{| Init.radius := 10; Init.color := "#E95700";
                         Init.trajectoryLength := 2 |}]))
    as (meshes & Hrun & _ & Hlen & _).
  - intros b [<- | []]. reflexivity.
  - exists meshes. split; assumption.
Defined.

Lemma gravity_coincident_witness :
  Gravity.gravitationalAcceleration (fun _ _ => Num 0)
    (demoBody "Sun" 1) (demoBody "Earth" 1)
  = {| Gravity.x := JS.NaN; Gravity.y := JS.NaN; Gravity.z := JS.NaN |}.
Proof.
  apply (gravity_coincident (fun _ _ => Num 0) (demoBody "Sun" 1)
           (demoBody "Earth" 1)); [discriminate | reflexivity | reflexivity].
Defined.

Lemma updateSettingsDom_all_or_nothing_witness :
  updateSettingsDom JS.floor_log10 (fun x _ => toFixed2 x) calendar
    (fun _ _ => "?") (fun _ => Num 0) demoDom
    (demoSettings (BodyRelative 2)) demoPoints demoBarycenter
    {| dt := Num 1 |} (Num 0)
  = Throws demoDom
  /\ exists dom' : SettingsDom,
       updateSettingsDom JS.floor_log10 (fun x _ => toFixed2 x) calendar
         (fun _ _ => "?") (fun _ => Num 0) demoDom
         (demoSettings (BodyRelative 1)) demoPoints demoBarycenter
         {| dt := Num 3600 |} (Num 86400)
       = Returns dom'
       /\ domFrame dom' = "Earth"
       /\ domDt dom' = "1 h 0 m"
       /\ domElapsed dom' = "1 d 0 h".
Proof.
  split.
  - apply (updateSettingsDom_all_or_nothing JS.floor_log10
             (fun x _ => toFixed2 x) calendar (fun _ _ => "?")
             (fun _ => Num 0) demoDom (demoSettings (BodyRelative 2))
             demoPoints demoBarycenter {| dt := Num 1 |} (Num 0)).
    exists 2%nat. split; [reflexivity | apply le_n].
  - destruct (proj2 (updateSettingsDom_all_or_nothing JS.floor_log10
                       (fun x _ => toFixed2 x) calendar (fun _ _ => "?")
                       (fun _ => Num 0) demoDom
                       (demoSettings (BodyRelative 1)) demoPoints
                       demoBarycenter {| dt := Num 3600 |} (Num 86400)))
      as (dom' & Hrun & Hlabel & Hdt & _ & Helapsed).
    + intros (i & Hi & Hlen). inversion Hi; subst i.
      simpl in Hlen. lia.
    + exists dom'. split; [apply Hrun|].
      split; [|split].
      * simpl in Hlabel. inversion Hlabel. reflexivity.
      * rewrite Hdt. reflexivity.
      * rewrite Helapsed. reflexivity.
Defined.

Lemma frames_stop_at_the_light_witness :
  exists s' : Scene Datatypes.unit,
    frames Datatypes.unit Meca3.Vector3
      (demoAdvance [vec 0 0 1; vec 3 0 1]) demoPointUpdate
      demoBarycenterUpdate (fun v => v) (fun _ _ => identityQuaternion)
      JS.floor_log10 (fun x _ => toFixed2 x) calendar (fun _ _ => "?")
      (fun _ => Num 0) (fun _ => Num 0) (fun sc => sc) 5
      (demoScene (BodyRelative 2))
    = Throws s'
    /\ sceneSpheres s' = demoSpheres.
Proof.
  destruct (frames_stop_at_the_light Datatypes.unit Meca3.Vector3
              (demoAdvance [vec 0 0 1; vec 3 0 1]) demoPointUpdate
              demoBarycenterUpdate (fun v => v)
              (fun _ _ => identityQuaternion) JS.floor_log10
              (fun x _ => toFixed2 x) calendar (fun _ _ => "?")
              (fun _ => Num 0) (fun _ => Num 0) (fun sc => sc)
              (demoScene (BodyRelative 2)) 4)
    as (w' & _ & Hrun).
  - simpl. lia.
  - left. exists 2%nat. split; [reflexivity | apply le_n].
  - eexists. split; [exact Hrun | reflexivity].
Defined.

Lemma animate_draws_the_new_state_witness :
  exists s' : Scene Datatypes.unit,
    animate Datatypes.unit Meca3.Vector3
      (demoAdvance [vec 0 0 1; vec 3 0 1]) demoPointUpdate
      demoBarycenterUpdate (fun v => v) (fun _ _ => identityQuaternion)
      JS.floor_log10 (fun x _ => toFixed2 x) calendar (fun _ _ => "?")
      (fun _ => Num 0) (fun _ => Num 0) (fun sc => sc) (demoScene Fixed)
    = Returns s'
    /\ THREE.position (sceneLight s')
       = project (vec 0 0 1) THREE.zero 2.
Proof.
  destruct (animate_draws_the_new_state Datatypes.unit Meca3.Vector3
              (demoAdvance [vec 0 0 1; vec 3 0 1]) demoPointUpdate
              demoBarycenterUpdate (fun v => v)
              (fun _ _ => identityQuaternion) JS.floor_log10
              (fun x _ => toFixed2 x) calendar (fun _ _ => "?")
              (fun _ => Num 0) (fun _ => Num 0) (fun sc => sc)
              (demoScene Fixed) _ THREE.zero None
              (demoPointUpdate demoSun (vec 0 0 1)) eq_refl eq_refl eq_refl
              eq_refl)
    as (s' & Hrun & _ & Hlight & _).
  - simpl. lia.
  - split; [reflexivity|]. split.
    + intros e entity line He Hl.
      destruct e as [|[|[|e]]]; simpl in He, Hl; try discriminate;
        inversion He; inversion Hl; subst; reflexivity.
    + intros f Hf. discriminate Hf.
  - exists s'. split; [exact Hrun | exact Hlight].
Defined.
